(** * objfcn: an in-process loader for relocatable ELF objects

    A shallow embedding of [objfcn.c] and the properties of it that the
    specification states.  The embedding follows the build the source
    selects with [#define OBJFCN_SPLIT_ALLOC 0] (one process-wide arena
    and bump pointer) and [#define OBJFCN_LOG 0]; the target architecture
    ([__x86_64__] or [__i386__]) is a parameter.

    Conventions.
    - Fixed-width C integers are [Z] with the wrap-around written out.
    - The file buffer [bin] is a located byte list (a byte is read modulo
      256); pointers into it are absolute addresses, as in the C code.
      Reading outside the buffer is undefined in C; the embedding reads 0
      there, and a write there is dropped.
    - Pointer arithmetic is not wrapped (its overflow is undefined in C).
    - The arena and everything reached through relocation targets is a
      byte-addressed memory [Z -> Z].
      The file buffer is an object of its own: a store through a
      relocation target never changes it.
    - [malloc]/[free]/[mmap]/[munmap] act on an explicit set of live blocks
      and live mappings.  A [malloc] or [strdup] whose result the source
      does not test succeeds. *)

From Stdlib Require Import ZArith List Bool String Ascii Lia Znumtheory.
From Stdlib Require Import DecimalString.
Import ListNotations.
Local Open Scope Z_scope.

(** ** Target architecture and C integer types *)

Inductive arch : Type := X86_64 | I386.

(** [__SIZEOF_POINTER__ * 8]; also the width of [size_t], [uintptr_t]. *)
Definition ptr_bits (a : arch) : Z :=
  match a with X86_64 => 64 | I386 => 32 end.

Definition wrap (bits v : Z) : Z := v mod 2 ^ bits.

(** Conversion to [size_t]. *)
Definition to_size (a : arch) (v : Z) : Z := wrap (ptr_bits a) v.

(** Conversion to (32-bit, two's complement) [int]. *)
Definition to_int (v : Z) : Z :=
  let u := wrap 32 v in if u <? 2 ^ 31 then u else u - 2 ^ 32.

(** [(size_t)-1], the failure value of [relocate]. *)
Definition SIZE_MAX (a : arch) : Z := 2 ^ ptr_bits a - 1.

(** [MAP_FAILED] is [(void* )-1]. *)
Definition MAP_FAILED (a : arch) : Z := 2 ^ ptr_bits a - 1.

(** ** Strings *)

Definition ascii_of_Z (b : Z) : ascii := ascii_of_N (Z.to_N b).

Fixpoint string_of_bytes (l : list Z) : string :=
  match l with
  | [] => EmptyString
  | b :: t => String (ascii_of_Z b) (string_of_bytes t)
  end.

(** [printf]'s [%d] / [%ld]. *)
Definition dec (v : Z) : string := NilZero.string_of_int (Z.to_int v).

(** ** The file buffer *)

Record buffer : Type := mkBuffer {
  buf_base : Z;            (* the pointer [bin] *)
  buf_bytes : list Z       (* the bytes read from the file *)
}.

Definition rd8 (b : buffer) (p : Z) : Z :=
  if (buf_base b <=? p) && (p <? buf_base b + Z.of_nat (List.length (buf_bytes b)))
  then nth (Z.to_nat (p - buf_base b)) (buf_bytes b) 0 mod 256
  else 0.

(** Little-endian read of an [n]-byte unsigned field. *)
Fixpoint rd (n : nat) (b : buffer) (p : Z) : Z :=
  match n with
  | O => 0
  | S k => rd8 b p + 256 * rd k b (p + 1)
  end.

Fixpoint upd_nth (l : list Z) (i : nat) (v : Z) : list Z :=
  match l, i with
  | [], _ => []
  | _ :: t, O => v :: t
  | h :: t, S k => h :: upd_nth t k v
  end.

Definition wr8 (b : buffer) (p v : Z) : buffer :=
  if (buf_base b <=? p) && (p <? buf_base b + Z.of_nat (List.length (buf_bytes b)))
  then mkBuffer (buf_base b)
                (upd_nth (buf_bytes b) (Z.to_nat (p - buf_base b)) (v mod 256))
  else b.

(** Little-endian write of an [n]-byte field. *)
Fixpoint wr (n : nat) (b : buffer) (p v : Z) : buffer :=
  match n with
  | O => b
  | S k => wr k (wr8 b p v) (p + 1) (v / 256)
  end.

(** The C string starting at [p]: the bytes up to the first NUL. *)
Fixpoint until_nul (l : list Z) : list Z :=
  match l with
  | [] => []
  | c :: t => if c mod 256 =? 0 then [] else c mod 256 :: until_nul t
  end.

Definition cstr (b : buffer) (p : Z) : string :=
  if (buf_base b <=? p)
  then string_of_bytes (until_nul (skipn (Z.to_nat (p - buf_base b)) (buf_bytes b)))
  else EmptyString.

(** ** Byte-addressed memory *)

Definition memory : Type := Z -> Z.

Definition store8 (m : memory) (p v : Z) : memory :=
  fun x => if x =? p then v mod 256 else m x.

Fixpoint load (n : nat) (m : memory) (p : Z) : Z :=
  match n with
  | O => 0
  | S k => m p + 256 * load k m (p + 1)
  end.

Fixpoint store (n : nat) (m : memory) (p v : Z) : memory :=
  match n with
  | O => m
  | S k => store k (store8 m p v) (p + 1) (v / 256)
  end.

(** The [n] bytes of memory from [p] on. *)
Definition bytes_at (m : memory) (p : Z) (n : nat) : list Z :=
  map (fun k => m (p + Z.of_nat k)) (seq 0 n).

(** The [n]-byte little-endian encoding of [v]. *)
Fixpoint le (n : nat) (v : Z) : list Z :=
  match n with
  | O => []
  | S k => v mod 256 :: le k (v / 256)
  end.

(** [*(uintN_t* )p += v] for an [n]-byte unsigned integer. *)
Definition add_at (n : nat) (m : memory) (p v : Z) : memory :=
  store n m p (load n m p + v).

(** [memcpy(dst, src, n)] with the source in the file buffer. *)
Definition memcpy (m : memory) (dst : Z) (b : buffer) (src n : Z) : memory :=
  fun x => if (dst <=? x) && (x <? dst + n) then rd8 b (src + (x - dst)) else m x.

(** ** The ELF view

    Constants and structure layouts of [<elf.h>] for the two classes.  The
    C code reads the structures through pointer casts into [bin]; the
    readers below decode the same little-endian fields at the same
    offsets. *)

Module Elf.
Definition ELFMAG : list Z := [127; 69; 76; 70].      (* "\177ELF" *)
Definition ELFCLASS32 : Z := 1.
Definition ELFCLASS64 : Z := 2.
Definition EI_CLASS : Z := 4.

Definition SHT_SYMTAB : Z := 2.
Definition SHT_STRTAB : Z := 3.
Definition SHT_RELA : Z := 4.
Definition SHT_NOBITS : Z := 8.
Definition SHT_REL : Z := 9.
Definition SHF_ALLOC : Z := 2.
Definition SHN_UNDEF : Z := 0.

Definition STT_NOTYPE : Z := 0.
Definition STT_OBJECT : Z := 1.
Definition STT_FUNC : Z := 2.
Definition STT_SECTION : Z := 3.

Definition R_X86_64_64 : Z := 1.
Definition R_X86_64_PC32 : Z := 2.
Definition R_X86_64_PLT32 : Z := 4.
Definition R_X86_64_REX_GOTPCRELX : Z := 42.
Definition R_386_32 : Z := 1.
Definition R_386_PC32 : Z := 2.
End Elf.
Import Elf.

Record Elf_Shdr : Type := mkShdr {
  sh_type : Z; sh_flags : Z; sh_offset : Z; sh_size : Z;
  sh_link : Z; sh_info : Z
}.

Record Elf_Sym : Type := mkSym {
  st_name : Z; st_info : Z; st_shndx : Z; st_value : Z
}.

Record Elf_Rela : Type := mkRela {
  r_offset : Z; r_info : Z; r_addend : Z     (* [r_addend] is signed *)
}.

(** Bytes of a pointer-sized field. *)
Definition ptr_bytes (a : arch) : nat :=
  match a with X86_64 => 8%nat | I386 => 4%nat end.

Definition sizeof_Shdr (a : arch) : Z := match a with X86_64 => 64 | I386 => 40 end.
Definition sizeof_Sym (a : arch) : Z := match a with X86_64 => 24 | I386 => 16 end.
Definition sizeof_Rel (a : arch) : Z := match a with X86_64 => 16 | I386 => 8 end.
Definition sizeof_Rela (a : arch) : Z := match a with X86_64 => 24 | I386 => 12 end.

(** Offset of [st_value] inside [Elf_Sym]. *)
Definition st_value_off (a : arch) : Z := match a with X86_64 => 8 | I386 => 4 end.

Definition e_shoff (a : arch) (b : buffer) (ehdr : Z) : Z :=
  match a with
  | X86_64 => rd 8 b (ehdr + 40)
  | I386 => rd 4 b (ehdr + 32)
  end.

Definition e_shnum (a : arch) (b : buffer) (ehdr : Z) : Z :=
  match a with
  | X86_64 => rd 2 b (ehdr + 60)
  | I386 => rd 2 b (ehdr + 48)
  end.

Definition read_shdr (a : arch) (b : buffer) (p : Z) : Elf_Shdr :=
  match a with
  | X86_64 =>
      mkShdr (rd 4 b (p + 4)) (rd 8 b (p + 8)) (rd 8 b (p + 24))
             (rd 8 b (p + 32)) (rd 4 b (p + 40)) (rd 4 b (p + 44))
  | I386 =>
      mkShdr (rd 4 b (p + 4)) (rd 4 b (p + 8)) (rd 4 b (p + 16))
             (rd 4 b (p + 20)) (rd 4 b (p + 24)) (rd 4 b (p + 28))
  end.

Definition read_sym (a : arch) (b : buffer) (p : Z) : Elf_Sym :=
  match a with
  | X86_64 =>
      mkSym (rd 4 b p) (rd 1 b (p + 4)) (rd 2 b (p + 6)) (rd 8 b (p + 8))
  | I386 =>
      mkSym (rd 4 b p) (rd 1 b (p + 12)) (rd 2 b (p + 14)) (rd 4 b (p + 4))
  end.

(** Two's-complement reading of an [n]-byte field. *)
Definition signed (n : nat) (u : Z) : Z :=
  if u <? 2 ^ (8 * Z.of_nat n - 1) then u else u - 2 ^ (8 * Z.of_nat n).

Definition read_rela (a : arch) (b : buffer) (p : Z) : Elf_Rela :=
  match a with
  | X86_64 => mkRela (rd 8 b p) (rd 8 b (p + 8)) (signed 8 (rd 8 b (p + 16)))
  | I386 => mkRela (rd 4 b p) (rd 4 b (p + 4)) (signed 4 (rd 4 b (p + 8)))
  end.

Definition ELF_ST_TYPE (v : Z) : Z := Z.land v 15.

Definition ELF_R_SYM (a : arch) (i : Z) : Z :=
  match a with X86_64 => Z.shiftr i 32 | I386 => Z.shiftr i 8 end.

Definition ELF_R_TYPE (a : arch) (i : Z) : Z :=
  match a with X86_64 => Z.land i 4294967295 | I386 => Z.land i 255 end.

(** ** Process state *)

(** One entry of [obj->symbols]. *)
Record symbol : Type := mkSymbol {
  name_block : nat;        (* the block [strdup] returned *)
  name : string;
  addr : Z
}.

Record obj_handle : Type := mkHandle {
  h_block : nat;           (* the block holding the [obj_handle] itself *)
  symbols_block : option nat;   (* the block of the [symbols] array *)
  symbols : list symbol;
  num_symbols : Z;
  h_code : Z;
  h_code_size : Z;
  h_code_used : Z
}.

Record state : Type := mkState {
  code : Z;                (* [static char* code] *)
  code_used : Z;           (* [static size_t code_used] *)
  obj_error : string;      (* the bytes [sprintf] stored from [obj_error] on *)
  mem : memory;
  mapped : list (Z * Z);   (* live [mmap] regions, (address, length) *)
  live : list nat;         (* live [malloc] blocks *)
  next_block : nat
}.

(** [sizeof obj_error]. *)
Definition obj_error_size : Z := 256.

(** Bytes [sprintf] stores for a message: its characters and the NUL. *)
Definition sprintf_bytes (msg : string) : Z := Z.of_nat (String.length msg) + 1.

Definition set_error (st : state) (msg : string) : state :=
  mkState (code st) (code_used st) msg (mem st) (mapped st) (live st) (next_block st).

Definition set_mem (st : state) (m : memory) : state :=
  mkState (code st) (code_used st) (obj_error st) m (mapped st) (live st) (next_block st).

Definition set_code_used (st : state) (u : Z) : state :=
  mkState (code st) u (obj_error st) (mem st) (mapped st) (live st) (next_block st).

Definition malloc (st : state) : nat * state :=
  (next_block st,
   mkState (code st) (code_used st) (obj_error st) (mem st) (mapped st)
           (next_block st :: live st) (S (next_block st))).

Definition free (st : state) (blk : nat) : state :=
  mkState (code st) (code_used st) (obj_error st) (mem st) (mapped st)
          (List.remove Nat.eq_dec blk (live st)) (next_block st).

Definition munmap (st : state) (p len : Z) : state :=
  mkState (code st) (code_used st) (obj_error st) (mem st)
          (List.filter (fun r => negb ((fst r =? p) && (snd r =? len))) (mapped st))
          (live st) (next_block st).

(** ** Control flow *)

(** The result of a computation that may leave through [return (size_t)-1]. *)
Inductive outcome (A : Type) : Type :=
| Done (x : A)
| Fail.
Arguments Done {A} x.
Arguments Fail {A}.

(** [for (int i = i0; i < i0 + n; i++) s = body i s], on the locals [s]. *)
Fixpoint for_loop {L : Type} (n : nat) (i : Z) (body : Z -> L -> L) (s : L) : L :=
  match n with
  | O => s
  | S k => for_loop k (i + 1) body (body i s)
  end.

(** The same loop with a body that may leave the function; the process
    state is kept on both exits. *)
Fixpoint for_try {L : Type} (n : nat) (i : Z)
    (body : Z -> L -> state -> outcome L * state) (s : L) (st : state)
  : outcome L * state :=
  match n with
  | O => (Done s, st)
  | S k =>
      match body i s st with
      | (Done s1, st1) => for_try k (i + 1) body s1 st1
      | (Fail, st1) => (Fail, st1)
      end
  end.

(** What the host answers when [read_file] opens, measures and reads the
    file; the strings are [strerror(errno)]. *)
Inductive file_result : Type :=
| FopenFails (e : string)
| FseekFails (e : string)
| FtellFails (e : string)
| FreadFails (e : string)
| FileRead (base : Z) (bytes : list Z).   (* [malloc]'s address, the contents *)

(** [addrs[i]]; outside the array (undefined in C) the embedding reads
    [NULL]. *)
Definition addrs_at (addrs : list Z) (i : Z) : Z := nth (Z.to_nat i) addrs 0.

(** The arena size [init] asks for. *)
Definition arena_capacity : Z := 1024 * 1024 * 1024.

Section Loader.

Variable a : arch.

(** The host resolver [dlsym(RTLD_DEFAULT, name)]; 0 is [NULL]. *)
Variable dlsym : string -> Z.
(** [mmap(NULL, len, ...)] of anonymous memory: an address or [MAP_FAILED]. *)
Variable host_mmap : Z -> Z.
Variable host_file : string -> file_result.
(** Whether [malloc(sizeof(obj_handle))] returns [NULL]. *)
Variable handle_malloc_fails : bool.

Definition align_down (v align : Z) : Z :=
  Z.land v (to_size a (Z.lnot (align - 1))).

Definition align_up (v align : Z) : Z :=
  align_down (to_size a (v + align - 1)) align.

Definition alloc_code (st : state) (size : Z) : Z * state :=
  let r := code st + code_used st in
  (r, set_code_used st (to_size a (code_used st + size))).

Definition align_code (st : state) (align : Z) : state :=
  set_code_used st (align_up (code_used st) align).

Definition init (st : state) : state :=
  let c := host_mmap arena_capacity in
  if c =? MAP_FAILED a
  then mkState c (code_used st) "mmap failed" (mem st) (mapped st)
               (live st) (next_block st)
  else mkState c (code_used st) (obj_error st)
               (fun x => if (c <=? x) && (x <? c + arena_capacity)
                         then 0 else mem st x)
               ((c, arena_capacity) :: mapped st) (live st) (next_block st).

(** [read_file]: the buffer and its block, or [NULL] with the error set.
    The buffer is only allocated once the size is known. *)
Definition read_file (filename : string) (st : state)
  : option (buffer * nat) * state :=
  match host_file filename with
  | FopenFails e =>
      (None, set_error st ("failed to open " ++ filename ++ ": " ++ e))
  | FseekFails e => (None, set_error st ("fseek failed: " ++ e))
  | FtellFails e => (None, set_error st ("ftell failed: " ++ e))
  | FreadFails e =>
      let '(blk, st1) := malloc st in
      (None, free (set_error st1 ("fread failed: " ++ e)) blk)
  | FileRead base bytes =>
      let '(blk, st1) := malloc st in
      (Some (mkBuffer base bytes, blk), st1)
  end.

(** *** The relocation engine *)

(** The first [switch] of [relocate]: the symbol address [S]. *)
Definition sym_dispatch (bin : buffer) (strtab : Z) (addrs : list Z)
    (sym : Elf_Sym) (st : state) : outcome Z * state :=
  let ty := ELF_ST_TYPE (st_info sym) in
  if ty =? STT_SECTION then (Done (addrs_at addrs (st_shndx sym)), st)
  else if (ty =? STT_FUNC) || (ty =? STT_OBJECT) then (Done (st_value sym), st)
  else if ty =? STT_NOTYPE then
    if st_shndx sym =? SHN_UNDEF then
      let sym_addr := dlsym (cstr bin (strtab + st_name sym)) in
      if sym_addr =? 0
      then (Fail, set_error st
                    ("failed to resolve " ++ cstr bin (strtab + st_name sym)))
      else (Done sym_addr, st)
    else (Done (addrs_at addrs (st_shndx sym)), st)
  else (Fail, set_error st ("unsupported relocation sym " ++ dec ty)).

(** The second [switch] of [relocate], on the relocation type. *)
Definition reloc_apply (code_size_only : bool) (rtype target sym_addr addend : Z)
    (code_size : Z) (st : state) : outcome Z * state :=
  match a with
  | X86_64 =>
      if rtype =? R_X86_64_64 then
        (Done code_size,
         if code_size_only then st
         else set_mem st (add_at 8 (mem st) target (sym_addr + addend)))
      else if rtype =? R_X86_64_PC32 then
        (Done code_size,
         if code_size_only then st
         else set_mem st (add_at 4 (mem st) target ((sym_addr - target) + addend)))
      else if rtype =? R_X86_64_PLT32 then
        if code_size_only then (Done (to_size a (code_size + (6 + 8))), st)
        else
          let dest := sym_addr in
          let '(sym_addr, st1) := alloc_code st (6 + 8) in
          let m := store8 (mem st1) sym_addr 255 in
          let m := store8 m (sym_addr + 1) 37 in
          let m := store 4 m (sym_addr + 2) 0 in
          let m := store 8 m (sym_addr + 6) dest in
          (Done code_size,
           set_mem st1 (add_at 4 m target ((sym_addr - target) + addend)))
      else if rtype =? R_X86_64_REX_GOTPCRELX then
        if code_size_only then (Done (to_size a (code_size + 8)), st)
        else
          let dest := sym_addr in
          let '(sym_addr, st1) := alloc_code st 8 in
          let m := store 8 (mem st1) sym_addr dest in
          (Done code_size,
           set_mem st1 (add_at 4 m target ((sym_addr - target) + addend)))
      else (Fail, set_error st ("Unknown reloc: " ++ dec rtype))
  | I386 =>
      if rtype =? R_386_32 then
        (Done code_size,
         if code_size_only then st
         else set_mem st (add_at 4 (mem st) target (wrap 32 sym_addr + addend)))
      else if rtype =? R_386_PC32 then
        (Done code_size,
         if code_size_only then st
         else set_mem st (add_at 4 (mem st) target ((sym_addr - target) + addend)))
      else (Fail, set_error st ("Unknown reloc: " ++ dec rtype))
  end.

Definition is_rela (shdr : Elf_Shdr) : bool := sh_type shdr =? SHT_RELA.

Definition relsize_of (shdr : Elf_Shdr) : Z :=
  if is_rela shdr then sizeof_Rela a else sizeof_Rel a.

(** The record [rel] of iteration [j] over section [shdr]. *)
Definition rel_at (bin : buffer) (shdr : Elf_Shdr) (j : Z) : Elf_Rela :=
  read_rela a bin (buf_base bin + sh_offset shdr + relsize_of shdr * j).

(** The symbol [&symtab[ELF_R_SYM(rel->r_info)]]. *)
Definition sym_of (bin : buffer) (symtab : Z) (rel : Elf_Rela) : Elf_Sym :=
  read_sym a bin (symtab + sizeof_Sym a * ELF_R_SYM a (r_info rel)).

(** The body of the inner loop of [relocate]. *)
Definition relocate_one (bin : buffer) (symtab strtab : Z) (addrs : list Z)
    (code_size_only : bool) (shdr : Elf_Shdr)
    (j : Z) (code_size : Z) (st : state) : outcome Z * state :=
  let target_base := addrs_at addrs (sh_info shdr) in
  let rel := rel_at bin shdr j in
  let target := target_base + r_offset rel in
  let sym := sym_of bin symtab rel in
  let addend := if is_rela shdr then to_int (r_addend rel) else 0 in
  let rtype := ELF_R_TYPE a (r_info rel) in
  if code_size_only then reloc_apply true rtype target 0 addend code_size st
  else
    match sym_dispatch bin strtab addrs sym st with
    | (Done sym_addr, st1) =>
        reloc_apply false rtype target sym_addr addend code_size st1
    | (Fail, st1) => (Fail, st1)
    end.

Definition shdr_at (bin : buffer) (i : Z) : Elf_Shdr :=
  read_shdr a bin (buf_base bin + e_shoff a bin (buf_base bin) + sizeof_Shdr a * i).

(** Whether the outer loop of [relocate] walks section [i]: a relocation
    section whose target section is allocatable. *)
Definition walked (bin : buffer) (i : Z) : bool :=
  let shdr := shdr_at bin i in
  negb (negb (sh_type shdr =? SHT_REL) && negb (sh_type shdr =? SHT_RELA)
        || (Z.land (sh_flags (shdr_at bin (sh_info shdr))) SHF_ALLOC =? 0)).

Definition relnum_of (shdr : Elf_Shdr) : Z :=
  to_int (sh_size shdr / relsize_of shdr).

(** The body of the outer loop of [relocate]. *)
Definition relocate_section (bin : buffer) (symtab strtab : Z) (addrs : list Z)
    (code_size_only : bool) (i : Z) (code_size : Z) (st : state)
  : outcome Z * state :=
  let shdr := shdr_at bin i in
  if walked bin i
  then for_try (Z.to_nat (relnum_of shdr)) 0
         (relocate_one bin symtab strtab addrs code_size_only shdr) code_size st
  else (Done code_size, st).

Definition relocate_loop (bin : buffer) (symtab strtab : Z) (addrs : list Z)
    (code_size_only : bool) (n : nat) (st : state) : outcome Z * state :=
  for_try n 0 (relocate_section bin symtab strtab addrs code_size_only) 0 st.

Definition relocate (bin : buffer) (symtab strtab : Z) (addrs : list Z)
    (code_size_only : bool) (st : state) : Z * state :=
  match relocate_loop bin symtab strtab addrs code_size_only
          (Z.to_nat (e_shnum a bin (buf_base bin))) st with
  | (Done code_size, st1) => (code_size, st1)
  | (Fail, st1) => (SIZE_MAX a, st1)
  end.

(** *** The loader *)

(** The locals [symtab], [symnum], [strtab_index], [strtab]. *)
Record tables : Type := mkTables {
  symtab : Z; symnum : Z; strtab_index : Z; strtab : Z
}.

(** Body of the first loop of [load_object]. *)
Definition find_tables_step (bin : buffer) (i : Z) (t : tables) : tables :=
  let shdr := shdr_at bin i in
  let t1 :=
    if sh_type shdr =? SHT_SYMTAB
    then mkTables (buf_base bin + sh_offset shdr)
                  (to_int (sh_size shdr / sizeof_Sym a))
                  (to_int (sh_link shdr)) (strtab t)
    else t in
  if (sh_type shdr =? SHT_STRTAB) && (i =? strtab_index t1)
  then mkTables (symtab t1) (symnum t1) (strtab_index t1)
                (buf_base bin + sh_offset shdr)
  else t1.

Definition shnum_of (bin : buffer) : nat := Z.to_nat (e_shnum a bin (buf_base bin)).

Definition find_tables (bin : buffer) : tables :=
  for_loop (shnum_of bin) 0 (find_tables_step bin) (mkTables 0 0 (-1) 0).

(** Body of the placement loop (Pass 2). *)
Definition place_section (bin : buffer) (i : Z) (s : list Z * state)
  : list Z * state :=
  let '(addrs, st) := s in
  let shdr := shdr_at bin i in
  if Z.land (sh_flags shdr) SHF_ALLOC =? 0 then (addrs, st)
  else
    let '(p, st1) := alloc_code st (sh_size shdr) in
    let st2 := align_code st1 16 in
    (upd_nth addrs (Z.to_nat i) p,
     if sh_type shdr =? SHT_NOBITS then st2
     else set_mem st2 (memcpy (mem st2) p bin
                              (buf_base bin + sh_offset shdr) (sh_size shdr))).

Definition place_sections (bin : buffer) (st : state) : list Z * state :=
  for_loop (shnum_of bin) 0 (place_section bin)
           (repeat 0 (shnum_of bin), st).

Definition is_func_or_object (sym : Elf_Sym) : bool :=
  (ELF_ST_TYPE (st_info sym) =? STT_OBJECT) || (ELF_ST_TYPE (st_info sym) =? STT_FUNC).

Definition sym_at (bin : buffer) (symtab i : Z) : Elf_Sym :=
  read_sym a bin (symtab + sizeof_Sym a * i).

(** Body of the counting loop. *)
Definition count_symbol (bin : buffer) (symtab : Z) (i : Z) (n : Z) : Z :=
  if is_func_or_object (sym_at bin symtab i) then to_int (n + 1) else n.

(** Body of the emission loop (Pass 3): the buffer is rewritten in place,
    the name is duplicated, the record is appended. *)
Definition emit_symbol (t : tables) (addrs : list Z) (i : Z)
    (s : buffer * list symbol * state) : buffer * list symbol * state :=
  let '(bin, syms, st) := s in
  let sym := sym_at bin (symtab t) i in
  if is_func_or_object sym then
    let name_ptr := strtab t + st_name sym in
    let addr := addrs_at addrs (st_shndx sym) + st_value sym in
    let bin1 := wr (ptr_bytes a) bin
                   (symtab t + sizeof_Sym a * i + st_value_off a) addr in
    let '(blk, st1) := malloc st in
    (bin1, syms ++ [mkSymbol blk (cstr bin1 name_ptr) addr], st1)
  else s.

(** What [load_object] has established when it calls [relocate]. *)
Record layout : Type := mkLayout {
  l_bin : buffer;          (* the buffer, symbol values rewritten *)
  l_tables : tables;
  l_addrs : list Z;        (* the placement map *)
  l_obj : obj_handle
}.

(** Passes 1 to 3 of [load_object]. *)
Definition load_layout (obj : obj_handle) (bin : buffer) (st : state)
  : layout * state :=
  let t := find_tables bin in
  let '(addrs, st1) := place_sections bin st in
  let n := for_loop (Z.to_nat (symnum t)) 0 (count_symbol bin (symtab t))
                    (num_symbols obj) in
  let '(arr, st2) := malloc st1 in
  let '(bin1, syms, st3) :=
    for_loop (Z.to_nat (symnum t)) 0 (emit_symbol t addrs) (bin, [], st2) in
  (mkLayout bin1 t addrs
     (mkHandle (h_block obj) (Some arr) syms n
               (h_code obj) (h_code_size obj) (h_code_used obj)),
   st3).

Definition load_object (obj : obj_handle) (bin : buffer) (filename : string)
    (st : state) : Z * obj_handle * state :=
  let '(l, st1) := load_layout obj bin st in
  let '(r, st2) := relocate (l_bin l) (symtab (l_tables l)) (strtab (l_tables l))
                            (l_addrs l) false st1 in
  if r =? SIZE_MAX a then (0, l_obj l, st2) else (1, l_obj l, st2).

(** *** The handle API *)

Definition objclose (obj : obj_handle) (st : state) : Z * state :=
  let st1 := if h_code obj =? 0 then st
             else munmap st (h_code obj) (h_code_size obj) in
  let st2 := fold_left (fun s sy => free s (name_block sy))
                       (firstn (Z.to_nat (num_symbols obj)) (symbols obj)) st1 in
  (0, free st2 (h_block obj)).

(** The first [n] bytes of [ehdr->e_ident]. *)
Definition e_ident (bin : buffer) (n : nat) : list Z :=
  map (fun k => rd8 bin (buf_base bin + Z.of_nat k)) (seq 0 n).

(** [memcmp(ehdr->e_ident, ELFMAG, 4) == 0]. *)
Definition magic_ok (bin : buffer) : bool :=
  if list_eq_dec Z.eq_dec (e_ident bin 4) ELFMAG then true else false.

(** [objopen] up to the call of [load_object]: the buffer, its block and
    the zeroed handle, or the state in which [NULL] is returned. *)
Definition objopen_acquire (filename : string) (st : state)
  : (buffer * nat * obj_handle * state) + state :=
  let st1 := if code st =? 0 then init st else st in
  if code st1 =? MAP_FAILED a then inr st1
  else
    match read_file filename st1 with
    | (None, st2) => inr st2
    | (Some (bin, bin_blk), st2) =>
        if handle_malloc_fails
        then inr (free (set_error st2 "malloc failed") bin_blk)
        else
          let '(blk, st3) := malloc st2 in
          let obj := mkHandle blk None [] 0 0 0 0 in
          if negb (magic_ok bin)
          then inr (free (free (set_error st3 (filename ++ " is not ELF")) bin_blk) blk)
          else inl (bin, bin_blk, obj, st3)
    end.

Definition objopen (filename : string) (flags : Z) (st : state)
  : option obj_handle * state :=
  match objopen_acquire filename st with
  | inr st1 => (None, st1)
  | inl (bin, bin_blk, obj, st1) =>
      let '(ok, obj1, st2) := load_object obj bin filename st1 in
      if ok =? 0
      then (None, snd (objclose obj1 (free st2 bin_blk)))
      else (Some obj1, free st2 bin_blk)
  end.

(** The scan of [objsym]; [strcmp] on two C strings is equality. *)
Fixpoint scan (l : list symbol) (sym : string) : Z :=
  match l with
  | [] => 0
  | s :: t => if String.eqb (name s) sym then addr s else scan t sym
  end.

Definition objsym (obj : obj_handle) (sym : string) : Z :=
  scan (firstn (Z.to_nat (num_symbols obj)) (symbols obj)) sym.

Definition objerror (st : state) : string := obj_error st.

End Loader.

(** ** Vocabulary of the specification *)

(** The relocation types the specification enumerates for each
    architecture. *)
Definition known_reloc (a : arch) (t : Z) : bool :=
  match a with
  | X86_64 =>
      (t =? R_X86_64_64) || (t =? R_X86_64_PC32) || (t =? R_X86_64_PLT32)
      || (t =? R_X86_64_REX_GOTPCRELX)
  | I386 => (t =? R_386_32) || (t =? R_386_PC32)
  end.

(** [relocate], applying, on the layout [l] from state [st], run over the
    sections before [i] and the records before [j] of section [i]: the
    size and the state in which record [j] of section [i] is processed,
    unless a record before it failed. *)
Definition before_record (a : arch) (dlsym : string -> Z) (l : layout) (st : state)
    (i j : Z) : outcome Z * state :=
  match relocate_loop a dlsym (l_bin l) (symtab (l_tables l)) (strtab (l_tables l))
                      (l_addrs l) false (Z.to_nat i) st with
  | (Done cs1, st1) =>
      for_try (Z.to_nat j) 0
        (relocate_one a dlsym (l_bin l) (symtab (l_tables l))
                      (strtab (l_tables l)) (l_addrs l) false
                      (shdr_at a (l_bin l) i)) cs1 st1
  | (Fail, st1) => (Fail, st1)
  end.

(** [relocate] reaches record [j] of section [i]: the section is walked,
    the record exists, and nothing before it failed. *)
Definition reaches (a : arch) (dlsym : string -> Z) (l : layout) (st : state)
    (i j : Z) : Prop :=
  0 <= i < Z.of_nat (shnum_of a (l_bin l))
  /\ walked a (l_bin l) i = true
  /\ 0 <= j < relnum_of a (shdr_at a (l_bin l) i)
  /\ exists cs : Z, fst (before_record a dlsym l st i j) = Done cs.

(** Two states with the same heap, mappings and arena base: what differs
    is at most the arena contents, the bump pointer and the error slot. *)
Definition same_heap (st st' : state) : Prop :=
  live st' = live st /\ next_block st' = next_block st
  /\ mapped st' = mapped st /\ code st' = code st.

(** The loop indices [0 .. n-1]. *)
Definition indices (n : nat) : list Z := map Z.of_nat (seq 0 n).

(** The types of the relocation records that [relocate] walks, in the
    order it walks them. *)
Definition section_types (a : arch) (bin : buffer) (i : Z) : list Z :=
  map (fun j => ELF_R_TYPE a (r_info (rel_at a bin (shdr_at a bin i) j)))
      (indices (Z.to_nat (relnum_of a (shdr_at a bin i)))).

Definition walked_types (a : arch) (bin : buffer) : list Z :=
  flat_map (fun i => if walked a bin i then section_types a bin i else [])
           (indices (shnum_of a bin)).

(** Arena bytes a record of type [t] asks for: a trampoline, a slot, or
    nothing. *)
Definition sizing_cost (t : Z) : Z :=
  if t =? R_X86_64_PLT32 then 14
  else if t =? R_X86_64_REX_GOTPCRELX then 8 else 0.

Definition sum (l : list Z) : Z := fold_right Z.add 0 l.

(** The first walked record, if any, whose type is not enumerated. *)
Definition first_unknown (a : arch) (types : list Z) : option Z :=
  find (fun t => negb (known_reloc a t)) types.

(** The bound the arena must offer for the allocatable sections of [bin]:
    each section and the padding that follows it. *)
Definition arena_demand (a : arch) (bin : buffer) : Z :=
  sum (map (fun i => if Z.land (sh_flags (shdr_at a bin i)) SHF_ALLOC =? 0
                     then 0 else sh_size (shdr_at a bin i) + 15)
           (indices (shnum_of a bin))).

(** A function or data symbol that lies inside an allocatable section. *)
Definition symbol_placed (a : arch) (bin : buffer) (sym : Elf_Sym) : Prop :=
  st_shndx sym < Z.of_nat (shnum_of a bin)
  /\ Z.land (sh_flags (shdr_at a bin (st_shndx sym))) SHF_ALLOC <> 0
  /\ st_value sym < sh_size (shdr_at a bin (st_shndx sym)).

(** ** Sample objects

    Small 64-bit relocatable objects, laid out byte by byte: the header,
    five section headers (null, one allocatable section, its [.rela]
    section, [.symtab], [.strtab]) and the section contents. *)

Module Sample.

Fixpoint bytes_of_string (s : string) : list Z :=
  match s with
  | EmptyString => []
  | String c t => Z.of_N (N_of_ascii c) :: bytes_of_string t
  end.

Definition len (l : list Z) : Z := Z.of_nat (List.length l).

Definition ehdr64 (cls shoff shnum : Z) : list Z :=
  ELFMAG ++ [cls; 1; 1; 0] ++ repeat 0 8%nat
  ++ le 2 1 ++ le 2 62 ++ le 4 1 ++ le 8 0 ++ le 8 0 ++ le 8 shoff
  ++ le 4 0 ++ le 2 64 ++ le 2 0 ++ le 2 0 ++ le 2 64 ++ le 2 shnum ++ le 2 0.

Definition shdr64 (ty flags off size link info : Z) : list Z :=
  le 4 0 ++ le 4 ty ++ le 8 flags ++ le 8 0 ++ le 8 off ++ le 8 size
  ++ le 4 link ++ le 4 info ++ le 8 1 ++ le 8 0.

Definition sym64 (nm info shndx value : Z) : list Z :=
  le 4 nm ++ [info; 0] ++ le 2 shndx ++ le 8 value ++ le 8 0.

Definition rela64 (off sym ty addend : Z) : list Z :=
  le 8 off ++ le 8 (sym * 2 ^ 32 + ty) ++ le 8 addend.

(** An object with one allocatable section of type [ty], flags [flags]
    and size [size] whose file contents are [body]. *)
Definition object64 (cls ty flags size : Z) (body relas syms strs : list Z) : list Z :=
  let o_body := 64 + 5 * 64 in
  let o_rela := o_body + len body in
  let o_sym := o_rela + len relas in
  let o_str := o_sym + len syms in
  ehdr64 cls 64 5
  ++ shdr64 0 0 0 0 0 0
  ++ shdr64 ty flags o_body size 0 0
  ++ shdr64 SHT_RELA 64 o_rela (len relas) 3 1
  ++ shdr64 SHT_SYMTAB 0 o_sym (len syms) 4 1
  ++ shdr64 SHT_STRTAB 0 o_str (len strs) 0 0
  ++ body ++ relas ++ syms ++ strs.

(** [int hello(void)] calling the undefined symbol [ext] through a
    relocation of type [rtype] at offset 5 of a 16-byte [.text]. *)
Definition caller (cls : Z) (ext : string) (rtype : Z) : list Z :=
  object64 cls 1 6 16
    ([85; 72; 137; 229; 232; 0; 0; 0; 0; 93; 195; 144; 144; 144; 144; 144])
    (rela64 5 2 rtype (-4))
    (sym64 0 0 0 0 ++ sym64 1 18 1 0 ++ sym64 7 16 0 0)
    ([0] ++ bytes_of_string "hello" ++ [0] ++ bytes_of_string ext ++ [0]).

(** [int hello(void) { return (int)strlen("hi"); }], as compiled. *)
Definition hello_o : list Z := caller ELFCLASS64 "strlen" R_X86_64_PLT32.

(** An object that references an undefined [totally_unknown_sym]. *)
Definition missing_o : list Z :=
  caller ELFCLASS64 "totally_unknown_sym" R_X86_64_PLT32.

(** [hello_o] with the class byte of a 32-bit object. *)
Definition class32_o : list Z := caller ELFCLASS32 "strlen" R_X86_64_PLT32.

(** A relocation of the unknown type 99 against [strlen], and the same
    against a symbol that does not resolve. *)
Definition unknown_o : list Z := caller ELFCLASS64 "strlen" 99.
Definition badreloc_o : list Z := caller ELFCLASS64 "totally_unknown_sym" 99.

(** An undefined symbol with a name of 300 characters. *)
Definition long_name : string := string_of_bytes (repeat 97 300).
Definition long_o : list Z := caller ELFCLASS64 long_name R_X86_64_PLT32.

(** [char big[1 << 30]; int after;]: a [.bss] of 1 GiB + 4 bytes and the
    data symbol [after] at offset 1 GiB in it. *)
Definition bigbss_o : list Z :=
  object64 ELFCLASS64 SHT_NOBITS 3 (arena_capacity + 4) [] []
    (sym64 0 0 0 0 ++ sym64 1 17 1 arena_capacity)
    ([0] ++ bytes_of_string "after" ++ [0]).

(** An object with a data symbol [stray] in section 3 ([.symtab], which is
    not allocatable) and a data symbol [far] at offset 1 GiB of its 16-byte
    [.data]. *)
Definition stray_o : list Z :=
  object64 ELFCLASS64 1 3 16 (repeat 0 16%nat) []
    (sym64 0 0 0 0 ++ sym64 1 17 3 8 ++ sym64 7 17 1 arena_capacity)
    ([0] ++ bytes_of_string "stray" ++ [0] ++ bytes_of_string "far" ++ [0]).

(** A file that is not an object. *)
Definition notes_txt : list Z := bytes_of_string "hello, world".

(** A host: the arena is mapped at [arena], file buffers are at [0x5000],
    and only [strlen] resolves. *)
Definition arena : Z := 268435456.
Definition strlen_addr : Z := 140737351925760.

Definition host_mmap (len : Z) : Z := arena.

Definition resolver (s : string) : Z :=
  if String.eqb s "strlen" then strlen_addr else 0.

Definition files (s : string) : file_result :=
  if String.eqb s "hello.o" then FileRead 20480 hello_o
  else if String.eqb s "missing.o" then FileRead 20480 missing_o
  else if String.eqb s "class32.o" then FileRead 20480 class32_o
  else if String.eqb s "unknown.o" then FileRead 20480 unknown_o
  else if String.eqb s "badreloc.o" then FileRead 20480 badreloc_o
  else if String.eqb s "long.o" then FileRead 20480 long_o
  else if String.eqb s "bigbss.o" then FileRead 20480 bigbss_o
  else if String.eqb s "stray.o" then FileRead 20480 stray_o
  else if String.eqb s "notes.txt" then FileRead 20480 notes_txt
  else FopenFails "No such file or directory".

(** The state of a process that has not called the loader yet. *)
Definition boot : state :=
  mkState 0 0 EmptyString (fun _ => 0) [] [] 0.

Definition open (filename : string) (st : state) : option obj_handle * state :=
  objopen X86_64 resolver host_mmap files false filename 0 st.

Definition acquire (filename : string) (st : state)
  : (buffer * nat * obj_handle * state) + state :=
  objopen_acquire X86_64 host_mmap files false filename st.

(** What [objopen] holds when it calls [load_object] on a readable object,
    and what [load_object] holds when it calls [relocate]. *)
Definition acquires (filename : string) (st : state) : bool :=
  match acquire filename st with inl _ => true | inr _ => false end.

Definition acquired (filename : string) (st : state)
  : buffer * nat * obj_handle * state :=
  match acquire filename st with
  | inl x => x
  | inr st1 => (mkBuffer 0 [], 0%nat, mkHandle 0 None [] 0 0 0 0, st1)
  end.

Definition bin_of (filename : string) (st : state) : buffer :=
  fst (fst (fst (acquired filename st))).
Definition blk_of (filename : string) (st : state) : nat :=
  snd (fst (fst (acquired filename st))).
Definition obj_of (filename : string) (st : state) : obj_handle :=
  snd (fst (acquired filename st)).
Definition st_of (filename : string) (st : state) : state :=
  snd (acquired filename st).

Definition laid_out (filename : string) (st : state) : layout * state :=
  load_layout X86_64 (obj_of filename st) (bin_of filename st) (st_of filename st).

Definition opens (filename : string) (st : state) : bool :=
  match fst (open filename st) with Some _ => true | None => false end.

(** The handle [open] returns. *)
Definition handle_of (filename : string) (st : state) : obj_handle :=
  match fst (open filename st) with
  | Some h => h
  | None => mkHandle 0 None [] 0 0 0 0
  end.

(** [hello_o] in memory, and what [load_object] has computed for it when
    it reaches [relocate]: the tables, the placement map, the state. *)
Definition hello_bin : buffer := mkBuffer 20480 hello_o.
Definition hello_symtab : Z := 20480 + 424.
Definition hello_strtab : Z := 20480 + 496.
Definition hello_addrs : list Z := [0; arena; 0; 0; 0].
Definition hello_placed : state :=
  mkState arena 16 EmptyString (fun _ => 0) [(arena, arena_capacity)] [] 0.

End Sample.

Strategy expand [Sample.open Sample.acquire].

(** Every live block was handed out by [malloc]: it is older than the
    next one. *)
Definition fresh_heap (st : state) : Prop :=
  forall b : nat, In b (live st) -> (b < next_block st)%nat.

(** What section [k] holds in the memory [m] when it is placed at [p]:
    the bytes of the file, or for [SHT_NOBITS] what [m0] held there. *)
Definition section_holds (a : arch) (bin : buffer) (m0 m : memory) (k p : Z) : Prop :=
  (sh_type (shdr_at a bin k) <> SHT_NOBITS ->
   forall x, p <= x < p + sh_size (shdr_at a bin k) ->
     m x = rd8 bin (buf_base bin + sh_offset (shdr_at a bin k) + (x - p)))
  /\ (sh_type (shdr_at a bin k) = SHT_NOBITS ->
      forall x, p <= x < p + sh_size (shdr_at a bin k) -> m x = m0 x).

(** ** More sample objects and hosts

    Objects that exercise the relocation types and symbol kinds the
    objects above do not, files the host cannot deliver, and a host that
    cannot map the arena. *)

Module Fixture.

(** [hello_o] with its relocation turned into each of the other types. *)
Definition abs64_o : list Z := Sample.caller ELFCLASS64 "strlen" R_X86_64_64.
Definition pc32_o : list Z := Sample.caller ELFCLASS64 "strlen" R_X86_64_PC32.
Definition got_o : list Z := Sample.caller ELFCLASS64 "strlen" R_X86_64_REX_GOTPCRELX.

Definition abs64_bin : buffer := mkBuffer 20480 abs64_o.
Definition pc32_bin : buffer := mkBuffer 20480 pc32_o.
Definition got_bin : buffer := mkBuffer 20480 got_o.

(** A relocation against a thread-local symbol ([STT_TLS], 6). *)
Definition tls_o : list Z :=
  Sample.object64 ELFCLASS64 1 6 16
    ([85; 72; 137; 229; 232; 0; 0; 0; 0; 93; 195; 144; 144; 144; 144; 144])
    (Sample.rela64 5 2 R_X86_64_PC32 (-4))
    (Sample.sym64 0 0 0 0 ++ Sample.sym64 1 18 1 0 ++ Sample.sym64 7 22 0 0)
    ([0] ++ Sample.bytes_of_string "hello" ++ [0] ++ Sample.bytes_of_string "tvar" ++ [0]).

(** A section that is not allocatable (debug information, say) and the
    relocation section that targets it: a record of the unknown type 99
    against a symbol that does not resolve. *)
Definition debug_o : list Z :=
  Sample.object64 ELFCLASS64 1 0 16 (repeat 0 16%nat)
    (Sample.rela64 5 2 99 (-4))
    (Sample.sym64 0 0 0 0 ++ Sample.sym64 1 18 1 0 ++ Sample.sym64 7 16 0 0)
    ([0] ++ Sample.bytes_of_string "hello" ++ [0]
     ++ Sample.bytes_of_string "totally_unknown_sym" ++ [0]).

(** Two calls, to the undefined [foo] and to the undefined [bar]; the host
    resolves neither. *)
Definition two_o : list Z :=
  Sample.object64 ELFCLASS64 1 6 16
    ([85; 72; 137; 229; 232; 0; 0; 0; 0; 232; 0; 0; 0; 0; 93; 195])
    (Sample.rela64 5 2 R_X86_64_PLT32 (-4) ++ Sample.rela64 10 3 R_X86_64_PLT32 (-4))
    (Sample.sym64 0 0 0 0 ++ Sample.sym64 1 18 1 0 ++ Sample.sym64 7 16 0 0
     ++ Sample.sym64 11 16 0 0)
    ([0] ++ Sample.bytes_of_string "hello" ++ [0] ++ Sample.bytes_of_string "foo"
     ++ [0] ++ Sample.bytes_of_string "bar" ++ [0]).

(** A stripped object: a [.text] and a string table, no symbol table. *)
Definition stripped_o : list Z :=
  Sample.ehdr64 ELFCLASS64 64 3
  ++ Sample.shdr64 0 0 0 0 0 0
  ++ Sample.shdr64 1 6 256 16 0 0
  ++ Sample.shdr64 SHT_STRTAB 0 272 1 0 0
  ++ [195; 144; 144; 144; 144; 144; 144; 144; 144; 144; 144; 144; 144; 144; 144; 144]
  ++ [0].

(** [hello] in an object whose string table (section 3) comes before its
    symbol table (section 4). *)
Definition swapped_o : list Z :=
  Sample.ehdr64 ELFCLASS64 64 5
  ++ Sample.shdr64 0 0 0 0 0 0
  ++ Sample.shdr64 1 6 384 16 0 0
  ++ Sample.shdr64 SHT_RELA 64 400 0 4 1
  ++ Sample.shdr64 SHT_STRTAB 0 400 7 0 0
  ++ Sample.shdr64 SHT_SYMTAB 0 407 48 3 1
  ++ [195; 144; 144; 144; 144; 144; 144; 144; 144; 144; 144; 144; 144; 144; 144; 144]
  ++ ([0] ++ Sample.bytes_of_string "hello" ++ [0])
  ++ (Sample.sym64 0 0 0 0 ++ Sample.sym64 1 18 1 0).

(** Two functions [f] and [g] at offsets 0 and 8 of a 16-byte [.text], and
    a second [f] at offset 12. *)
Definition twice_o : list Z :=
  Sample.object64 ELFCLASS64 1 6 16
    ([195; 144; 144; 144; 144; 144; 144; 144; 195; 144; 144; 144; 195; 144; 144; 144])
    []
    (Sample.sym64 0 0 0 0 ++ Sample.sym64 1 18 1 0 ++ Sample.sym64 3 18 1 8
     ++ Sample.sym64 1 18 1 12)
    ([0] ++ Sample.bytes_of_string "f" ++ [0] ++ Sample.bytes_of_string "g" ++ [0]).

Definition files (s : string) : file_result :=
  if String.eqb s "abs64.o" then FileRead 20480 abs64_o
  else if String.eqb s "pc32.o" then FileRead 20480 pc32_o
  else if String.eqb s "got.o" then FileRead 20480 got_o
  else if String.eqb s "tls.o" then FileRead 20480 tls_o
  else if String.eqb s "debug.o" then FileRead 20480 debug_o
  else if String.eqb s "two.o" then FileRead 20480 two_o
  else if String.eqb s "stripped.o" then FileRead 20480 stripped_o
  else if String.eqb s "swapped.o" then FileRead 20480 swapped_o
  else if String.eqb s "twice.o" then FileRead 20480 twice_o
  else if String.eqb s "hello.o" then FileRead 20480 Sample.hello_o
  else if String.eqb s "missing.o" then FileRead 20480 Sample.missing_o
  else if String.eqb s "notes.txt" then FileRead 20480 Sample.notes_txt
  else if String.eqb s "pipe.o" then FseekFails "Illegal seek"
  else if String.eqb s "tape.o" then FtellFails "Value too large for defined data type"
  else if String.eqb s "disk.o" then FreadFails "Input/output error"
  else FopenFails "No such file or directory".

(** A host whose [mmap] fails. *)
Definition no_mmap (len : Z) : Z := MAP_FAILED X86_64.

Definition open (filename : string) (st : state) : option obj_handle * state :=
  objopen X86_64 Sample.resolver Sample.host_mmap files false filename 0 st.

Definition acquire (filename : string) (st : state)
  : (buffer * nat * obj_handle * state) + state :=
  objopen_acquire X86_64 Sample.host_mmap files false filename st.

Definition acquires (filename : string) (st : state) : bool :=
  match acquire filename st with inl _ => true | inr _ => false end.

Definition acquired (filename : string) (st : state)
  : buffer * nat * obj_handle * state :=
  match acquire filename st with
  | inl x => x
  | inr st1 => (mkBuffer 0 [], 0%nat, mkHandle 0 None [] 0 0 0 0, st1)
  end.

(** The state in which [objopen] returns [NULL] before loading. *)
Definition refused (filename : string) (st : state) : state :=
  match acquire filename st with inl _ => st | inr st1 => st1 end.

Definition bin_of (filename : string) (st : state) : buffer :=
  fst (fst (fst (acquired filename st))).
Definition blk_of (filename : string) (st : state) : nat :=
  snd (fst (fst (acquired filename st))).
Definition obj_of (filename : string) (st : state) : obj_handle :=
  snd (fst (acquired filename st)).
Definition st_of (filename : string) (st : state) : state :=
  snd (acquired filename st).

Definition laid_out (filename : string) (st : state) : layout * state :=
  load_layout X86_64 (obj_of filename st) (bin_of filename st) (st_of filename st).

Definition opens (filename : string) (st : state) : bool :=
  match fst (open filename st) with Some _ => true | None => false end.

Definition handle_of (filename : string) (st : state) : obj_handle :=
  match fst (open filename st) with
  | Some h => h
  | None => mkHandle 0 None [] 0 0 0 0
  end.

End Fixture.

Strategy expand [Fixture.open Fixture.acquire].

(** * Properties *)

(** Case analysis on the first conditional, resp. the first [find], of the
    goal. *)
Ltac case_if :=
  match goal with
  | |- context [if ?c then _ else _] => destruct c
  end.

Ltac case_find :=
  match goal with
  | |- context [find ?p ?l] => destruct (find p l)
  end.

(** ** Memory *)

Lemma store8_same (m : memory) (p v : Z) : store8 m p v p = v mod 256.
Proof. unfold store8. now rewrite Z.eqb_refl. Qed.

Lemma store8_other (m : memory) (p v x : Z) : x <> p -> store8 m p v x = m x.
Proof. intro H. unfold store8. apply Z.eqb_neq in H. now rewrite H. Qed.

Lemma store_other (n : nat) : forall (m : memory) (p v x : Z),
  x < p \/ p + Z.of_nat n <= x -> store n m p v x = m x.
Proof.
  induction n as [|k IH]; intros m p v x H; simpl store; [reflexivity|].
  rewrite IH by lia. apply store8_other. lia.
Qed.

Lemma store_at (n : nat) : forall (m : memory) (p v : Z) (k : nat),
  (k < n)%nat -> store n m p v (p + Z.of_nat k) = (v / 256 ^ Z.of_nat k) mod 256.
Proof.
  induction n as [|n IH]; intros m p v k Hk; [lia|].
  simpl store. destruct k as [|k].
  - rewrite store_other by lia. simpl. rewrite Z.add_0_r, store8_same.
    now rewrite Z.div_1_r.
  - replace (p + Z.of_nat (S k)) with (p + 1 + Z.of_nat k) by lia.
    rewrite IH by lia. rewrite Z.div_div by lia.
    replace (256 * 256 ^ Z.of_nat k) with (256 ^ Z.of_nat (S k)); [reflexivity|].
    rewrite Nat2Z.inj_succ, Z.pow_succ_r by lia. reflexivity.
Qed.

Lemma load_ext (n : nat) : forall (m m' : memory) (p : Z),
  (forall x, p <= x < p + Z.of_nat n -> m x = m' x) -> load n m p = load n m' p.
Proof.
  induction n as [|n IH]; intros m m' p H; simpl; [reflexivity|].
  rewrite (H p) by lia. rewrite (IH m m' (p + 1)); [reflexivity|].
  intros x Hx. apply H. lia.
Qed.

Lemma load_store_disjoint (k n : nat) (m : memory) (p q v : Z) :
  q + Z.of_nat k <= p \/ p + Z.of_nat n <= q ->
  load k (store n m p v) q = load k m q.
Proof.
  intro H. apply load_ext. intros x Hx. apply store_other. lia.
Qed.

Lemma load_store_same (n : nat) : forall (m : memory) (p v : Z),
  load n (store n m p v) p = v mod 256 ^ Z.of_nat n.
Proof.
  induction n as [|n IH]; intros m p v.
  - simpl. now rewrite Z.mod_1_r.
  - simpl load. simpl store. rewrite store_other by lia.
    rewrite store8_same, IH.
    rewrite Nat2Z.inj_succ, Z.pow_succ_r by lia.
    rewrite (Z.rem_mul_r v 256 (256 ^ Z.of_nat n)) by lia. reflexivity.
Qed.

Lemma bytes_at_ext (n : nat) (m m' : memory) (p : Z) :
  (forall x, p <= x < p + Z.of_nat n -> m x = m' x) ->
  bytes_at m p n = bytes_at m' p n.
Proof.
  intro H. unfold bytes_at. apply map_ext_in. intros k Hk.
  apply in_seq in Hk. apply H. lia.
Qed.

Lemma map_seq_from {A : Type} (k : nat) : forall (s : nat) (f : nat -> A),
  map f (seq s k) = map (fun i => f (s + i)%nat) (seq 0 k).
Proof.
  induction k as [|k IH]; intros s f; simpl; [reflexivity|].
  rewrite Nat.add_0_r. f_equal.
  rewrite (IH (S s)), (IH 1%nat). apply map_ext. intro i. f_equal. lia.
Qed.

Lemma bytes_at_app (n k : nat) (m : memory) (p : Z) :
  bytes_at m p (n + k) = bytes_at m p n ++ bytes_at m (p + Z.of_nat n) k.
Proof.
  unfold bytes_at. rewrite seq_app, map_app. f_equal.
  rewrite map_seq_from. apply map_ext. intro i. f_equal. lia.
Qed.

Lemma bytes_at_store (n : nat) : forall (m : memory) (p v : Z),
  bytes_at (store n m p v) p n = le n v.
Proof.
  induction n as [|n IH]; intros m p v; [reflexivity|].
  change (S n) with (1 + n)%nat at 2. rewrite bytes_at_app.
  simpl le. simpl store. unfold bytes_at at 1. simpl map.
  rewrite Z.add_0_r, store_other, store8_same by lia.
  simpl app. f_equal. apply IH.
Qed.

Lemma length_le (n : nat) : forall v, List.length (le n v) = n.
Proof. induction n; intro v; simpl; auto. Qed.

(** ** Symbol lookup *)

(** What [scan] returns is [NULL] or the address of a record scanned. *)
Lemma scan_in (l : list symbol) (sym : string) :
  scan l sym = 0 \/ exists s, In s l /\ scan l sym = addr s.
Proof.
  induction l as [|s l IH]; cbn [scan]; [left; reflexivity|].
  destruct (String.eqb (name s) sym).
  - right. exists s. split; [left|]; reflexivity.
  - destruct IH as [H0|(s1 & Hin & Hs)]; [left; exact H0|].
    right. exists s1. split; [right|]; assumption.
Qed.

(** C7.  [objsym] scans the handle's symbol index (the first [num_symbols]
    records, in the order the loader emitted them) comparing names for
    equality: either no record bears the queried name and the result is
    [NULL], or the result is the address of the first record that does,
    whatever records of the same name follow it. *)
Theorem objsym_first_match (obj : obj_handle) (sym : string) :
  let index := firstn (Z.to_nat (num_symbols obj)) (symbols obj) in
  (forall s, In s index -> name s <> sym) /\ objsym obj sym = 0
  \/ exists pre s post,
       index = pre ++ s :: post /\ name s = sym
       /\ (forall s', In s' pre -> name s' <> sym) /\ objsym obj sym = addr s.
Proof.
  intro index. unfold objsym. fold index. generalize index as l. clear index.
  induction l as [|s l IH]; cbn [scan].
  - left. split; [intros s []|reflexivity].
  - destruct (String.eqb (name s) sym) eqn:E.
    + right. exists [], s, l. apply String.eqb_eq in E.
      repeat split; auto; intros s' [].
    + apply String.eqb_neq in E.
      destruct IH as [[Hno H0]|(pre & s1 & post & -> & Hn & Hpre & Hs)].
      * left. split; [|exact H0]. intros s' [<-|Hin]; auto.
      * right. exists (s :: pre), s1, post. repeat split; auto;
        intros s' [<-|Hin]; auto.
Qed.

(** ** The relocation engine, one record at a time *)

Section Engine.

Variable a : arch.
Variable dlsym : string -> Z.

Lemma sym_dispatch_done (bin : buffer) (strtab : Z) (addrs : list Z)
    (sym : Elf_Sym) (st st1 : state) (S : Z) :
  sym_dispatch dlsym bin strtab addrs sym st = (Done S, st1) -> st1 = st.
Proof.
  unfold sym_dispatch.
  repeat case_if; intro H; inversion H; reflexivity.
Qed.

Lemma sym_dispatch_fail (bin : buffer) (strtab : Z) (addrs : list Z)
    (sym : Elf_Sym) (st st1 : state) :
  sym_dispatch dlsym bin strtab addrs sym st = (Fail, st1) ->
  exists msg, st1 = set_error st msg.
Proof.
  unfold sym_dispatch.
  repeat case_if; intro H; inversion H; eexists; reflexivity.
Qed.

End Engine.

(** The fourteen bytes of a PLT trampoline for the address [S]:
    [jmp *0(%rip)] and the 8-byte slot it jumps through. *)
Lemma trampoline_bytes (m : memory) (T S : Z) :
  bytes_at (store 8 (store 4 (store8 (store8 m T 255) (T + 1) 37) (T + 2) 0)
                  (T + 6) S) T 14
  = [255; 37; 0; 0; 0; 0] ++ le 8 S.
Proof.
  change 14%nat with (2 + (4 + 8))%nat. rewrite !bytes_at_app.
  change (T + Z.of_nat 2 + Z.of_nat 4) with (T + 2 + 4).
  replace (T + 2 + 4) with (T + 6) by lia.
  rewrite bytes_at_store.
  rewrite (bytes_at_ext 4 _ (store 4 (store8 (store8 m T 255) (T + 1) 37) (T + 2) 0));
    [|intros x Hx; apply store_other; simpl in Hx; lia].
  change (T + Z.of_nat 2) with (T + 2). rewrite bytes_at_store.
  rewrite (bytes_at_ext 2 _ (store8 (store8 m T 255) (T + 1) 37));
    [|intros x Hx; rewrite !store_other; simpl in Hx; simpl; auto; lia].
  unfold bytes_at. simpl map. rewrite Z.add_0_r.
  rewrite store8_same, store8_other, store8_same by lia.
  reflexivity.
Qed.

Lemma reloc_apply_plt32 (target S addend cs : Z) (st : state) :
  let T := code st + code_used st in
  exists (m1 : memory) (st' : state),
    reloc_apply X86_64 false R_X86_64_PLT32 target S addend cs st = (Done cs, st')
    /\ code st' = code st
    /\ code_used st' = to_size X86_64 (code_used st + 14)
    /\ bytes_at m1 T 14 = [255; 37; 0; 0; 0; 0] ++ le 8 S
    /\ (forall x, x < T \/ T + 14 <= x -> m1 x = mem st x)
    /\ mem st' = add_at 4 m1 target ((T - target) + addend).
Proof.
  intro T.
  exists (store 8 (store 4 (store8 (store8 (mem st) T 255) (T + 1) 37) (T + 2) 0)
                (T + 6) S).
  eexists. split; [reflexivity|]. cbn [code code_used mem set_mem set_code_used].
  repeat split.
  - apply trampoline_bytes.
  - intros x Hx. rewrite !store_other by (cbn; lia).
    rewrite !store8_other by lia. reflexivity.
Qed.

(** C1.  On 64-bit x86, a [R_X86_64_PLT32] relocation whose symbol resolves
    to [S] takes 14 bytes from the arena's bump pointer, at [T = code +
    code_used]; they are written as [FF 25 00 00 00 00] followed by the
    8-byte little-endian [S]; then the 32-bit word at the target is
    incremented by [(T - target) + addend].  A target word that does not
    overlap the trampoline leaves it intact.  With [code_size_only] set the
    same record adds exactly 14 to the size and changes nothing else. *)
Theorem plt32_trampoline
    (dlsym : string -> Z) (bin : buffer) (symtab strtab : Z) (addrs : list Z)
    (shdr : Elf_Shdr) (j cs S : Z) (st : state) :
  let rel := rel_at X86_64 bin shdr j in
  let target := addrs_at addrs (sh_info shdr) + r_offset rel in
  let addend := if is_rela shdr then to_int (r_addend rel) else 0 in
  let T := code st + code_used st in
  ELF_R_TYPE X86_64 (r_info rel) = R_X86_64_PLT32 ->
  fst (sym_dispatch dlsym bin strtab addrs (sym_of X86_64 bin symtab rel) st) = Done S ->
  (exists (m1 : memory) (st' : state),
      relocate_one X86_64 dlsym bin symtab strtab addrs false shdr j cs st
      = (Done cs, st')
      /\ code st' = code st
      /\ code_used st' = to_size X86_64 (code_used st + 14)
      /\ (0 <= code_used st -> code_used st + 14 <= arena_capacity ->
          code st <= T /\ T + 14 <= code st + arena_capacity)
      /\ bytes_at m1 T 14 = [255; 37; 0; 0; 0; 0] ++ le 8 S
      /\ (forall x, x < T \/ T + 14 <= x -> m1 x = mem st x)
      /\ load 4 (mem st') target
         = wrap 32 (load 4 m1 target + ((T - target) + addend))
      /\ (forall x, x < target \/ target + 4 <= x -> mem st' x = m1 x)
      /\ (target + 4 <= T \/ T + 14 <= target ->
          bytes_at (mem st') T 14 = [255; 37; 0; 0; 0; 0] ++ le 8 S
          /\ load 4 (mem st') target
             = wrap 32 (load 4 (mem st) target + ((T - target) + addend))))
  /\ relocate_one X86_64 dlsym bin symtab strtab addrs true shdr j cs st
     = (Done (to_size X86_64 (cs + 14)), st).
Proof.
  intros rel target addend T Hty HS. split.
  - destruct (reloc_apply_plt32 target S addend cs st)
      as (m1 & st' & Happ & Hc & Hu & Hb & Hframe & Hmem).
    fold T in Hb, Hframe, Hmem.
    exists m1, st'. split.
    { unfold relocate_one. fold rel. rewrite Hty.
      destruct (sym_dispatch dlsym bin strtab addrs (sym_of X86_64 bin symtab rel) st)
        as [[S'|] st1] eqn:E; cbn [fst] in HS; [|discriminate].
      injection HS as ->. apply sym_dispatch_done in E. subst st1.
      exact Happ. }
    assert (Hout : forall x, x < target \/ target + 4 <= x -> mem st' x = m1 x).
    { intros x Hx. rewrite Hmem. unfold add_at. apply store_other.
      change (Z.of_nat 4) with 4. lia. }
    assert (Hword : load 4 (mem st') target
                    = wrap 32 (load 4 m1 target + ((T - target) + addend))).
    { rewrite Hmem. unfold add_at. rewrite load_store_same. reflexivity. }
    repeat split; auto.
    + unfold T. lia.
    + unfold T, arena_capacity in *. lia.
    + rewrite <- Hb. apply bytes_at_ext. intros x Hx. apply Hout.
      change (Z.of_nat 14) with 14 in Hx. lia.
    + rewrite Hword. f_equal. f_equal. apply load_ext. intros x Hx.
      apply Hframe. change (Z.of_nat 4) with 4 in Hx. lia.
  - unfold relocate_one. fold rel. rewrite Hty. reflexivity.
Qed.

(** ** Loops *)

Lemma for_try_split {A : Type} (body : Z -> A -> state -> outcome A * state)
    (n : nat) : forall (m : nat) (i : Z) (s : A) (st : state),
  for_try (n + m) i body s st
  = match for_try n i body s st with
    | (Done s1, st1) => for_try m (i + Z.of_nat n) body s1 st1
    | (Fail, st1) => (Fail, st1)
    end.
Proof.
  induction n as [|n IH]; intros m i s st.
  - simpl. now rewrite Z.add_0_r.
  - cbn [Nat.add for_try]. destruct (body i s st) as [[s1|] st1]; [|reflexivity].
    rewrite IH. replace (i + 1 + Z.of_nat n) with (i + Z.of_nat (S n)) by lia.
    reflexivity.
Qed.

(** A loop whose body fails at iteration [k] after a clean prefix fails
    there, in the state the body left. *)
Lemma for_try_fails_at {A : Type} (body : Z -> A -> state -> outcome A * state)
    (n k : nat) (s s1 : A) (st st1 st2 : state) :
  (k < n)%nat ->
  for_try k 0 body s st = (Done s1, st1) ->
  body (Z.of_nat k) s1 st1 = (Fail, st2) ->
  for_try n 0 body s st = (Fail, st2).
Proof.
  intros Hk Hpre Hbody.
  replace n with (k + S (n - S k))%nat by lia.
  rewrite for_try_split, Hpre. cbn [for_try]. rewrite Z.add_0_l, Hbody.
  reflexivity.
Qed.

Lemma for_loop_split {A : Type} (body : Z -> A -> A) (n : nat) :
  forall (m : nat) (i : Z) (s : A),
  for_loop (n + m) i body s = for_loop m (i + Z.of_nat n) body (for_loop n i body s).
Proof.
  induction n as [|n IH]; intros m i s.
  - simpl. now rewrite Z.add_0_r.
  - cbn [Nat.add for_loop]. rewrite IH.
    replace (i + 1 + Z.of_nat n) with (i + Z.of_nat (S n)) by lia. reflexivity.
Qed.

Lemma for_loop_succ {A : Type} (body : Z -> A -> A) (n : nat) (s : A) :
  for_loop (S n) 0 body s = body (Z.of_nat n) (for_loop n 0 body s).
Proof.
  replace (S n) with (n + 1)%nat by lia.
  rewrite for_loop_split. reflexivity.
Qed.

(** ** Failure of [objopen] *)

Lemma obj_error_free (st : state) (blk : nat) : obj_error (free st blk) = obj_error st.
Proof. reflexivity. Qed.

Lemma obj_error_free_names (l : list symbol) : forall st : state,
  obj_error (fold_left (fun s sy => free s (name_block sy)) l st) = obj_error st.
Proof. induction l as [|s l IH]; intro st; simpl; [reflexivity|]. now rewrite IH. Qed.

Section Open.

Variable a : arch.
Variable dlsym : string -> Z.
Variable host_mmap : Z -> Z.
Variable host_file : string -> file_result.
Variable handle_malloc_fails : bool.

Lemma obj_error_objclose (obj : obj_handle) (st : state) :
  obj_error (snd (objclose obj st)) = obj_error st.
Proof.
  unfold objclose. cbn [snd]. rewrite obj_error_free, obj_error_free_names.
  destruct (h_code obj =? 0); reflexivity.
Qed.

(** A record that [relocate] reaches and that fails makes [relocate]
    return [(size_t)-1] in the state the record left. *)
Lemma relocate_fails_at (l : layout) (st : state) (i j cs : Z) (st3 : state) :
  reaches a dlsym l st i j ->
  fst (before_record a dlsym l st i j) = Done cs ->
  relocate_one a dlsym (l_bin l) (symtab (l_tables l)) (strtab (l_tables l))
               (l_addrs l) false (shdr_at a (l_bin l) i) j cs
               (snd (before_record a dlsym l st i j)) = (Fail, st3) ->
  relocate a dlsym (l_bin l) (symtab (l_tables l)) (strtab (l_tables l))
           (l_addrs l) false st = (SIZE_MAX a, st3).
Proof.
  intros (Hi & Hw & Hj & _) Hcs Hone. unfold before_record in Hcs, Hone.
  destruct (relocate_loop a dlsym (l_bin l) (symtab (l_tables l))
              (strtab (l_tables l)) (l_addrs l) false (Z.to_nat i) st)
    as [[cs1|] st1] eqn:Hsec; [|discriminate].
  destruct (for_try (Z.to_nat j) 0 _ cs1 st1) as [[cs'|] st2] eqn:Hrel;
    cbn [fst snd] in Hcs, Hone; [|discriminate].
  injection Hcs as ->.
  unfold relocate. fold (shnum_of a (l_bin l)).
  unfold relocate_loop in *.
  rewrite (for_try_fails_at _ (shnum_of a (l_bin l)) (Z.to_nat i) 0 cs1 st st1 st3);
    [reflexivity|lia|exact Hsec|].
  rewrite Z2Nat.id by lia. unfold relocate_section. rewrite Hw.
  apply (for_try_fails_at _ _ (Z.to_nat j) cs1 cs st1 st2 st3); [lia|exact Hrel|].
  rewrite Z2Nat.id by lia. exact Hone.
Qed.

(** When [relocate] fails, [objopen] returns [NULL] and the message that
    [relocate] stored is the one [objerror] shows. *)
Lemma objopen_relocate_fails (filename : string) (flags : Z) (st st0 st1 st3 : state)
    (bin : buffer) (blk : nat) (obj : obj_handle) (l : layout) :
  objopen_acquire a host_mmap host_file handle_malloc_fails filename st = inl (bin, blk, obj, st0) ->
  load_layout a obj bin st0 = (l, st1) ->
  relocate a dlsym (l_bin l) (symtab (l_tables l)) (strtab (l_tables l))
           (l_addrs l) false st1 = (SIZE_MAX a, st3) ->
  fst (objopen a dlsym host_mmap host_file handle_malloc_fails filename flags st) = None
  /\ objerror (snd (objopen a dlsym host_mmap host_file handle_malloc_fails filename flags st)) = obj_error st3.
Proof.
  intros Hacq Hlay Hrel. unfold objopen. rewrite Hacq.
  unfold load_object. rewrite Hlay, Hrel, Z.eqb_refl. cbn [Z.eqb fst snd].
  split; [reflexivity|]. unfold objerror.
  rewrite obj_error_objclose. reflexivity.
Qed.

Lemma reloc_apply_unknown (cso : bool) (rtype target S addend cs : Z) (st : state) :
  known_reloc a rtype = false ->
  reloc_apply a cso rtype target S addend cs st
  = (Fail, set_error st ("Unknown reloc: " ++ dec rtype)).
Proof.
  unfold known_reloc, reloc_apply. destruct a; intro H;
    repeat (apply orb_false_elim in H; destruct H as [H ?]);
    repeat match goal with E : (_ =? _) = false |- _ => rewrite E; clear E end;
    reflexivity.
Qed.

(** C2, as the code has it.  A relocation that [relocate] reaches (its
    section is walked and no record before it failed) and whose symbol has
    no type and section index [SHN_UNDEF] takes its address from the host
    resolver,
    asked by the symbol's name; when the resolver answers [NULL], [objopen]
    returns [NULL] and the error slot reads "failed to resolve <name>" (so
    it contains that substring). *)
Theorem unresolved_external_fails
    (filename : string) (flags : Z) (st st0 st1 : state)
    (bin : buffer) (blk : nat) (obj : obj_handle) (l : layout) (i j : Z) :
  objopen_acquire a host_mmap host_file handle_malloc_fails filename st
  = inl (bin, blk, obj, st0) ->
  load_layout a obj bin st0 = (l, st1) ->
  reaches a dlsym l st1 i j ->
  let st2 := snd (before_record a dlsym l st1 i j) in
  let sym := sym_of a (l_bin l) (symtab (l_tables l))
                    (rel_at a (l_bin l) (shdr_at a (l_bin l) i) j) in
  let nm := cstr (l_bin l) (strtab (l_tables l) + st_name sym) in
  ELF_ST_TYPE (st_info sym) = STT_NOTYPE ->
  st_shndx sym = SHN_UNDEF ->
  (dlsym nm <> 0 ->
   sym_dispatch dlsym (l_bin l) (strtab (l_tables l)) (l_addrs l) sym st2
   = (Done (dlsym nm), st2))
  /\ (dlsym nm = 0 ->
      fst (objopen a dlsym host_mmap host_file handle_malloc_fails filename flags st)
      = None
      /\ objerror (snd (objopen a dlsym host_mmap host_file handle_malloc_fails
                                filename flags st))
         = ("failed to resolve " ++ nm)%string).
Proof.
  intros Hacq Hlay Hreach st2 sym nm Hty Hundef.
  assert (Hd : sym_dispatch dlsym (l_bin l) (strtab (l_tables l)) (l_addrs l) sym st2
               = if dlsym nm =? 0
                 then (Fail, set_error st2 ("failed to resolve " ++ nm))
                 else (Done (dlsym nm), st2)).
  { unfold sym_dispatch. rewrite Hty, Hundef. reflexivity. }
  split; intro Hnm.
  - rewrite Hd. apply Z.eqb_neq in Hnm. now rewrite Hnm.
  - rewrite Hnm in Hd. cbn [Z.eqb] in Hd.
    apply (objopen_relocate_fails filename flags st st0 st1
             (set_error st2 ("failed to resolve " ++ nm)) bin blk obj l Hacq Hlay).
    destruct Hreach as (Hi & Hw & Hj & cs & Hcs).
    apply (relocate_fails_at l st1 i j cs _
             (conj Hi (conj Hw (conj Hj (ex_intro _ cs Hcs)))) Hcs).
    unfold relocate_one. fold sym. fold st2. rewrite Hd. reflexivity.
Qed.

(** C8, as the code has it.  A relocation that [relocate] reaches, whose
    symbol passes the symbol-type dispatch and whose type is none of the
    types enumerated for the architecture, makes [objopen] return [NULL]
    with the error slot reading "Unknown reloc: <n>". *)
Theorem unknown_reloc_fails
    (filename : string) (flags : Z) (st st0 st1 : state)
    (bin : buffer) (blk : nat) (obj : obj_handle) (l : layout) (i j S : Z) :
  objopen_acquire a host_mmap host_file handle_malloc_fails filename st
  = inl (bin, blk, obj, st0) ->
  load_layout a obj bin st0 = (l, st1) ->
  reaches a dlsym l st1 i j ->
  let st2 := snd (before_record a dlsym l st1 i j) in
  let rel := rel_at a (l_bin l) (shdr_at a (l_bin l) i) j in
  let rtype := ELF_R_TYPE a (r_info rel) in
  known_reloc a rtype = false ->
  fst (sym_dispatch dlsym (l_bin l) (strtab (l_tables l)) (l_addrs l)
                    (sym_of a (l_bin l) (symtab (l_tables l)) rel) st2) = Done S ->
  fst (objopen a dlsym host_mmap host_file handle_malloc_fails filename flags st)
  = None
  /\ objerror (snd (objopen a dlsym host_mmap host_file handle_malloc_fails
                            filename flags st))
     = ("Unknown reloc: " ++ dec rtype)%string.
Proof.
  intros Hacq Hlay Hreach st2 rel rtype Hunk HS.
  apply (objopen_relocate_fails filename flags st st0 st1
           (set_error st2 ("Unknown reloc: " ++ dec rtype)) bin blk obj l Hacq Hlay).
  destruct Hreach as (Hi & Hw & Hj & cs & Hcs).
  apply (relocate_fails_at l st1 i j cs _
           (conj Hi (conj Hw (conj Hj (ex_intro _ cs Hcs)))) Hcs).
  unfold relocate_one. fold rel. fold st2.
  destruct (sym_dispatch dlsym (l_bin l) (strtab (l_tables l)) (l_addrs l)
                         (sym_of a (l_bin l) (symtab (l_tables l)) rel) st2)
    as [[S'|] st'] eqn:E; cbn [fst] in HS; [|discriminate].
  apply sym_dispatch_done in E. subst st'.
  apply reloc_apply_unknown. exact Hunk.
Qed.

End Open.

(** ** Sizing-only mode *)

Lemma find_app {A : Type} (p : A -> bool) (l1 l2 : list A) :
  find p (l1 ++ l2) = match find p l1 with Some x => Some x | None => find p l2 end.
Proof. induction l1 as [|x l1 IH]; simpl; [reflexivity|]. destruct (p x); auto. Qed.

Lemma sum_app (l1 l2 : list Z) : sum (l1 ++ l2) = sum l1 + sum l2.
Proof. induction l1 as [|x l1 IH]; simpl; [reflexivity|]. unfold sum in *. lia. Qed.

Lemma wrap_range (bits v : Z) : 0 <= bits -> 0 <= wrap bits v < 2 ^ bits.
Proof. intro H. unfold wrap. apply Z.mod_pos_bound. apply Z.pow_pos_nonneg; lia. Qed.

Lemma wrap_small (bits v : Z) : 0 <= v < 2 ^ bits -> wrap bits v = v.
Proof. intro H. unfold wrap. now apply Z.mod_small. Qed.

Lemma wrap_add_l (bits x y : Z) : wrap bits (wrap bits x + y) = wrap bits (x + y).
Proof. unfold wrap. apply Zplus_mod_idemp_l. Qed.

Section Sizing.

Variable dlsym : string -> Z.
Variable bin : buffer.
Variables symtab strtab : Z.
Variable addrs : list Z.

(** One record in sizing-only mode: the symbol is not looked at. *)
Lemma sizing_one (shdr : Elf_Shdr) (j cs : Z) (st : state) :
  0 <= cs < 2 ^ 64 ->
  let t := ELF_R_TYPE X86_64 (r_info (rel_at X86_64 bin shdr j)) in
  relocate_one X86_64 dlsym bin symtab strtab addrs true shdr j cs st
  = if known_reloc X86_64 t
    then (Done (to_size X86_64 (cs + sizing_cost t)), st)
    else (Fail, set_error st ("Unknown reloc: " ++ dec t)).
Proof.
  intros Hcs t. unfold relocate_one. fold t. cbv beta iota.
  unfold reloc_apply, known_reloc, sizing_cost.
  destruct (t =? R_X86_64_64) eqn:E1.
  { apply Z.eqb_eq in E1. rewrite E1. cbn [orb Z.eqb R_X86_64_64 R_X86_64_PLT32
      R_X86_64_REX_GOTPCRELX Pos.eqb]. rewrite Z.add_0_r.
    unfold to_size. now rewrite wrap_small. }
  destruct (t =? R_X86_64_PC32) eqn:E2.
  { apply Z.eqb_eq in E2. rewrite E2. cbn [orb Z.eqb R_X86_64_PC32 R_X86_64_PLT32
      R_X86_64_REX_GOTPCRELX Pos.eqb]. rewrite Z.add_0_r.
    unfold to_size. now rewrite wrap_small. }
  destruct (t =? R_X86_64_PLT32) eqn:E3; [reflexivity|].
  destruct (t =? R_X86_64_REX_GOTPCRELX) eqn:E4; reflexivity.
Qed.

(** The inner loop over the records [s .. s+n-1] of a section. *)
Lemma sizing_records (shdr : Elf_Shdr) (n : nat) : forall (s : nat) (cs : Z) (st : state),
  0 <= cs < 2 ^ 64 ->
  let types := map (fun j => ELF_R_TYPE X86_64 (r_info (rel_at X86_64 bin shdr j)))
                   (map Z.of_nat (seq s n)) in
  for_try n (Z.of_nat s)
          (relocate_one X86_64 dlsym bin symtab strtab addrs true shdr) cs st
  = match first_unknown X86_64 types with
    | None => (Done (to_size X86_64 (cs + sum (map sizing_cost types))), st)
    | Some t => (Fail, set_error st ("Unknown reloc: " ++ dec t))
    end.
Proof.
  induction n as [|n IH]; intros s cs st Hcs.
  - cbn. rewrite Z.add_0_r. unfold to_size. now rewrite wrap_small.
  - cbn [for_try seq map first_unknown find]. rewrite sizing_one by exact Hcs.
    cbv zeta.
    destruct (known_reloc X86_64
                (ELF_R_TYPE X86_64 (r_info (rel_at X86_64 bin shdr (Z.of_nat s)))));
      cbn [negb]; [|reflexivity].
    replace (Z.of_nat s + 1) with (Z.of_nat (S s)) by lia.
    rewrite IH by (apply wrap_range; cbn; lia). cbv zeta. unfold first_unknown.
    case_find; [reflexivity|].
    unfold to_size. rewrite wrap_add_l. cbn [sum fold_right map].
    do 3 f_equal. unfold sum. lia.
Qed.

(** One section. *)
Lemma sizing_section (i cs : Z) (st : state) :
  0 <= cs < 2 ^ 64 ->
  let types := if walked X86_64 bin i then section_types X86_64 bin i else [] in
  relocate_section X86_64 dlsym bin symtab strtab addrs true i cs st
  = match first_unknown X86_64 types with
    | None => (Done (to_size X86_64 (cs + sum (map sizing_cost types))), st)
    | Some t => (Fail, set_error st ("Unknown reloc: " ++ dec t))
    end.
Proof.
  intros Hcs types. unfold relocate_section. subst types.
  destruct (walked X86_64 bin i).
  - apply (sizing_records (shdr_at X86_64 bin i) _ 0 cs st Hcs).
  - cbn. rewrite Z.add_0_r. unfold to_size. now rewrite wrap_small.
Qed.

(** The outer loop over the sections [s .. s+n-1]. *)
Lemma sizing_sections (n : nat) : forall (s : nat) (cs : Z) (st : state),
  0 <= cs < 2 ^ 64 ->
  let types :=
    flat_map (fun i => if walked X86_64 bin i then section_types X86_64 bin i else [])
             (map Z.of_nat (seq s n)) in
  for_try n (Z.of_nat s)
          (relocate_section X86_64 dlsym bin symtab strtab addrs true) cs st
  = match first_unknown X86_64 types with
    | None => (Done (to_size X86_64 (cs + sum (map sizing_cost types))), st)
    | Some t => (Fail, set_error st ("Unknown reloc: " ++ dec t))
    end.
Proof.
  induction n as [|n IH]; intros s cs st Hcs.
  - cbn. rewrite Z.add_0_r. unfold to_size. now rewrite wrap_small.
  - cbn [for_try seq map flat_map]. cbv zeta.
    unfold first_unknown. rewrite find_app, map_app, sum_app.
    rewrite sizing_section by exact Hcs. cbv zeta. unfold first_unknown.
    replace (Z.of_nat s + 1) with (Z.of_nat (S s)) by lia.
    case_find; [reflexivity|].
    rewrite IH by (apply wrap_range; cbn; lia). cbv zeta. unfold first_unknown.
    case_find; [reflexivity|].
    unfold to_size. rewrite wrap_add_l. do 3 f_equal. lia.
Qed.

End Sizing.

Lemma sizing_cost_count (types : list Z) :
  sum (map sizing_cost types)
  = 14 * Z.of_nat (count_occ Z.eq_dec types R_X86_64_PLT32)
    + 8 * Z.of_nat (count_occ Z.eq_dec types R_X86_64_REX_GOTPCRELX).
Proof.
  induction types as [|t types IH]; [reflexivity|].
  cbn [map sum fold_right count_occ]. fold (sum (map sizing_cost types)).
  rewrite IH. unfold sizing_cost.
  destruct (Z.eq_dec t R_X86_64_PLT32) as [E1|H1].
  - subst t. destruct (Z.eq_dec R_X86_64_PLT32 R_X86_64_REX_GOTPCRELX);
      [discriminate|].
    rewrite Z.eqb_refl, Nat2Z.inj_succ. lia.
  - destruct (Z.eq_dec t R_X86_64_REX_GOTPCRELX) as [E2|H2].
    + subst t. rewrite Z.eqb_refl, Nat2Z.inj_succ.
      change (R_X86_64_REX_GOTPCRELX =? R_X86_64_PLT32) with false.
      cbv iota. lia.
    + apply Z.eqb_neq in H1, H2. rewrite H1, H2. lia.
Qed.

(** C10.  With [code_size_only] set, [relocate] on 64-bit x86 leaves the
    arena bytes, the bump pointer, the mappings and the heap as they were;
    its result does not depend on the symbol table, the string table, the
    placement map or the host resolver (no symbol is dispatched, so an
    unresolved or unsupported symbol cannot fail it); if every walked
    record (records of REL/RELA sections whose target is allocatable) has
    an enumerated type, it returns 14 for each PLT32 record plus 8 for each
    REX_GOTPCRELX record, and otherwise it fails at the first record of an
    unknown type with "Unknown reloc: <n>". *)
Theorem sizing_only_mode
    (dlsym : string -> Z) (bin : buffer) (symtab strtab : Z) (addrs : list Z)
    (st : state) :
  let r := relocate X86_64 dlsym bin symtab strtab addrs true st in
  let types := walked_types X86_64 bin in
  r = match first_unknown X86_64 types with
      | None =>
          (to_size X86_64
             (14 * Z.of_nat (count_occ Z.eq_dec types R_X86_64_PLT32)
              + 8 * Z.of_nat (count_occ Z.eq_dec types R_X86_64_REX_GOTPCRELX)),
           st)
      | Some t => (SIZE_MAX X86_64, set_error st ("Unknown reloc: " ++ dec t))
      end
  /\ (mem (snd r) = mem st /\ code (snd r) = code st
      /\ code_used (snd r) = code_used st /\ mapped (snd r) = mapped st
      /\ live (snd r) = live st)
  /\ (forall (dlsym' : string -> Z) (symtab' strtab' : Z) (addrs' : list Z),
        relocate X86_64 dlsym' bin symtab' strtab' addrs' true st = r).
Proof.
  intros r types.
  assert (H : forall d sy stt ad,
             relocate X86_64 d bin sy stt ad true st
             = match first_unknown X86_64 types with
               | None =>
                   (to_size X86_64
                      (14 * Z.of_nat (count_occ Z.eq_dec types R_X86_64_PLT32)
                       + 8 * Z.of_nat (count_occ Z.eq_dec types R_X86_64_REX_GOTPCRELX)),
                    st)
               | Some t => (SIZE_MAX X86_64, set_error st ("Unknown reloc: " ++ dec t))
               end).
  { intros d sy stt ad. unfold relocate, relocate_loop.
    pose proof (sizing_sections d bin sy stt ad (shnum_of X86_64 bin) 0 0 st) as Hs.
    cbv zeta in Hs. change (Z.of_nat 0) with 0 in Hs.
    unfold shnum_of in Hs. rewrite Hs by (cbn; lia).
    fold (shnum_of X86_64 bin). fold (indices (shnum_of X86_64 bin)).
    fold (walked_types X86_64 bin). fold types.
    destruct (first_unknown X86_64 types); [reflexivity|].
    rewrite Z.add_0_l, sizing_cost_count. reflexivity. }
  split; [apply H|]. split.
  - subst r. rewrite H. destruct (first_unknown X86_64 types); cbn; auto.
  - intros. subst r. now rewrite !H.
Qed.

(** ** Validation and the life of a handle *)

Lemma not_in_free (st : state) (blk : nat) : ~ In blk (live (free st blk)).
Proof. cbn. apply remove_In. Qed.

Lemma not_in_free_other (st : state) (blk b : nat) :
  ~ In b (live st) -> ~ In b (live (free st blk)).
Proof. cbn. intros H Hin. apply in_remove in Hin. tauto. Qed.

Lemma not_in_free_names (l : list symbol) : forall (st : state) (b : nat),
  ~ In b (live st) ->
  ~ In b (live (fold_left (fun s sy => free s (name_block sy)) l st)).
Proof.
  induction l as [|s l IH]; intros st b H; cbn [fold_left]; [exact H|].
  apply IH. now apply not_in_free_other.
Qed.

Lemma names_freed (l : list symbol) : forall (st : state) (s : symbol),
  In s l ->
  ~ In (name_block s) (live (fold_left (fun s sy => free s (name_block sy)) l st)).
Proof.
  induction l as [|s0 l IH]; intros st s Hin; [destruct Hin|].
  cbn [fold_left]. destruct Hin as [Heq|Hin].
  - subst s0. apply not_in_free_names, not_in_free.
  - now apply IH.
Qed.

Lemma frame_free_names (l : list symbol) : forall st : state,
  let st' := fold_left (fun s sy => free s (name_block sy)) l st in
  mapped st' = mapped st /\ code st' = code st /\ code_used st' = code_used st
  /\ mem st' = mem st.
Proof.
  induction l as [|s l IH]; intro st; cbn [fold_left]; [auto|].
  destruct (IH (free st (name_block s))) as (H1 & H2 & H3 & H4).
  cbv zeta. rewrite H1, H2, H3, H4. auto.
Qed.

Section Handle.

Variable a : arch.
Variable dlsym : string -> Z.
Variable host_mmap : Z -> Z.
Variable host_file : string -> file_result.
Variable handle_malloc_fails : bool.

Lemma objopen_acquire_handle (filename : string) (st st0 : state)
    (bin : buffer) (blk : nat) (obj : obj_handle) :
  objopen_acquire a host_mmap host_file handle_malloc_fails filename st
  = inl (bin, blk, obj, st0) ->
  obj = mkHandle (h_block obj) None [] 0 0 0 0 /\ magic_ok bin = true.
Proof.
  unfold objopen_acquire.
  destruct (code (if code st =? 0 then init a host_mmap st else st) =? MAP_FAILED a);
    [discriminate|].
  destruct (read_file host_file filename _) as [[[b k]|] st2]; [|discriminate].
  destruct handle_malloc_fails; [discriminate|].
  destruct (malloc st2) as [hb st3].
  destruct (magic_ok b) eqn:E; cbn [negb]; [|discriminate].
  intro H. inversion H. subst. auto.
Qed.

Lemma load_layout_handle (obj : obj_handle) (bin : buffer) (st st1 : state)
    (l : layout) :
  load_layout a obj bin st = (l, st1) ->
  h_block (l_obj l) = h_block obj /\ h_code (l_obj l) = h_code obj.
Proof.
  unfold load_layout.
  destruct (place_sections a bin st) as [addrs s1].
  destruct (malloc s1) as [arr s2].
  destruct (for_loop _ 0 (emit_symbol a (find_tables a bin) addrs) (bin, [], s2))
    as [[b syms] s3].
  intro H. inversion H. subst. auto.
Qed.

(** What a successful [objopen] returns. *)
Lemma objopen_some (filename : string) (flags : Z) (st st' : state) (h : obj_handle) :
  objopen a dlsym host_mmap host_file handle_malloc_fails filename flags st
  = (Some h, st') ->
  exists bin blk obj st0 l st1 r st2,
    objopen_acquire a host_mmap host_file handle_malloc_fails filename st
    = inl (bin, blk, obj, st0)
    /\ load_layout a obj bin st0 = (l, st1)
    /\ relocate a dlsym (l_bin l) (symtab (l_tables l)) (strtab (l_tables l))
                (l_addrs l) false st1 = (r, st2)
    /\ h = l_obj l /\ st' = free st2 blk.
Proof.
  unfold objopen.
  destruct (objopen_acquire a host_mmap host_file handle_malloc_fails filename st)
    as [[[[bin blk] obj] st0]|] eqn:Hacq; [|discriminate].
  unfold load_object. destruct (load_layout a obj bin st0) as [l st1] eqn:Hlay.
  destruct (relocate a dlsym (l_bin l) _ _ _ false st1) as [r st2] eqn:Hrel.
  destruct (r =? SIZE_MAX a); cbn [Z.eqb]; intro H; inversion H; subst.
  exists bin, blk, obj, st0, l, st1, r, st2. auto.
Qed.

(** C6, as the code has it.  Once the arena is mapped, the file is read and
    the handle is allocated, [objopen] compares the first four bytes of
    the buffer with the ELF magic and nothing else: a mismatch makes it
    return [NULL] with the error slot "<file> is not ELF", and a match
    lets the buffer through to the loader whatever its class byte is. *)
Theorem magic_is_validated
    (filename : string) (flags : Z) (st st2 : state) (bin : buffer) (blk : nat) :
  let st1 := if code st =? 0 then init a host_mmap st else st in
  code st1 <> MAP_FAILED a ->
  read_file host_file filename st1 = (Some (bin, blk), st2) ->
  handle_malloc_fails = false ->
  (e_ident bin 4 <> ELFMAG ->
   fst (objopen a dlsym host_mmap host_file handle_malloc_fails filename flags st)
   = None
   /\ objerror (snd (objopen a dlsym host_mmap host_file handle_malloc_fails
                             filename flags st))
      = (filename ++ " is not ELF")%string)
  /\ (e_ident bin 4 = ELFMAG ->
      objopen_acquire a host_mmap host_file handle_malloc_fails filename st
      = inl (bin, blk, mkHandle (next_block st2) None [] 0 0 0 0, snd (malloc st2))).
Proof.
  intros st1 Hmap Hread Hmalloc.
  assert (Hacq : objopen_acquire a host_mmap host_file handle_malloc_fails filename st
                 = if negb (magic_ok bin)
                   then inr (free (free (set_error (snd (malloc st2))
                                           (filename ++ " is not ELF")) blk)
                                  (next_block st2))
                   else inl (bin, blk, mkHandle (next_block st2) None [] 0 0 0 0,
                             snd (malloc st2))).
  { unfold objopen_acquire. fold st1. apply Z.eqb_neq in Hmap.
    rewrite Hmap, Hread, Hmalloc. reflexivity. }
  split; intro Hmagic.
  - unfold objopen. rewrite Hacq. unfold magic_ok.
    destruct (list_eq_dec Z.eq_dec (e_ident bin 4) ELFMAG); [contradiction|].
    cbn. auto.
  - rewrite Hacq. unfold magic_ok.
    destruct (list_eq_dec Z.eq_dec (e_ident bin 4) ELFMAG); [|contradiction].
    reflexivity.
Qed.

End Handle.

(** ** The file buffer *)

Lemma rd8_range (b : buffer) (p : Z) : 0 <= rd8 b p < 256.
Proof.
  unfold rd8. destruct (_ && _); [apply Z.mod_pos_bound|]; lia.
Qed.

Lemma rd_range (n : nat) : forall (b : buffer) (p : Z),
  0 <= rd n b p < 256 ^ Z.of_nat n.
Proof.
  induction n as [|n IH]; intros b p.
  - cbn. lia.
  - cbn [rd]. rewrite Nat2Z.inj_succ, Z.pow_succ_r by lia.
    pose proof (rd8_range b p). pose proof (IH b (p + 1)). nia.
Qed.

Lemma length_upd_nth (l : list Z) : forall (i : nat) (v : Z),
  List.length (upd_nth l i v) = List.length l.
Proof.
  induction l as [|h t IH]; intros i v; [reflexivity|].
  destruct i; cbn; auto.
Qed.

Lemma nth_upd_nth_other (l : list Z) : forall (i j : nat) (v : Z),
  i <> j -> nth j (upd_nth l i v) 0 = nth j l 0.
Proof.
  induction l as [|h t IH]; intros i j v Hij; [reflexivity|].
  destruct i, j; cbn; auto; lia.
Qed.

Lemma buf_base_wr8 (b : buffer) (p v : Z) : buf_base (wr8 b p v) = buf_base b.
Proof. unfold wr8. destruct (_ && _); reflexivity. Qed.

Lemma buf_base_wr (n : nat) : forall (b : buffer) (p v : Z),
  buf_base (wr n b p v) = buf_base b.
Proof.
  induction n as [|n IH]; intros b p v; cbn [wr]; [reflexivity|].
  now rewrite IH, buf_base_wr8.
Qed.

Lemma rd8_wr8_other (b : buffer) (p q v : Z) : q <> p -> rd8 (wr8 b p v) q = rd8 b q.
Proof.
  intro Hq. unfold wr8.
  destruct ((buf_base b <=? p) && (p <? buf_base b + Z.of_nat (List.length (buf_bytes b))))
    eqn:E; [|reflexivity].
  unfold rd8. cbn [buf_base buf_bytes]. rewrite length_upd_nth.
  destruct ((buf_base b <=? q) && (q <? buf_base b + Z.of_nat (List.length (buf_bytes b))))
    eqn:E'; [|reflexivity].
  rewrite nth_upd_nth_other; [reflexivity|].
  apply andb_prop in E, E'. destruct E as [E1 _], E' as [E2 _].
  apply Z.leb_le in E1, E2. intro H. apply Z2Nat.inj in H; lia.
Qed.

Lemma rd8_wr_other (n : nat) : forall (b : buffer) (p q v : Z),
  q < p \/ p + Z.of_nat n <= q -> rd8 (wr n b p v) q = rd8 b q.
Proof.
  induction n as [|n IH]; intros b p q v H; cbn [wr]; [reflexivity|].
  rewrite IH by lia. apply rd8_wr8_other. lia.
Qed.

Lemma rd_ext (n : nat) : forall (b b' : buffer) (p : Z),
  (forall x, p <= x < p + Z.of_nat n -> rd8 b x = rd8 b' x) -> rd n b p = rd n b' p.
Proof.
  induction n as [|n IH]; intros b b' p H; cbn [rd]; [reflexivity|].
  rewrite (H p) by lia. rewrite (IH b b' (p + 1)); [reflexivity|].
  intros x Hx. apply H. lia.
Qed.

(** A read that does not overlap a write is not affected by it. *)
Lemma rd_wr_disjoint (k n : nat) (b : buffer) (p q v : Z) :
  q + Z.of_nat k <= p \/ p + Z.of_nat n <= q ->
  rd k (wr n b p v) q = rd k b q.
Proof.
  intro H. apply rd_ext. intros x Hx. apply rd8_wr_other. lia.
Qed.

(** Rewriting the value of symbol [i] leaves every other symbol entry as
    it was. *)
Lemma sym_at_wr_other (a : arch) (b : buffer) (symtab i k v : Z) :
  k <> i ->
  sym_at a (wr (ptr_bytes a) b (symtab + sizeof_Sym a * i + st_value_off a) v) symtab k
  = sym_at a b symtab k.
Proof.
  intro Hk. unfold sym_at, read_sym.
  destruct a; cbn [ptr_bytes sizeof_Sym st_value_off];
    rewrite !rd_wr_disjoint by lia; reflexivity.
Qed.

(** ** Alignment *)

Lemma ptr_bits_pos (a : arch) : 32 <= ptr_bits a.
Proof. destruct a; cbn; lia. Qed.

Lemma align_down_16 (a : arch) (w : Z) :
  0 <= w < 2 ^ ptr_bits a -> align_down a w 16 = w / 16 * 16.
Proof.
  intro Hw. pose proof (ptr_bits_pos a) as Hb.
  unfold align_down, to_size, wrap.
  transitivity (Z.ldiff w (Z.ones 4)).
  - apply Z.bits_inj'. intros n Hn.
    rewrite Z.land_spec, Z.ldiff_spec, Z.testbit_mod_pow2 by lia.
    rewrite Z.lnot_spec by lia. change (16 - 1) with (Z.ones 4).
    destruct (n <? ptr_bits a) eqn:E; [reflexivity|].
    apply Z.ltb_ge in E. cbn [andb].
    rewrite <- (Z.mod_small w (2 ^ ptr_bits a)) by lia.
    rewrite Z.mod_pow2_bits_high by lia. reflexivity.
  - rewrite Z.ldiff_ones_r, Z.shiftl_mul_pow2, Z.shiftr_div_pow2 by lia.
    reflexivity.
Qed.

(** [align_up] to 16 inside the range of [size_t]: the least multiple of
    16 that is not below the value. *)
Lemma align_up_16 (a : arch) (v : Z) :
  0 <= v -> v + 15 < 2 ^ ptr_bits a ->
  v <= align_up a v 16 <= v + 15 /\ align_up a v 16 mod 16 = 0.
Proof.
  intros H0 H1. unfold align_up.
  assert (Hw : to_size a (v + 16 - 1) = v + 15).
  { unfold to_size. rewrite wrap_small; lia. }
  rewrite Hw, align_down_16 by lia.
  pose proof (Z.div_mod (v + 15) 16 ltac:(lia)) as Hd.
  pose proof (Z.mod_pos_bound (v + 15) 16 ltac:(lia)) as Hm.
  split; [lia|]. apply Z_mod_mult.
Qed.

(** ** Placement (Pass 2) *)

Lemma indices_succ (n : nat) : indices (S n) = indices n ++ [Z.of_nat n].
Proof. unfold indices. rewrite seq_S, map_app. reflexivity. Qed.

Lemma in_indices (n : nat) (k : Z) : In k (indices n) <-> 0 <= k < Z.of_nat n.
Proof.
  unfold indices. rewrite in_map_iff. split.
  - intros (x & <- & Hx). apply in_seq in Hx. lia.
  - intro H. exists (Z.to_nat k). split; [lia|]. apply in_seq. lia.
Qed.

Lemma nth_upd_nth_same (l : list Z) : forall (i : nat) (v : Z),
  (i < List.length l)%nat -> nth i (upd_nth l i v) 0 = v.
Proof.
  induction l as [|h t IH]; intros i v Hi; cbn in Hi; [lia|].
  destruct i; cbn; [reflexivity|]. apply IH. lia.
Qed.

Lemma sh_size_nonneg (a : arch) (bin : buffer) (p : Z) :
  0 <= sh_size (read_shdr a bin p).
Proof. destruct a; cbn [read_shdr sh_size]; apply rd_range. Qed.

Section Placement.

Variable a : arch.
Variable bin : buffer.

(** The demand of the sections before [n]. *)
Let demand (n : nat) : Z :=
  sum (map (fun i => if Z.land (sh_flags (shdr_at a bin i)) SHF_ALLOC =? 0
                     then 0 else sh_size (shdr_at a bin i) + 15)
           (indices n)).

Lemma demand_succ (n : nat) :
  demand (S n)
  = demand n + (if Z.land (sh_flags (shdr_at a bin (Z.of_nat n))) SHF_ALLOC =? 0
                then 0 else sh_size (shdr_at a bin (Z.of_nat n)) + 15).
Proof.
  unfold demand. rewrite indices_succ, map_app, sum_app. cbn [map sum fold_right].
  lia.
Qed.

Lemma demand_step (n : nat) : demand n <= demand (S n).
Proof.
  rewrite demand_succ. destruct (_ =? 0); [lia|].
  pose proof (sh_size_nonneg a bin
                (buf_base bin + e_shoff a bin (buf_base bin) + sizeof_Shdr a * Z.of_nat n)).
  unfold shdr_at. lia.
Qed.

Lemma demand_mono (n m : nat) : (n <= m)%nat -> demand n <= demand m.
Proof.
  induction 1 as [|m Hle IH]; [lia|]. pose proof (demand_step m). lia.
Qed.

(** After the first [n] iterations of the placement loop: the bump
    pointer has moved by at most the demand of the sections seen, each
    allocatable section seen owns a range of the arena below it, and if
    the bump pointer was a multiple of 16 when the loop started, it still
    is and so is the offset of every section. *)
Lemma place_prefix (st : state) (n : nat) :
  0 <= code_used st ->
  code_used st + demand (shnum_of a bin) <= arena_capacity ->
  (n <= shnum_of a bin)%nat ->
  let r := for_loop n 0 (place_section a bin) (repeat 0 (shnum_of a bin), st) in
  List.length (fst r) = shnum_of a bin
  /\ code (snd r) = code st
  /\ code_used st <= code_used (snd r) <= code_used st + demand n
  /\ (code_used st mod 16 = 0 -> code_used (snd r) mod 16 = 0)
  /\ forall k, 0 <= k < Z.of_nat n ->
       Z.land (sh_flags (shdr_at a bin k)) SHF_ALLOC <> 0 ->
       exists u, addrs_at (fst r) k = code st + u
                 /\ code_used st <= u
                 /\ u + sh_size (shdr_at a bin k) <= code_used (snd r)
                 /\ (code_used st mod 16 = 0 -> u mod 16 = 0).
Proof.
  intros H0 Hfit. induction n as [|n IH]; intro Hn.
  - cbn. rewrite repeat_length.
    repeat split; try lia; try (unfold demand, indices, sum; cbn; lia); auto.
  - rewrite for_loop_succ. specialize (IH ltac:(lia)). cbv zeta in IH.
    destruct (for_loop n 0 (place_section a bin) (repeat 0 (shnum_of a bin), st))
      as [addrs s] eqn:E.
    cbn [fst snd] in IH. destruct IH as (Hlen & Hcode & Hcu & Hal16 & Hsec).
    pose proof (demand_mono (S n) (shnum_of a bin) Hn) as Hmono.
    rewrite demand_succ in Hmono |- *.
    unfold place_section.
    destruct (Z.land (sh_flags (shdr_at a bin (Z.of_nat n))) SHF_ALLOC =? 0) eqn:Ea.
    + cbn [fst snd]. repeat split; try lia; auto.
      intros k Hk Hal.
      assert (k = Z.of_nat n \/ k < Z.of_nat n) as [->|Hlt] by lia.
      * apply Z.eqb_eq in Ea. contradiction.
      * apply Hsec; [lia|exact Hal].
    + pose proof (sh_size_nonneg a bin
                    (buf_base bin + e_shoff a bin (buf_base bin)
                     + sizeof_Shdr a * Z.of_nat n)) as Hsz.
      fold (shdr_at a bin (Z.of_nat n)) in Hsz.
      set (size := sh_size (shdr_at a bin (Z.of_nat n))) in *.
      pose proof (ptr_bits_pos a) as Hb.
      assert (Hpow : 2 ^ 32 <= 2 ^ ptr_bits a) by (apply Z.pow_le_mono_r; lia).
      assert (Hcap : arena_capacity < 2 ^ 32) by (cbn; lia).
      assert (Hw : to_size a (code_used s + size) = code_used s + size).
      { unfold to_size. apply wrap_small. lia. }
      destruct (align_up_16 a (code_used s + size)) as [Hup Hmod]; [lia|lia|].
      unfold alloc_code, align_code.
      assert (Hcu' : code_used
                (if sh_type (shdr_at a bin (Z.of_nat n)) =? SHT_NOBITS
                 then set_code_used (set_code_used s (to_size a (code_used s + size)))
                        (align_up a (code_used (set_code_used s (to_size a (code_used s + size)))) 16)
                 else set_mem
                        (set_code_used (set_code_used s (to_size a (code_used s + size)))
                           (align_up a (code_used (set_code_used s (to_size a (code_used s + size)))) 16))
                        (memcpy
                           (mem (set_code_used (set_code_used s (to_size a (code_used s + size)))
                                   (align_up a (code_used (set_code_used s (to_size a (code_used s + size)))) 16)))
                           (code s + code_used s) bin
                           (buf_base bin + sh_offset (shdr_at a bin (Z.of_nat n))) size))
              = align_up a (code_used s + size) 16).
      { destruct (_ =? SHT_NOBITS); cbn [code_used set_code_used set_mem]; now rewrite Hw. }
      cbn [fst snd]. rewrite Hcu'.
      repeat split.
      * now rewrite length_upd_nth.
      * destruct (_ =? SHT_NOBITS); cbn; exact Hcode.
      * lia.
      * lia.
      * intros _. exact Hmod.
      * intros k Hk Hal.
        assert (k = Z.of_nat n \/ k < Z.of_nat n) as [->|Hlt] by lia.
        -- exists (code_used s). unfold addrs_at. rewrite Nat2Z.id.
           rewrite nth_upd_nth_same by lia. fold size. rewrite Hcode.
           repeat split; auto; lia.
        -- destruct (Hsec k ltac:(lia) Hal) as (u & Hu1 & Hu2 & Hu3 & Hu4).
           exists u. unfold addrs_at in *.
           rewrite nth_upd_nth_other by lia. repeat split; auto. lia.
Qed.

(** A load that starts with an aligned arena and an aligned bump pointer
    places every allocatable section at a multiple of 16. *)
Lemma place_sections_aligned (st : state) (k : Z) :
  0 <= code_used st ->
  code_used st + demand (shnum_of a bin) <= arena_capacity ->
  code st mod 16 = 0 -> code_used st mod 16 = 0 ->
  0 <= k < Z.of_nat (shnum_of a bin) ->
  Z.land (sh_flags (shdr_at a bin k)) SHF_ALLOC <> 0 ->
  addrs_at (fst (place_sections a bin st)) k mod 16 = 0.
Proof.
  intros H0 Hfit Hc Hu Hk Hal.
  destruct (place_prefix st (shnum_of a bin) H0 Hfit (le_n _)) as (_ & _ & _ & _ & Hsec).
  destruct (Hsec k Hk Hal) as (u & Hu1 & _ & _ & Hu4).
  unfold place_sections. rewrite Hu1.
  rewrite Z.add_mod, Hc, (Hu4 Hu) by lia. reflexivity.
Qed.

End Placement.

(** What one iteration of the placement loop does for an allocatable
    section: its base is the bump pointer; a [SHT_NOBITS] section leaves
    the memory as the mapping delivered it, any other section is copied
    from the file byte for byte. *)
Lemma place_section_contents (a : arch) (bin : buffer) (i : Z) (addrs : list Z)
    (st : state) :
  Z.land (sh_flags (shdr_at a bin i)) SHF_ALLOC <> 0 ->
  (Z.to_nat i < List.length addrs)%nat ->
  let shdr := shdr_at a bin i in
  let p := code st + code_used st in
  let r := place_section a bin i (addrs, st) in
  addrs_at (fst r) i = p
  /\ (sh_type shdr = SHT_NOBITS -> forall x, mem (snd r) x = mem st x)
  /\ (sh_type shdr <> SHT_NOBITS ->
      (forall x, p <= x < p + sh_size shdr ->
                 mem (snd r) x = rd8 bin (buf_base bin + sh_offset shdr + (x - p)))
      /\ (forall x, x < p \/ p + sh_size shdr <= x -> mem (snd r) x = mem st x)).
Proof.
  intros Hal Hi shdr p r. subst r. unfold place_section.
  apply Z.eqb_neq in Hal. rewrite Hal. fold shdr. unfold alloc_code. cbn [fst snd].
  split; [unfold addrs_at; now apply nth_upd_nth_same|]. split.
  - intros Hty x. apply Z.eqb_eq in Hty. rewrite Hty. reflexivity.
  - intro Hty. apply Z.eqb_neq in Hty. rewrite Hty.
    cbn [mem set_mem align_code set_code_used]. fold p. unfold memcpy. split.
    + intros x Hx.
      replace ((p <=? x) && (x <? p + sh_size shdr)) with true; [reflexivity|].
      symmetry. apply andb_true_intro. split; [apply Z.leb_le|apply Z.ltb_lt]; lia.
    + intros x Hx.
      replace ((p <=? x) && (x <? p + sh_size shdr)) with false; [reflexivity|].
      symmetry. apply andb_false_iff.
      destruct Hx; [left; apply Z.leb_gt|right; apply Z.ltb_ge]; lia.
Qed.

(** The arena [init] maps is zero-filled. *)
Lemma init_zero (a : arch) (host_mmap : Z -> Z) (st : state) :
  code (init a host_mmap st) <> MAP_FAILED a ->
  forall x, code (init a host_mmap st) <= x
            < code (init a host_mmap st) + arena_capacity ->
            mem (init a host_mmap st) x = 0.
Proof.
  unfold init. destruct (host_mmap arena_capacity =? MAP_FAILED a) eqn:E.
  - apply Z.eqb_eq in E. cbn [code]. contradiction.
  - cbn [code mem]. intros _ x Hx.
    replace ((host_mmap arena_capacity <=? x)
             && (x <? host_mmap arena_capacity + arena_capacity)) with true;
      [reflexivity|].
    symmetry. apply andb_true_intro. split; [apply Z.leb_le|apply Z.ltb_lt]; lia.
Qed.

(** ** Symbol emission (Pass 3) and the addresses [objsym] returns *)

Lemma in_firstn {A : Type} (n : nat) : forall (l : list A) (x : A),
  In x (firstn n l) -> In x l.
Proof.
  induction n as [|n IH]; intros l x H; [destruct H|].
  destruct l as [|y l]; [destruct H|]. destruct H as [H|H]; [left|right]; auto.
Qed.

Lemma sym_fields_nonneg (a : arch) (bin : buffer) (p : Z) :
  0 <= st_shndx (read_sym a bin p) /\ 0 <= st_value (read_sym a bin p).
Proof. destruct a; cbn [read_sym st_shndx st_value]; split; apply rd_range. Qed.

Section Emission.

Variable a : arch.
Variable t : tables.
Variable addrs : list Z.
Variable bin : buffer.
Variable P : Z -> Prop.

(** After the first [n] iterations of the emission loop the entries from
    [n] on are still those of the file, and every record emitted carries
    the address computed from the file's entry. *)
Lemma emit_prefix (st : state) (n : nat) :
  (forall k, 0 <= k < Z.of_nat n ->
     is_func_or_object (sym_at a bin (symtab t) k) = true ->
     P (addrs_at addrs (st_shndx (sym_at a bin (symtab t) k))
        + st_value (sym_at a bin (symtab t) k))) ->
  let r := for_loop n 0 (emit_symbol a t addrs) (bin, [], st) in
  (forall k, Z.of_nat n <= k ->
     sym_at a (fst (fst r)) (symtab t) k = sym_at a bin (symtab t) k)
  /\ (forall s, In s (snd (fst r)) -> P (addr s)).
Proof.
  induction n as [|n IH]; intro HP.
  - cbn. split; [reflexivity|]. intros s [].
  - rewrite for_loop_succ. cbv zeta in IH.
    destruct IH as [Hsame Hin]; [intros k Hk; apply HP; lia|].
    destruct (for_loop n 0 (emit_symbol a t addrs) (bin, [], st)) as [[b syms] s0].
    cbn [fst snd] in Hsame, Hin. unfold emit_symbol.
    rewrite (Hsame (Z.of_nat n)) by lia.
    destruct (is_func_or_object (sym_at a bin (symtab t) (Z.of_nat n))) eqn:E.
    + cbn [malloc fst snd]. split.
      * intros k Hk. rewrite sym_at_wr_other by lia. apply Hsame. lia.
      * intros s Hs. apply in_app_or in Hs. destruct Hs as [Hs|[<-|[]]]; auto.
        cbn [addr]. apply HP; [lia|exact E].
    + cbn [fst snd]. split; auto. intros k Hk. apply Hsame. lia.
Qed.

End Emission.

(** The records are emitted in symbol-table order: their addresses are
    those of the function and data entries of the file, index by index. *)
Lemma emit_order (a : arch) (t : tables) (addrs : list Z) (bin : buffer)
    (st : state) (n : nat) :
  map addr (snd (fst (for_loop n 0 (emit_symbol a t addrs) (bin, [], st))))
  = map (fun k => addrs_at addrs (st_shndx (sym_at a bin (symtab t) k))
                  + st_value (sym_at a bin (symtab t) k))
        (filter (fun k => is_func_or_object (sym_at a bin (symtab t) k)) (indices n)).
Proof.
  induction n as [|n IH]; [reflexivity|].
  rewrite for_loop_succ, indices_succ, filter_app, map_app, <- IH. clear IH.
  destruct (emit_prefix a t addrs bin (fun _ => True) st n (fun _ _ _ => I))
    as [Hsame _].
  destruct (for_loop n 0 (emit_symbol a t addrs) (bin, [], st)) as [[b syms] s0].
  cbn [fst snd] in *. unfold emit_symbol.
  rewrite (Hsame (Z.of_nat n)) by lia. cbn [filter].
  destruct (is_func_or_object (sym_at a bin (symtab t) (Z.of_nat n)));
    cbn [malloc fst snd map]; [|now rewrite app_nil_r].
  rewrite map_app. reflexivity.
Qed.

Section Arena.

Variable a : arch.
Variable dlsym : string -> Z.
Variable host_mmap : Z -> Z.
Variable host_file : string -> file_result.
Variable handle_malloc_fails : bool.

(** C3, as the code has it.  When the allocatable sections of the object
    fit in what is left of the arena (each counted with its padding) and
    every function or data symbol lies inside an allocatable section of the
    object, every address [objsym] returns for the handle lies in the
    arena: [code <= s < code + 1 GiB]. *)
Theorem sym_in_arena
    (filename : string) (flags : Z) (st st0 st' : state)
    (bin : buffer) (blk : nat) (obj h : obj_handle) :
  objopen_acquire a host_mmap host_file handle_malloc_fails filename st
  = inl (bin, blk, obj, st0) ->
  objopen a dlsym host_mmap host_file handle_malloc_fails filename flags st
  = (Some h, st') ->
  0 <= code_used st0 ->
  code_used st0 + arena_demand a bin <= arena_capacity ->
  (forall k, 0 <= k < symnum (find_tables a bin) ->
     is_func_or_object (sym_at a bin (symtab (find_tables a bin)) k) = true ->
     symbol_placed a bin (sym_at a bin (symtab (find_tables a bin)) k)) ->
  forall sym : string,
    objsym h sym = 0
    \/ code st0 <= objsym h sym < code st0 + arena_capacity.
Proof.
  intros Hacq Hopen Hcu Hfit Hplaced sym.
  apply objopen_some in Hopen.
  destruct Hopen as (bin' & blk' & obj' & st0' & l & s1 & rr & s2 & Hacq' & Hlay & _ & -> & _).
  rewrite Hacq in Hacq'. inversion Hacq'. subst bin' blk' obj' st0'. clear Hacq'.
  unfold load_layout in Hlay.
  pose proof (place_prefix a bin st0 (shnum_of a bin) Hcu Hfit (le_n _)) as Hplace.
  cbv zeta in Hplace. fold (place_sections a bin st0) in Hplace.
  destruct (place_sections a bin st0) as [addrs sp]. cbn [fst snd] in Hplace.
  destruct Hplace as (_ & Hcode & Hused & _ & Hsec).
  destruct (malloc sp) as [arr sm].
  pose proof (emit_prefix a (find_tables a bin) addrs bin
                (fun x => code st0 <= x < code st0 + arena_capacity) sm
                (Z.to_nat (symnum (find_tables a bin)))) as Hemit.
  cbv zeta in Hemit.
  destruct (for_loop (Z.to_nat (symnum (find_tables a bin))) 0
              (emit_symbol a (find_tables a bin) addrs) (bin, [], sm))
    as [[b syms] se].
  cbn [fst snd] in Hemit. inversion Hlay. subst l s1. clear Hlay.
  destruct Hemit as [_ Hin].
  { intros k Hk Hfo. destruct (Hplaced k ltac:(lia) Hfo) as (Hidx & Hal & Hval).
    pose proof (sym_fields_nonneg a bin
                  (symtab (find_tables a bin) + sizeof_Sym a * k)) as [Hn1 Hn2].
    fold (sym_at a bin (symtab (find_tables a bin)) k) in Hn1, Hn2.
    destruct (Hsec _ (conj Hn1 Hidx) Hal) as (u & -> & Hu1 & Hu2 & _).
    fold (arena_demand a bin) in Hused. lia. }
  unfold objsym. cbn [l_obj symbols num_symbols].
  match goal with |- context [scan ?l sym] =>
    destruct (scan_in l sym) as [H0|(s & Hs & Hscan)]
  end.
  - left. exact H0.
  - right. rewrite Hscan. apply Hin. eapply in_firstn. exact Hs.
Qed.

End Arena.


(** ** The heap during a load *)

Lemma same_heap_refl (st : state) : same_heap st st.
Proof. unfold same_heap. auto. Qed.

Lemma same_heap_trans (st1 st2 st3 : state) :
  same_heap st1 st2 -> same_heap st2 st3 -> same_heap st1 st3.
Proof.
  unfold same_heap. intros (A1 & A2 & A3 & A4) (B1 & B2 & B3 & B4).
  repeat split; congruence.
Qed.

#[local] Hint Resolve same_heap_refl : core.

Lemma for_loop_invariant {A : Type} (P : A -> Prop) (body : Z -> A -> A) :
  (forall i s, P s -> P (body i s)) ->
  forall (n : nat) (i : Z) (s : A), P s -> P (for_loop n i body s).
Proof.
  intros Hbody n. induction n as [|n IH]; intros i s Hs; cbn [for_loop]; auto.
Qed.

Lemma for_try_invariant {A : Type} (P : state -> Prop)
    (body : Z -> A -> state -> outcome A * state) :
  (forall i s st, P st -> P (snd (body i s st))) ->
  forall (n : nat) (i : Z) (s : A) (st : state),
    P st -> P (snd (for_try n i body s st)).
Proof.
  intros Hbody n. induction n as [|n IH]; intros i s st Hst; cbn [for_try]; auto.
  specialize (Hbody i s st Hst).
  destruct (body i s st) as [[s1|] st1]; cbn [snd] in *; auto.
Qed.

Section Heap.

Variable a : arch.
Variable dlsym : string -> Z.

Lemma sym_dispatch_heap (bin : buffer) (strtab : Z) (addrs : list Z)
    (sym : Elf_Sym) (st : state) :
  same_heap st (snd (sym_dispatch dlsym bin strtab addrs sym st)).
Proof.
  unfold sym_dispatch.
  repeat case_if; cbn [snd]; unfold same_heap; auto.
Qed.

Lemma reloc_apply_heap (cso : bool) (rtype target S addend cs : Z) (st : state) :
  same_heap st (snd (reloc_apply a cso rtype target S addend cs st)).
Proof.
  unfold reloc_apply. destruct a;
    repeat case_if; cbn [snd]; unfold same_heap; auto.
Qed.

Lemma relocate_heap (bin : buffer) (symtab strtab : Z) (addrs : list Z)
    (cso : bool) (st : state) :
  same_heap st (snd (relocate a dlsym bin symtab strtab addrs cso st)).
Proof.
  unfold relocate, relocate_loop.
  match goal with
  | |- same_heap _ (snd (let (_, _) := ?x in _)) =>
      assert (H : same_heap st (snd x)); [|destruct x as [[cs|] st1]; exact H]
  end.
  apply (for_try_invariant (same_heap st)); auto.
  intros i cs st1 H1. unfold relocate_section.
  destruct (walked a bin i); [|exact H1].
  apply (for_try_invariant (same_heap st)); auto.
  intros j cs2 st2 H2. unfold relocate_one. destruct cso.
  - eapply same_heap_trans; [exact H2|apply reloc_apply_heap].
  - pose proof (sym_dispatch_heap bin strtab addrs
                  (sym_of a bin symtab (rel_at a bin (shdr_at a bin i) j)) st2) as Hd.
    destruct (sym_dispatch dlsym bin strtab addrs _ st2) as [[S|] st3]; cbn [snd] in *.
    + eapply same_heap_trans; [exact H2|].
      eapply same_heap_trans; [exact Hd|apply reloc_apply_heap].
    + eapply same_heap_trans; eauto.
Qed.

Lemma place_sections_heap (bin : buffer) (st : state) :
  same_heap st (snd (place_sections a bin st)).
Proof.
  unfold place_sections.
  apply (for_loop_invariant (fun s => same_heap st (snd s))); auto.
  intros i [addrs s] H. cbn [snd] in H. unfold place_section.
  destruct (_ =? 0); [exact H|]. unfold alloc_code, align_code.
  destruct (_ =? SHT_NOBITS); cbn [snd]; exact H.
Qed.

(** The names the emission loop duplicates take consecutive fresh blocks,
    all of them live when the loop ends. *)
Lemma emit_blocks (t : tables) (addrs : list Z) (bin : buffer) (st : state) (n : nat) :
  let r := for_loop n 0 (emit_symbol a t addrs) (bin, [], st) in
  let syms := snd (fst r) in
  map name_block syms = seq (next_block st) (List.length syms)
  /\ live (snd r) = rev (map name_block syms) ++ live st
  /\ next_block (snd r) = (next_block st + List.length syms)%nat
  /\ mapped (snd r) = mapped st /\ code (snd r) = code st.
Proof.
  induction n as [|n IH].
  - cbn. rewrite Nat.add_0_r. auto.
  - rewrite for_loop_succ. cbv zeta in IH.
    destruct (for_loop n 0 (emit_symbol a t addrs) (bin, [], st)) as [[b syms] s0].
    cbn [fst snd] in IH. destruct IH as (Hmap & Hlive & Hnext & Hmp & Hcode).
    unfold emit_symbol. destruct (is_func_or_object _); [|cbn [fst snd]; auto].
    cbn [malloc fst snd live next_block mapped code].
    rewrite !map_app, length_app, rev_app_distr, seq_app. cbn [map List.length rev app name_block seq].
    rewrite Hmap at 1. rewrite Hnext, Hlive, Hmp, Hcode.
    repeat split; auto. lia.
Qed.

(** The counting loop and the emission loop agree. *)
Lemma count_emit (t : tables) (addrs : list Z) (bin : buffer) (st : state) (n : nat) :
  Z.of_nat n < 2 ^ 31 ->
  let syms := snd (fst (for_loop n 0 (emit_symbol a t addrs) (bin, [], st))) in
  for_loop n 0 (count_symbol a bin (symtab t)) 0 = Z.of_nat (List.length syms)
  /\ (List.length syms <= n)%nat.
Proof.
  induction n as [|n IH]; intro Hn; [cbn; auto|].
  rewrite !for_loop_succ. cbv zeta in IH. destruct IH as [IH Hlen]; [lia|].
  rewrite IH.
  pose proof (emit_prefix a t addrs bin (fun _ => True) st n (fun _ _ _ => I))
    as [Hsame _].
  cbv zeta in Hsame.
  destruct (for_loop n 0 (emit_symbol a t addrs) (bin, [], st)) as [[b syms] s0].
  cbn [fst snd] in *. unfold count_symbol, emit_symbol.
  rewrite (Hsame (Z.of_nat n)) by lia.
  destruct (is_func_or_object (sym_at a bin (symtab t) (Z.of_nat n)));
    [|cbn [fst snd]; split; [reflexivity|lia]].
  cbn [malloc fst snd]. rewrite length_app. cbn [List.length].
  unfold to_int, wrap. rewrite Z.mod_small by lia.
  replace (Z.of_nat (List.length syms) + 1 <? 2 ^ 31) with true
    by (symmetry; apply Z.ltb_lt; lia).
  split; lia.
Qed.

End Heap.

Lemma to_int_lt (v : Z) : to_int v < 2 ^ 31.
Proof.
  unfold to_int. pose proof (wrap_range 32 v ltac:(lia)).
  destruct (wrap 32 v <? 2 ^ 31) eqn:E; [apply Z.ltb_lt in E|]; lia.
Qed.

Lemma symnum_lt (a : arch) (bin : buffer) : symnum (find_tables a bin) < 2 ^ 31.
Proof.
  unfold find_tables.
  apply (for_loop_invariant (fun t => symnum t < 2 ^ 31)); [|cbn; lia].
  intros i t Ht. unfold find_tables_step.
  destruct (sh_type (shdr_at a bin i) =? SHT_SYMTAB);
    destruct (_ && _); cbn [symnum]; auto using to_int_lt.
Qed.

Section Close.

Variable a : arch.
Variable dlsym : string -> Z.
Variable host_mmap : Z -> Z.
Variable host_file : string -> file_result.
Variable handle_malloc_fails : bool.

(** The blocks [objopen] holds when it calls [load_object]. *)
Lemma objopen_acquire_blocks (filename : string) (st st0 : state)
    (bin : buffer) (blk : nat) (obj : obj_handle) :
  objopen_acquire a host_mmap host_file handle_malloc_fails filename st
  = inl (bin, blk, obj, st0) ->
  obj = mkHandle (S blk) None [] 0 0 0 0
  /\ next_block st0 = S (S blk)
  /\ In (S blk) (live st0).
Proof.
  unfold objopen_acquire.
  destruct (code (if code st =? 0 then init a host_mmap st else st) =? MAP_FAILED a);
    [discriminate|].
  set (s1 := if code st =? 0 then init a host_mmap st else st).
  unfold read_file.
  destruct (host_file filename) as [e|e|e|e|base bytes]; try discriminate.
  cbn [malloc]. destruct handle_malloc_fails; [discriminate|].
  destruct (magic_ok _); cbn [negb]; [|discriminate].
  intro H. inversion H. subst. cbn. auto.
Qed.

(** The handle [load_object] builds: its records are the emitted ones, all
    of them counted, and their names are live fresh blocks. *)
Lemma load_layout_blocks (obj : obj_handle) (bin : buffer) (st st1 : state)
    (l : layout) :
  num_symbols obj = 0 ->
  load_layout a obj bin st = (l, st1) ->
  num_symbols (l_obj l) = Z.of_nat (List.length (symbols (l_obj l)))
  /\ map name_block (symbols (l_obj l))
     = seq (S (next_block st)) (List.length (symbols (l_obj l)))
  /\ live st1 = rev (map name_block (symbols (l_obj l))) ++ next_block st :: live st
  /\ h_block (l_obj l) = h_block obj /\ h_code (l_obj l) = h_code obj
  /\ mapped st1 = mapped st /\ code st1 = code st.
Proof.
  intros Hzero. unfold load_layout.
  pose proof (place_sections_heap a bin st) as (Hl & Hn & Hm & Hc).
  destruct (place_sections a bin st) as [addrs sp]. cbn [snd] in Hl, Hn, Hm, Hc.
  cbn [malloc].
  pose proof (emit_blocks a (find_tables a bin) addrs bin
                (mkState (code sp) (code_used sp) (obj_error sp) (mem sp) (mapped sp)
                         (next_block sp :: live sp) (S (next_block sp)))
                (Z.to_nat (symnum (find_tables a bin)))) as Hb.
  pose proof (count_emit a (find_tables a bin) addrs bin
                (mkState (code sp) (code_used sp) (obj_error sp) (mem sp) (mapped sp)
                         (next_block sp :: live sp) (S (next_block sp)))
                (Z.to_nat (symnum (find_tables a bin)))) as Hcount.
  cbv zeta in Hb, Hcount.
  destruct (for_loop (Z.to_nat (symnum (find_tables a bin))) 0
              (emit_symbol a (find_tables a bin) addrs) (bin, [], _))
    as [[b syms] se].
  cbn [fst snd live next_block mapped code] in Hb, Hcount.
  destruct Hb as (Hmap & Hlive & _ & Hmp & Hcode).
  destruct Hcount as [Hcount _].
  { pose proof (symnum_lt a bin). lia. }
  intro H. inversion H. subst l st1. cbn [l_obj symbols num_symbols h_block h_code].
  rewrite Hn in Hmap. rewrite Hl, Hn in Hlive.
  repeat split; try congruence.
Qed.

(** The [munmap] branch of [objclose]: a handle that owns a mapping (its
    [code] field is not null) loses it.  No handle [objopen] returns is of
    this kind in this build. *)
Lemma objclose_unmaps_owned (h : obj_handle) (st : state) :
  h_code h <> 0 ->
  ~ In (h_code h, h_code_size h) (mapped (snd (objclose h st))).
Proof.
  intro Hc. unfold objclose. cbn [snd]. apply Z.eqb_neq in Hc. rewrite Hc.
  cbn [free mapped].
  destruct (frame_free_names (firstn (Z.to_nat (num_symbols h)) (symbols h))
                             (munmap st (h_code h) (h_code_size h))) as (H1 & _).
  rewrite H1. cbn [munmap mapped]. intro Hin. apply filter_In in Hin.
  destruct Hin as [_ Hf]. cbn [fst snd] in Hf. rewrite !Z.eqb_refl in Hf.
  discriminate.
Qed.

(** C5, as the code has it.  A handle that [objopen] returned counts all
    its records, and its own block and the blocks of its records' names
    are live and distinct.  [objclose] on it reports success, frees the
    block of every symbol name and the block of the handle, and unmaps
    nothing: the handle's [code] field is null, the shared arena stays
    mapped and its bump pointer stays where it was. *)
Theorem objclose_releases
    (filename : string) (flags : Z) (st st1 : state) (h : obj_handle) :
  objopen a dlsym host_mmap host_file handle_malloc_fails filename flags st
  = (Some h, st1) ->
  let r := objclose h st1 in
  firstn (Z.to_nat (num_symbols h)) (symbols h) = symbols h
  /\ In (h_block h) (live st1)
  /\ (forall s, In s (symbols h) -> In (name_block s) (live st1))
  /\ NoDup (h_block h :: map name_block (symbols h))
  /\ fst r = 0
  /\ ~ In (h_block h) (live (snd r))
  /\ (forall s, In s (symbols h) -> ~ In (name_block s) (live (snd r)))
  /\ h_code h = 0
  /\ mapped (snd r) = mapped st1
  /\ code (snd r) = code st1 /\ code_used (snd r) = code_used st1.
Proof.
  intros Hopen r.
  apply objopen_some in Hopen.
  destruct Hopen as (bin & blk & obj & st0 & l & s1 & rr & s2 & Hacq & Hlay & Hrel & -> & ->).
  apply objopen_acquire_blocks in Hacq. destruct Hacq as (Hobj & Hnext & Hin0).
  apply load_layout_blocks in Hlay; [|rewrite Hobj; reflexivity].
  destruct Hlay as (Hnum & Hmap & Hlive & Hblk & Hcode & _ & _).
  rewrite Hobj in Hblk, Hcode. cbn [h_block h_code] in Hblk, Hcode.
  pose proof (relocate_heap a dlsym (l_bin l) (symtab (l_tables l))
                (strtab (l_tables l)) (l_addrs l) false s1) as (Hl2 & _).
  rewrite Hrel in Hl2. cbn [snd] in Hl2.
  assert (Hfirst : firstn (Z.to_nat (num_symbols (l_obj l))) (symbols (l_obj l))
                   = symbols (l_obj l)).
  { rewrite Hnum, Nat2Z.id. apply firstn_all. }
  assert (Hname : forall s, In s (symbols (l_obj l)) ->
            (S (S blk) < name_block s)%nat /\ In (name_block s) (live s2)).
  { intros s Hs. apply (in_map name_block) in Hs. split.
    - rewrite Hmap, Hnext in Hs. apply in_seq in Hs. lia.
    - rewrite Hl2, Hlive. apply in_or_app. left. now apply -> in_rev. }
  subst r. unfold objclose. rewrite Hcode, Hfirst, Hblk. cbn [Z.eqb fst snd].
  destruct (frame_free_names (symbols (l_obj l)) (free s2 blk)) as (H1 & H2 & H3 & _).
  repeat split; auto.
  - cbn [free live]. apply in_in_remove; [lia|].
    rewrite Hl2, Hlive. apply in_or_app. right. right. exact Hin0.
  - intros s Hs. destruct (Hname s Hs) as [Hgt Hlv].
    cbn [free live]. apply in_in_remove; [lia|exact Hlv].
  - constructor.
    + rewrite Hmap, Hnext. intro Hin. apply in_seq in Hin. lia.
    + rewrite Hmap. apply seq_NoDup.
  - apply not_in_free.
  - intros s Hs. apply not_in_free_other. now apply names_freed.
Qed.

End Close.

(** On 32-bit x86 only [R_386_32] and [R_386_PC32] are handled: a
    [R_386_PLT32] record (type 4) is an unknown relocation. *)
Example i386_plt32_is_unknown (target S addend cs : Z) (st : state) :
  reloc_apply I386 false 4 target S addend cs st
  = (Fail, set_error st "Unknown reloc: 4").
Proof. reflexivity. Qed.

(** ** The sample objects, run *)

(** [hello.o]: the PLT32 record against [strlen] in both modes. *)
Lemma plt32_trampoline_witness :
  (ELF_R_TYPE X86_64
     (r_info (rel_at X86_64 Sample.hello_bin (shdr_at X86_64 Sample.hello_bin 2) 0))
   = R_X86_64_PLT32)
  /\ (exists st',
        relocate_one X86_64 Sample.resolver Sample.hello_bin Sample.hello_symtab
          Sample.hello_strtab Sample.hello_addrs false
          (shdr_at X86_64 Sample.hello_bin 2) 0 0 Sample.hello_placed = (Done 0, st')
        /\ code_used st' = 30
        /\ bytes_at (mem st') (Sample.arena + 16) 14
           = [255; 37; 0; 0; 0; 0; 0; 64; 222; 247; 255; 127; 0; 0])
  /\ relocate_one X86_64 Sample.resolver Sample.hello_bin Sample.hello_symtab
       Sample.hello_strtab Sample.hello_addrs true
       (shdr_at X86_64 Sample.hello_bin 2) 0 0 Sample.hello_placed
     = (Done 14, Sample.hello_placed).
Proof.
  assert (Hty : ELF_R_TYPE X86_64
            (r_info (rel_at X86_64 Sample.hello_bin (shdr_at X86_64 Sample.hello_bin 2) 0))
          = R_X86_64_PLT32) by (vm_compute; reflexivity).
  split; [exact Hty|].
  destruct (plt32_trampoline Sample.resolver Sample.hello_bin Sample.hello_symtab
              Sample.hello_strtab Sample.hello_addrs
              (shdr_at X86_64 Sample.hello_bin 2) 0 0 Sample.strlen_addr
              Sample.hello_placed Hty)
    as [(m1 & st' & Hone & _ & Hused & _ & _ & _ & _ & _ & Hfar) Hsize];
    [vm_compute; reflexivity|].
  split; [|exact Hsize].
  exists st'. split; [exact Hone|]. split; [exact Hused|].
  destruct Hfar as [Hb _]; [vm_compute; left; discriminate|]. exact Hb.
Defined.

Lemma acquired_inl (filename : string) (st : state) :
  Sample.acquires filename st = true ->
  Sample.acquire filename st
  = inl (Sample.bin_of filename st, Sample.blk_of filename st,
         Sample.obj_of filename st, Sample.st_of filename st).
Proof.
  unfold Sample.acquires, Sample.bin_of, Sample.blk_of, Sample.obj_of, Sample.st_of,
    Sample.acquired.
  destruct (Sample.acquire filename st) as [[[[b k] o] s]|s];
    [reflexivity|discriminate].
Qed.

Lemma pair_fst {A B : Type} (x : A * B) (y : A) : fst x = y -> x = (y, snd x).
Proof. intros <-. apply surjective_pairing. Qed.

(** [missing.o] (scenario S6): the only relocation is reached first and
    its symbol does not resolve. *)
Lemma unresolved_external_fails_witness :
  fst (Sample.open "missing.o" Sample.boot) = None
  /\ objerror (snd (Sample.open "missing.o" Sample.boot))
     = "failed to resolve totally_unknown_sym"%string.
Proof.
  assert (Hacq : Sample.acquires "missing.o" Sample.boot = true)
    by (vm_compute; reflexivity).
  pose proof (unresolved_external_fails X86_64 Sample.resolver Sample.host_mmap
                Sample.files false "missing.o" 0 Sample.boot
                (Sample.st_of "missing.o" Sample.boot)
                (snd (Sample.laid_out "missing.o" Sample.boot))
                (Sample.bin_of "missing.o" Sample.boot)
                (Sample.blk_of "missing.o" Sample.boot)
                (Sample.obj_of "missing.o" Sample.boot)
                (fst (Sample.laid_out "missing.o" Sample.boot))
                2 0 (acquired_inl "missing.o" Sample.boot Hacq)
                (surjective_pairing _)) as H.
  destruct H as [_ H].
  - unfold reaches. split; [vm_compute; split; [discriminate|reflexivity]|].
    split; [vm_compute; reflexivity|].
    split; [vm_compute; split; [discriminate|reflexivity]|].
    exists 0. vm_compute. reflexivity.
  - vm_compute. reflexivity.
  - vm_compute. reflexivity.
  - destruct H as [H1 H2]; [vm_compute; reflexivity|].
    split; [exact H1|]. unfold Sample.open. rewrite H2. vm_compute. reflexivity.
Defined.

(** [unknown.o]: a relocation of type 99 against [strlen], which
    resolves. *)
Lemma unknown_reloc_fails_witness :
  fst (Sample.open "unknown.o" Sample.boot) = None
  /\ objerror (snd (Sample.open "unknown.o" Sample.boot))
     = "Unknown reloc: 99"%string.
Proof.
  assert (Hacq : Sample.acquires "unknown.o" Sample.boot = true)
    by (vm_compute; reflexivity).
  pose proof (unknown_reloc_fails X86_64 Sample.resolver Sample.host_mmap
                Sample.files false "unknown.o" 0 Sample.boot
                (Sample.st_of "unknown.o" Sample.boot)
                (snd (Sample.laid_out "unknown.o" Sample.boot))
                (Sample.bin_of "unknown.o" Sample.boot)
                (Sample.blk_of "unknown.o" Sample.boot)
                (Sample.obj_of "unknown.o" Sample.boot)
                (fst (Sample.laid_out "unknown.o" Sample.boot))
                2 0 Sample.strlen_addr (acquired_inl "unknown.o" Sample.boot Hacq)
                (surjective_pairing _)) as H.
  destruct H as [H1 H2].
  - unfold reaches. split; [vm_compute; split; [discriminate|reflexivity]|].
    split; [vm_compute; reflexivity|].
    split; [vm_compute; split; [discriminate|reflexivity]|].
    exists 0. vm_compute. reflexivity.
  - vm_compute. reflexivity.
  - vm_compute. reflexivity.
  - split; [exact H1|]. unfold Sample.open. rewrite H2. vm_compute. reflexivity.
Defined.

(** [badreloc.o]: its one relocation has the unknown type 99 and a symbol
    that does not resolve; the symbol is looked at first, so the error slot
    names the symbol, not the relocation type. *)
Lemma symbol_error_comes_first :
  walked_types X86_64 (Sample.bin_of "badreloc.o" Sample.boot) = [99]
  /\ known_reloc X86_64 99 = false
  /\ fst (Sample.open "badreloc.o" Sample.boot) = None
  /\ objerror (snd (Sample.open "badreloc.o" Sample.boot))
     = "failed to resolve totally_unknown_sym"%string
  /\ objerror (snd (Sample.open "badreloc.o" Sample.boot))
     <> ("Unknown reloc: " ++ dec 99)%string.
Proof.
  repeat apply conj; try (vm_compute; reflexivity).
  vm_compute. discriminate.
Qed.

Lemma opened_some (filename : string) (st : state) :
  Sample.opens filename st = true ->
  Sample.open filename st
  = (Some (Sample.handle_of filename st), snd (Sample.open filename st)).
Proof.
  intro H. apply pair_fst. unfold Sample.opens in H. unfold Sample.handle_of.
  destruct (fst (Sample.open filename st)); [reflexivity|discriminate].
Qed.

(** [hello.o] (scenario S3) in a fresh process: it fits, its one function
    symbol lies in [.text], and [hello] is found inside the arena. *)
Lemma sym_in_arena_witness :
  objsym (Sample.handle_of "hello.o" Sample.boot) "hello" = Sample.arena
  /\ (objsym (Sample.handle_of "hello.o" Sample.boot) "hello" = 0
      \/ code (Sample.st_of "hello.o" Sample.boot)
         <= objsym (Sample.handle_of "hello.o" Sample.boot) "hello"
         < code (Sample.st_of "hello.o" Sample.boot) + arena_capacity).
Proof.
  split; [vm_compute; reflexivity|].
  assert (Hacq : Sample.acquires "hello.o" Sample.boot = true)
    by (vm_compute; reflexivity).
  assert (Hopen : Sample.opens "hello.o" Sample.boot = true)
    by (vm_compute; reflexivity).
  assert (Hn : symnum (find_tables X86_64 (Sample.bin_of "hello.o" Sample.boot)) = 3)
    by (vm_compute; reflexivity).
  apply (sym_in_arena X86_64 Sample.resolver Sample.host_mmap Sample.files false
           "hello.o" 0 Sample.boot (Sample.st_of "hello.o" Sample.boot)
           (snd (Sample.open "hello.o" Sample.boot))
           (Sample.bin_of "hello.o" Sample.boot) (Sample.blk_of "hello.o" Sample.boot)
           (Sample.obj_of "hello.o" Sample.boot)
           (Sample.handle_of "hello.o" Sample.boot)
           (acquired_inl "hello.o" Sample.boot Hacq)
           (opened_some "hello.o" Sample.boot Hopen)).
  - vm_compute. discriminate.
  - vm_compute. discriminate.
  - intros k Hk Hfo. rewrite Hn in Hk.
    assert (Hcases : k = 0 \/ k = 1 \/ k = 2) by lia.
    destruct Hcases as [->|[->| ->]].
    + vm_compute in Hfo. discriminate.
    + vm_compute. repeat split; discriminate.
    + vm_compute in Hfo. discriminate.
Defined.

(** [bigbss.o]: the object is accepted, and [objsym] returns for [after]
    the address one past the end of the arena.  [stray.o]: the object is
    accepted and fits, and [objsym] returns 8 for [stray], whose section is
    not placed, and an address 1 GiB past the arena base for [far], whose
    value is beyond its section. *)
Lemma sym_outside_arena :
  (fst (Sample.open "bigbss.o" Sample.boot)
   = Some (Sample.handle_of "bigbss.o" Sample.boot)
   /\ code (snd (Sample.open "bigbss.o" Sample.boot)) = Sample.arena
   /\ objsym (Sample.handle_of "bigbss.o" Sample.boot) "after"
      = Sample.arena + arena_capacity
   /\ ~ (Sample.arena <= objsym (Sample.handle_of "bigbss.o" Sample.boot) "after"
         < Sample.arena + arena_capacity))
  /\ (fst (Sample.open "stray.o" Sample.boot)
      = Some (Sample.handle_of "stray.o" Sample.boot)
      /\ code_used (snd (Sample.open "stray.o" Sample.boot)) = 16
      /\ objsym (Sample.handle_of "stray.o" Sample.boot) "stray" = 8
      /\ objsym (Sample.handle_of "stray.o" Sample.boot) "far"
         = Sample.arena + arena_capacity).
Proof.
  repeat apply conj; try (vm_compute; reflexivity).
  vm_compute. intros [_ H]. discriminate H.
Qed.

(** [hello.o] opened in a fresh process and closed again. *)
Lemma objclose_releases_witness :
  let h := Sample.handle_of "hello.o" Sample.boot in
  let st1 := snd (Sample.open "hello.o" Sample.boot) in
  firstn (Z.to_nat (num_symbols h)) (symbols h) = symbols h
  /\ In (h_block h) (live st1)
  /\ (forall s, In s (symbols h) -> In (name_block s) (live st1))
  /\ NoDup (h_block h :: map name_block (symbols h))
  /\ fst (objclose h st1) = 0
  /\ ~ In (h_block h) (live (snd (objclose h st1)))
  /\ (forall s, In s (symbols h) -> ~ In (name_block s) (live (snd (objclose h st1))))
  /\ h_code h = 0
  /\ mapped (snd (objclose h st1)) = mapped st1
  /\ code (snd (objclose h st1)) = code st1
  /\ code_used (snd (objclose h st1)) = code_used st1.
Proof.
  assert (Hopen : Sample.opens "hello.o" Sample.boot = true)
    by (vm_compute; reflexivity).
  exact (objclose_releases X86_64 Sample.resolver Sample.host_mmap Sample.files false
           "hello.o" 0 Sample.boot (snd (Sample.open "hello.o" Sample.boot))
           (Sample.handle_of "hello.o" Sample.boot)
           (opened_some "hello.o" Sample.boot Hopen)).
Defined.

(** After [hello.o] is opened and closed, the region that holds its code
    is still mapped, the address [objsym] gave for [hello] is still inside
    it, and the 30 bytes the object took from the arena are not given
    back. *)
Lemma arena_stays_mapped :
  let h := Sample.handle_of "hello.o" Sample.boot in
  let st1 := snd (Sample.open "hello.o" Sample.boot) in
  let st2 := snd (objclose h st1) in
  fst (Sample.open "hello.o" Sample.boot) = Some h
  /\ objsym h "hello" = Sample.arena
  /\ mapped st1 = [(Sample.arena, arena_capacity)]
  /\ mapped st2 = [(Sample.arena, arena_capacity)]
  /\ In (Sample.arena, arena_capacity) (mapped st2)
  /\ code_used st1 = 30 /\ code_used st2 = 30.
Proof.
  intros. do 4 (split; [vm_compute; reflexivity|]).
  split; [vm_compute; left; reflexivity|].
  split; vm_compute; reflexivity.
Qed.

(** [notes.txt] is not an object. *)
Lemma magic_is_validated_witness :
  fst (Sample.open "notes.txt" Sample.boot) = None
  /\ objerror (snd (Sample.open "notes.txt" Sample.boot))
     = "notes.txt is not ELF"%string.
Proof.
  refine (proj1 (magic_is_validated X86_64 Sample.resolver Sample.host_mmap
                   Sample.files false "notes.txt" 0 Sample.boot
                   (snd (read_file Sample.files "notes.txt"
                           (init X86_64 Sample.host_mmap Sample.boot)))
                   (mkBuffer 20480 Sample.notes_txt) 0 _ _ eq_refl) _).
  - vm_compute. discriminate.
  - apply pair_fst. vm_compute. reflexivity.
  - vm_compute. discriminate.
Defined.

(** [class32.o] carries the class byte of a 32-bit object; the 64-bit
    loader accepts it and sets no error. *)
Lemma class_is_not_checked :
  ptr_bits X86_64 = 64
  /\ rd8 (Sample.bin_of "class32.o" Sample.boot)
         (buf_base (Sample.bin_of "class32.o" Sample.boot) + EI_CLASS) = ELFCLASS32
  /\ fst (Sample.open "class32.o" Sample.boot)
     = Some (Sample.handle_of "class32.o" Sample.boot)
  /\ objsym (Sample.handle_of "class32.o" Sample.boot) "hello" = Sample.arena
  /\ objerror (snd (Sample.open "class32.o" Sample.boot)) = EmptyString.
Proof. intros. repeat apply conj; vm_compute; reflexivity. Qed.

(** C4, where the code departs from it.  [hello.o] loaded twice: the first
    load leaves the bump pointer at 30 (16 bytes of [.text], then a 14-byte
    trampoline), and the second load places [.text] at [arena + 30], which
    is not a multiple of 16 although the arena is. *)
Theorem second_load_is_misaligned :
  let st1 := snd (Sample.open "hello.o" Sample.boot) in
  let l2 := fst (Sample.laid_out "hello.o" st1) in
  Sample.arena mod 16 = 0
  /\ addrs_at (l_addrs (fst (Sample.laid_out "hello.o" Sample.boot))) 1 = Sample.arena
  /\ code_used st1 = 30
  /\ addrs_at (l_addrs l2) 1 = Sample.arena + 30
  /\ addrs_at (l_addrs l2) 1 mod 16 = 14
  /\ objsym (Sample.handle_of "hello.o" st1) "hello" = Sample.arena + 30.
Proof. intros. repeat apply conj; vm_compute; reflexivity. Qed.

(** C9, where the code departs from it.  [long.o] references an undefined
    symbol with a name of 300 characters: [sprintf] stores the whole
    message, 319 bytes, from the start of the 256-byte [obj_error]. *)
Theorem long_message_overflows :
  fst (Sample.open "long.o" Sample.boot) = None
  /\ objerror (snd (Sample.open "long.o" Sample.boot))
     = ("failed to resolve " ++ Sample.long_name)%string
  /\ sprintf_bytes (objerror (snd (Sample.open "long.o" Sample.boot))) = 319
  /\ obj_error_size < sprintf_bytes (objerror (snd (Sample.open "long.o" Sample.boot))).
Proof. intros. repeat apply conj; vm_compute; reflexivity. Qed.

(** Two records of one name: the first one answers. *)
Example objsym_duplicate_names :
  objsym (mkHandle 0 None
            [mkSymbol 1 "f" 4096; mkSymbol 2 "g" 4112; mkSymbol 3 "f" 4128] 3 0 0 0)
         "f" = 4096
  /\ objsym (mkHandle 0 None
               [mkSymbol 1 "f" 4096; mkSymbol 2 "g" 4112; mkSymbol 3 "f" 4128] 3 0 0 0)
            "h" = 0.
Proof. split; reflexivity. Qed.

(** Sizing-only runs: [hello.o] asks for one trampoline; so does
    [missing.o], whose symbol would not resolve; [unknown.o] fails on its
    relocation type. *)
Example sizing_only_runs :
  fst (relocate X86_64 Sample.resolver (Sample.bin_of "hello.o" Sample.boot)
         0 0 [] true Sample.boot) = 14
  /\ fst (relocate X86_64 Sample.resolver (Sample.bin_of "missing.o" Sample.boot)
            0 0 [] true Sample.boot) = 14
  /\ fst (relocate X86_64 Sample.resolver (Sample.bin_of "unknown.o" Sample.boot)
            0 0 [] true Sample.boot) = SIZE_MAX X86_64
  /\ obj_error (snd (relocate X86_64 Sample.resolver
                       (Sample.bin_of "unknown.o" Sample.boot) 0 0 [] true Sample.boot))
     = "Unknown reloc: 99"%string.
Proof. repeat apply conj; vm_compute; reflexivity. Qed.

(** * Further properties of the code *)

(** ** Alignment to any power of two *)

Lemma align_down_pow2 (a : arch) (w k : Z) :
  0 <= k -> 0 <= w < 2 ^ ptr_bits a ->
  align_down a w (2 ^ k) = w / 2 ^ k * 2 ^ k.
Proof.
  intros Hk Hw. pose proof (ptr_bits_pos a) as Hb.
  unfold align_down, to_size, wrap.
  transitivity (Z.ldiff w (Z.ones k)).
  - apply Z.bits_inj'. intros n Hn.
    rewrite Z.land_spec, Z.ldiff_spec, Z.testbit_mod_pow2 by lia.
    rewrite Z.lnot_spec by lia.
    replace (2 ^ k - 1) with (Z.ones k) by (rewrite Z.ones_equiv; lia).
    destruct (n <? ptr_bits a) eqn:E; [reflexivity|].
    apply Z.ltb_ge in E. cbn [andb].
    rewrite <- (Z.mod_small w (2 ^ ptr_bits a)) by lia.
    rewrite Z.mod_pow2_bits_high by lia. reflexivity.
  - rewrite Z.ldiff_ones_r, Z.shiftl_mul_pow2, Z.shiftr_div_pow2 by lia.
    reflexivity.
Qed.

(** X1.  [align_down] and [align_up] to a power of two [2^k], for a value
    that the padding keeps inside the range of [size_t]: [align_down]
    subtracts the remainder modulo [2^k]; [align_up] is the least multiple
    of [2^k] that is not below the value; a multiple of [2^k] is left as it
    is by both, and [align_up] is idempotent. *)
Theorem align_pow2 (a : arch) (v k : Z) :
  0 <= k -> 0 <= v -> v + 2 ^ k - 1 < 2 ^ ptr_bits a ->
  align_down a v (2 ^ k) = v - v mod 2 ^ k
  /\ align_down a v (2 ^ k) mod 2 ^ k = 0
  /\ v <= align_up a v (2 ^ k) < v + 2 ^ k
  /\ align_up a v (2 ^ k) mod 2 ^ k = 0
  /\ (v mod 2 ^ k = 0 -> align_up a v (2 ^ k) = v /\ align_down a v (2 ^ k) = v)
  /\ align_up a (align_up a v (2 ^ k)) (2 ^ k) = align_up a v (2 ^ k).
Proof.
  intros Hk H0 H1.
  assert (Hp : 0 < 2 ^ k) by (apply Z.pow_pos_nonneg; lia).
  assert (Hd : align_down a v (2 ^ k) = v - v mod 2 ^ k).
  { rewrite align_down_pow2 by lia.
    pose proof (Z.div_mod v (2 ^ k) ltac:(lia)). lia. }
  assert (Hup : forall u, 0 <= u -> u + 2 ^ k - 1 < 2 ^ ptr_bits a ->
            align_up a u (2 ^ k) = (u + 2 ^ k - 1) / 2 ^ k * 2 ^ k).
  { intros u Hu0 Hu1. unfold align_up, to_size. rewrite wrap_small by lia.
    apply align_down_pow2; lia. }
  pose proof (Z.div_mod (v + 2 ^ k - 1) (2 ^ k) ltac:(lia)) as Hdm.
  pose proof (Z.mod_pos_bound (v + 2 ^ k - 1) (2 ^ k) Hp) as Hm.
  pose proof (Z.mod_pos_bound v (2 ^ k) Hp) as Hmv.
  assert (Hr : v <= align_up a v (2 ^ k) < v + 2 ^ k) by (rewrite Hup by lia; lia).
  assert (Hz : align_up a v (2 ^ k) mod 2 ^ k = 0)
    by (rewrite Hup by lia; apply Z_mod_mult).
  assert (Hfix : forall u, 0 <= u -> u + 2 ^ k - 1 < 2 ^ ptr_bits a ->
            u mod 2 ^ k = 0 -> align_up a u (2 ^ k) = u).
  { intros u Hu0 Hu1 Hu. rewrite Hup by lia.
    apply Z.mod_divide in Hu; [|lia]. destruct Hu as [q ->].
    replace (q * 2 ^ k + 2 ^ k - 1) with (2 ^ k - 1 + q * 2 ^ k) by lia.
    rewrite Z.div_add, Z.div_small by lia. lia. }
  repeat split; try lia; auto.
  - rewrite align_down_pow2 by lia. apply Z_mod_mult.
  - apply Hfix; [lia| |exact Hz].
    rewrite Hup in * by lia.
    assert (Hle : (v + 2 ^ k - 1) / 2 ^ k * 2 ^ k <= v + 2 ^ k - 1) by lia.
    (* an aligned value below the limit leaves room for the padding *)
    pose proof (Z.pow_le_mono_r 2 k (ptr_bits a)) as Hmono.
    destruct (Z_le_gt_dec k (ptr_bits a)) as [Hkb|Hkb].
    + assert (Hq : 2 ^ ptr_bits a = 2 ^ (ptr_bits a - k) * 2 ^ k).
      { rewrite <- Z.pow_add_r by lia. f_equal. lia. }
      set (q := (v + 2 ^ k - 1) / 2 ^ k) in *.
      set (P := 2 ^ (ptr_bits a - k)) in *.
      clearbody q P.
      assert (Hqp : q < P).
      { apply Z.nle_gt. intro Hge.
        pose proof (Z.mul_le_mono_nonneg_r P q (2 ^ k) (Z.lt_le_incl _ _ Hp) Hge). lia. }
      assert (Hq1 : q + 1 <= P) by lia.
      pose proof (Z.mul_le_mono_nonneg_r (q + 1) P (2 ^ k) (Z.lt_le_incl _ _ Hp) Hq1).
      lia.
    + assert (2 ^ ptr_bits a <= 2 ^ k) by (apply Z.pow_le_mono_r; lia).
      rewrite Z.div_small by lia. lia.
Qed.

(** X2.  [align_up] wraps around: a value so close to the top of the
    [size_t] range that adding [2^k - 1] leaves it rounds up to 0. *)
Theorem align_up_wraps (a : arch) (v k : Z) :
  0 <= k <= ptr_bits a -> v < 2 ^ ptr_bits a -> 2 ^ ptr_bits a <= v + 2 ^ k - 1 ->
  align_up a v (2 ^ k) = 0.
Proof.
  intros Hk H0 H1.
  assert (Hp : 0 < 2 ^ k) by (apply Z.pow_pos_nonneg; lia).
  assert (Hle : 2 ^ k <= 2 ^ ptr_bits a) by (apply Z.pow_le_mono_r; lia).
  unfold align_up.
  assert (Hw : to_size a (v + 2 ^ k - 1) = v + 2 ^ k - 1 - 2 ^ ptr_bits a).
  { unfold to_size, wrap.
    replace (v + 2 ^ k - 1) with ((v + 2 ^ k - 1 - 2 ^ ptr_bits a) + 1 * 2 ^ ptr_bits a) by lia.
    rewrite Z.mod_add, Z.mod_small; lia. }
  rewrite Hw, align_down_pow2 by lia.
  rewrite Z.div_small by lia. reflexivity.
Qed.

(** ** Relocations applied in place *)

Lemma load_add_at (n : nat) (m : memory) (p v : Z) :
  load n (add_at n m p v) p = (load n m p + v) mod 256 ^ Z.of_nat n.
Proof. unfold add_at. apply load_store_same. Qed.

Lemma add_at_other (n : nat) (m : memory) (p v x : Z) :
  x < p \/ p + Z.of_nat n <= x -> add_at n m p v x = m x.
Proof. intro H. unfold add_at. now apply store_other. Qed.

Lemma relocate_one_sizing (a : arch) (dlsym : string -> Z) (bin : buffer)
    (symtab strtab : Z) (addrs : list Z) (shdr : Elf_Shdr) (j cs : Z) (st : state) :
  relocate_one a dlsym bin symtab strtab addrs true shdr j cs st
  = reloc_apply a true (ELF_R_TYPE a (r_info (rel_at a bin shdr j)))
      (addrs_at addrs (sh_info shdr) + r_offset (rel_at a bin shdr j)) 0
      (if is_rela shdr then to_int (r_addend (rel_at a bin shdr j)) else 0) cs st.
Proof. reflexivity. Qed.

Lemma relocate_one_applying (a : arch) (dlsym : string -> Z) (bin : buffer)
    (symtab strtab : Z) (addrs : list Z) (shdr : Elf_Shdr) (j cs S : Z) (st : state) :
  fst (sym_dispatch dlsym bin strtab addrs (sym_of a bin symtab (rel_at a bin shdr j)) st)
  = Done S ->
  relocate_one a dlsym bin symtab strtab addrs false shdr j cs st
  = reloc_apply a false (ELF_R_TYPE a (r_info (rel_at a bin shdr j)))
      (addrs_at addrs (sh_info shdr) + r_offset (rel_at a bin shdr j)) S
      (if is_rela shdr then to_int (r_addend (rel_at a bin shdr j)) else 0) cs st.
Proof.
  intro HS. unfold relocate_one.
  destruct (sym_dispatch dlsym bin strtab addrs _ st) as [[S'|] st1] eqn:E;
    cbn [fst] in HS; [|discriminate].
  injection HS as ->. apply sym_dispatch_done in E. now subst st1.
Qed.

(** X3.  The absolute relocation of the architecture ([R_X86_64_64],
    [R_386_32]) whose symbol resolves to [S] adds [S + addend] to the
    pointer-sized word at the target, modulo the word size; it changes no
    other byte and nothing else of the state, and takes nothing from the
    arena.  With [code_size_only] set it does nothing. *)
Theorem absolute_reloc_in_place
    (a : arch) (dlsym : string -> Z) (bin : buffer) (symtab strtab : Z)
    (addrs : list Z) (shdr : Elf_Shdr) (j cs S : Z) (st : state) :
  let rel := rel_at a bin shdr j in
  let target := addrs_at addrs (sh_info shdr) + r_offset rel in
  let addend := if is_rela shdr then to_int (r_addend rel) else 0 in
  ELF_R_TYPE a (r_info rel)
  = match a with X86_64 => R_X86_64_64 | I386 => R_386_32 end ->
  fst (sym_dispatch dlsym bin strtab addrs (sym_of a bin symtab rel) st) = Done S ->
  (exists m' : memory,
      relocate_one a dlsym bin symtab strtab addrs false shdr j cs st
      = (Done cs, set_mem st m')
      /\ load (ptr_bytes a) m' target
         = wrap (ptr_bits a) (load (ptr_bytes a) (mem st) target + S + addend)
      /\ forall x, x < target \/ target + Z.of_nat (ptr_bytes a) <= x ->
                   m' x = mem st x)
  /\ relocate_one a dlsym bin symtab strtab addrs true shdr j cs st = (Done cs, st).
Proof.
  intros rel target addend Hty HS. split.
  - rewrite (relocate_one_applying a dlsym bin symtab strtab addrs shdr j cs S st HS).
    fold rel. fold target. fold addend. rewrite Hty.
    destruct a; cbn [reloc_apply Z.eqb R_X86_64_64 R_386_32 Pos.eqb ptr_bytes ptr_bits].
    + exists (add_at 8 (mem st) target (S + addend)).
      split; [reflexivity|]. split.
      * rewrite load_add_at. unfold wrap. f_equal. lia.
      * intros x Hx. now apply add_at_other.
    + exists (add_at 4 (mem st) target (wrap 32 S + addend)).
      split; [reflexivity|]. split.
      * rewrite load_add_at. unfold wrap.
        change (256 ^ Z.of_nat 4) with (2 ^ 32).
        replace (load 4 (mem st) target + (S mod 2 ^ 32 + addend))
          with (S mod 2 ^ 32 + (load 4 (mem st) target + addend)) by lia.
        rewrite Z.add_mod_idemp_l by lia. f_equal. lia.
      * intros x Hx. now apply add_at_other.
  - rewrite relocate_one_sizing. fold rel. rewrite Hty. destruct a; reflexivity.
Qed.

(** X4.  The PC-relative relocation ([R_X86_64_PC32], [R_386_PC32]) whose
    symbol resolves to [S] adds [(S - target) + addend] to the 32-bit word
    at the target, modulo 2^32; it changes no other byte and nothing else
    of the state.  With [code_size_only] set it does nothing. *)
Theorem pc_relative_reloc_in_place
    (a : arch) (dlsym : string -> Z) (bin : buffer) (symtab strtab : Z)
    (addrs : list Z) (shdr : Elf_Shdr) (j cs S : Z) (st : state) :
  let rel := rel_at a bin shdr j in
  let target := addrs_at addrs (sh_info shdr) + r_offset rel in
  let addend := if is_rela shdr then to_int (r_addend rel) else 0 in
  ELF_R_TYPE a (r_info rel)
  = match a with X86_64 => R_X86_64_PC32 | I386 => R_386_PC32 end ->
  fst (sym_dispatch dlsym bin strtab addrs (sym_of a bin symtab rel) st) = Done S ->
  (exists m' : memory,
      relocate_one a dlsym bin symtab strtab addrs false shdr j cs st
      = (Done cs, set_mem st m')
      /\ load 4 m' target
         = wrap 32 (load 4 (mem st) target + (S - target) + addend)
      /\ forall x, x < target \/ target + 4 <= x -> m' x = mem st x)
  /\ relocate_one a dlsym bin symtab strtab addrs true shdr j cs st = (Done cs, st).
Proof.
  intros rel target addend Hty HS. split.
  - rewrite (relocate_one_applying a dlsym bin symtab strtab addrs shdr j cs S st HS).
    fold rel. fold target. fold addend. rewrite Hty.
    exists (add_at 4 (mem st) target ((S - target) + addend)).
    split; [destruct a; reflexivity|]. split.
    + rewrite load_add_at. unfold wrap. change (256 ^ Z.of_nat 4) with (2 ^ 32).
      f_equal. lia.
    + intros x Hx. apply add_at_other. change (Z.of_nat 4) with 4. lia.
  - rewrite relocate_one_sizing. fold rel. rewrite Hty. destruct a; reflexivity.
Qed.

Lemma reloc_apply_gotpcrelx (target S addend cs : Z) (st : state) :
  let T := code st + code_used st in
  reloc_apply X86_64 false R_X86_64_REX_GOTPCRELX target S addend cs st
  = (Done cs,
     set_mem (set_code_used st (to_size X86_64 (code_used st + 8)))
             (add_at 4 (store 8 (mem st) T S) target ((T - target) + addend))).
Proof. reflexivity. Qed.

(** X5.  On 64-bit x86, a [R_X86_64_REX_GOTPCRELX] relocation whose symbol
    resolves to [S] takes 8 bytes from the bump pointer, at [T = code +
    code_used], stores [S] there and adds [(T - target) + addend] to the
    32-bit word at the target; bytes outside the slot and the target word
    are unchanged, as are the heap, the mappings and the error slot.  With
    [code_size_only] set the record adds exactly 8 to the size and changes
    nothing. *)
Theorem gotpcrelx_slot
    (dlsym : string -> Z) (bin : buffer) (symtab strtab : Z) (addrs : list Z)
    (shdr : Elf_Shdr) (j cs S : Z) (st : state) :
  let rel := rel_at X86_64 bin shdr j in
  let target := addrs_at addrs (sh_info shdr) + r_offset rel in
  let addend := if is_rela shdr then to_int (r_addend rel) else 0 in
  let T := code st + code_used st in
  ELF_R_TYPE X86_64 (r_info rel) = R_X86_64_REX_GOTPCRELX ->
  fst (sym_dispatch dlsym bin strtab addrs (sym_of X86_64 bin symtab rel) st) = Done S ->
  (exists st' : state,
      relocate_one X86_64 dlsym bin symtab strtab addrs false shdr j cs st
      = (Done cs, st')
      /\ code st' = code st
      /\ code_used st' = to_size X86_64 (code_used st + 8)
      /\ same_heap st st' /\ obj_error st' = obj_error st
      /\ (forall x, (x < T \/ T + 8 <= x) -> (x < target \/ target + 4 <= x) ->
                    mem st' x = mem st x)
      /\ (target + 4 <= T \/ T + 8 <= target ->
          bytes_at (mem st') T 8 = le 8 S
          /\ load 8 (mem st') T = wrap 64 S
          /\ load 4 (mem st') target
             = wrap 32 (load 4 (mem st) target + ((T - target) + addend))))
  /\ relocate_one X86_64 dlsym bin symtab strtab addrs true shdr j cs st
     = (Done (to_size X86_64 (cs + 8)), st).
Proof.
  intros rel target addend T Hty HS. split.
  - rewrite (relocate_one_applying X86_64 dlsym bin symtab strtab addrs shdr j cs S st HS).
    fold rel. fold target. fold addend. rewrite Hty, reloc_apply_gotpcrelx. fold T.
    eexists. split; [reflexivity|].
    cbn [code code_used mem obj_error set_mem set_code_used].
    split; [reflexivity|]. split; [reflexivity|].
    split; [unfold same_heap; cbn; auto|]. split; [reflexivity|]. split.
    + intros x HxT Hxt. rewrite add_at_other by (change (Z.of_nat 4) with 4; lia).
      apply store_other. change (Z.of_nat 8) with 8. lia.
    + intro Hfar.
      assert (Hslot : forall x, T <= x < T + 8 ->
                add_at 4 (store 8 (mem st) T S) target ((T - target) + addend) x
                = store 8 (mem st) T S x).
      { intros x Hx. apply add_at_other. change (Z.of_nat 4) with 4. lia. }
      split; [|split].
      * rewrite <- (bytes_at_store 8 (mem st) T S). apply bytes_at_ext.
        intros x Hx. apply Hslot. change (Z.of_nat 8) with 8 in Hx. lia.
      * rewrite (load_ext 8 _ (store 8 (mem st) T S));
          [|intros x Hx; apply Hslot; change (Z.of_nat 8) with 8 in Hx; lia].
        rewrite load_store_same. reflexivity.
      * rewrite load_add_at. unfold wrap. change (256 ^ Z.of_nat 4) with (2 ^ 32).
        f_equal. f_equal. apply load_ext. intros x Hx. apply store_other.
        change (Z.of_nat 4) with 4 in Hx. change (Z.of_nat 8) with 8. lia.
  - rewrite relocate_one_sizing. fold rel. rewrite Hty. reflexivity.
Qed.

Section Kinds.

Variable a : arch.
Variable dlsym : string -> Z.
Variable host_mmap : Z -> Z.
Variable host_file : string -> file_result.
Variable handle_malloc_fails : bool.

Lemma sym_dispatch_unsupported (bin : buffer) (strtab : Z) (addrs : list Z)
    (sym : Elf_Sym) (st : state) :
  ELF_ST_TYPE (st_info sym) <> STT_SECTION ->
  ELF_ST_TYPE (st_info sym) <> STT_FUNC ->
  ELF_ST_TYPE (st_info sym) <> STT_OBJECT ->
  ELF_ST_TYPE (st_info sym) <> STT_NOTYPE ->
  sym_dispatch dlsym bin strtab addrs sym st
  = (Fail, set_error st ("unsupported relocation sym "
                         ++ dec (ELF_ST_TYPE (st_info sym)))).
Proof.
  intros H1 H2 H3 H4. unfold sym_dispatch.
  apply Z.eqb_neq in H1, H2, H3, H4. rewrite H1, H2, H3, H4. reflexivity.
Qed.

(** X6.  A relocation that [relocate] reaches and whose symbol is neither
    a section, a function, an object nor untyped makes [objopen] return
    [NULL] with the error slot reading "unsupported relocation sym <t>",
    [t] being the symbol type. *)
Theorem unsupported_symbol_fails
    (filename : string) (flags : Z) (st st0 st1 : state)
    (bin : buffer) (blk : nat) (obj : obj_handle) (l : layout) (i j : Z) :
  objopen_acquire a host_mmap host_file handle_malloc_fails filename st
  = inl (bin, blk, obj, st0) ->
  load_layout a obj bin st0 = (l, st1) ->
  reaches a dlsym l st1 i j ->
  let sym := sym_of a (l_bin l) (symtab (l_tables l))
                    (rel_at a (l_bin l) (shdr_at a (l_bin l) i) j) in
  let ty := ELF_ST_TYPE (st_info sym) in
  ty <> STT_SECTION -> ty <> STT_FUNC -> ty <> STT_OBJECT -> ty <> STT_NOTYPE ->
  fst (objopen a dlsym host_mmap host_file handle_malloc_fails filename flags st)
  = None
  /\ objerror (snd (objopen a dlsym host_mmap host_file handle_malloc_fails
                            filename flags st))
     = ("unsupported relocation sym " ++ dec ty)%string.
Proof.
  intros Hacq Hlay Hreach sym ty H1 H2 H3 H4.
  set (st2 := snd (before_record a dlsym l st1 i j)).
  apply (objopen_relocate_fails a dlsym host_mmap host_file handle_malloc_fails
           filename flags st st0 st1
           (set_error st2 ("unsupported relocation sym " ++ dec ty)) bin blk obj l
           Hacq Hlay).
  destruct Hreach as (Hi & Hw & Hj & cs & Hcs).
  apply (relocate_fails_at a dlsym l st1 i j cs _
           (conj Hi (conj Hw (conj Hj (ex_intro _ cs Hcs)))) Hcs).
  unfold relocate_one. fold sym. fold st2.
  rewrite (sym_dispatch_unsupported (l_bin l) (strtab (l_tables l)) (l_addrs l)
             sym st2 H1 H2 H3 H4).
  reflexivity.
Qed.

End Kinds.

(** ** Sections that [relocate] does not walk *)

Lemma for_try_skip {A : Type} (body : Z -> A -> state -> outcome A * state)
    (n : nat) : forall (i : Z) (s : A) (st : state),
  (forall k s1 st1, i <= k < i + Z.of_nat n -> body k s1 st1 = (Done s1, st1)) ->
  for_try n i body s st = (Done s, st).
Proof.
  induction n as [|n IH]; intros i s st H; [reflexivity|].
  cbn [for_try]. rewrite H by lia. apply IH. intros k s1 st1 Hk. apply H. lia.
Qed.

(** X7.  [relocate] only walks relocation sections whose target section
    is allocatable, and only whole records: when every section is skipped
    or holds no record, it returns 0 and leaves the state as it was, in
    both modes and whatever the skipped records contain. *)
Theorem relocate_skips_unwalked
    (a : arch) (dlsym : string -> Z) (bin : buffer) (symtab strtab : Z)
    (addrs : list Z) (code_size_only : bool) (st : state) :
  (forall i, 0 <= i < Z.of_nat (shnum_of a bin) ->
     walked a bin i = false \/ relnum_of a (shdr_at a bin i) <= 0) ->
  relocate a dlsym bin symtab strtab addrs code_size_only st = (0, st).
Proof.
  intro H. unfold relocate, relocate_loop. fold (shnum_of a bin).
  rewrite for_try_skip; [reflexivity|].
  intros k cs st1 Hk. unfold relocate_section.
  destruct (H k ltac:(lia)) as [Hw|Hn]; [now rewrite Hw|].
  destruct (walked a bin k); [|reflexivity].
  replace (Z.to_nat (relnum_of a (shdr_at a bin k))) with 0%nat by lia.
  reflexivity.
Qed.

(** ** Finding the symbol table and its string table *)

Section Tables.

Variable a : arch.
Variable bin : buffer.

(** Without a [SHT_SYMTAB] section before [n] the locals keep their
    initial values. *)
Lemma find_tables_none (n : nat) :
  (forall i, 0 <= i < Z.of_nat n -> sh_type (shdr_at a bin i) <> SHT_SYMTAB) ->
  for_loop n 0 (find_tables_step a bin) (mkTables 0 0 (-1) 0) = mkTables 0 0 (-1) 0.
Proof.
  induction n as [|n IH]; intro H; [reflexivity|].
  rewrite for_loop_succ, IH by (intros i Hi; apply H; lia).
  unfold find_tables_step.
  pose proof (H (Z.of_nat n) ltac:(lia)) as Hn. apply Z.eqb_neq in Hn. rewrite Hn.
  cbn [strtab_index].
  replace (Z.of_nat n =? -1) with false by (symmetry; apply Z.eqb_neq; lia).
  now rewrite andb_false_r.
Qed.

(** With one [SHT_SYMTAB] section, at index [i]: the locals after [n > i]
    iterations. *)
Lemma find_tables_after (i : Z) (n : nat) :
  0 <= i < Z.of_nat n ->
  sh_type (shdr_at a bin i) = SHT_SYMTAB ->
  (forall j, 0 <= j < Z.of_nat n -> j <> i -> sh_type (shdr_at a bin j) <> SHT_SYMTAB) ->
  let k := to_int (sh_link (shdr_at a bin i)) in
  for_loop n 0 (find_tables_step a bin) (mkTables 0 0 (-1) 0)
  = mkTables (buf_base bin + sh_offset (shdr_at a bin i))
             (to_int (sh_size (shdr_at a bin i) / sizeof_Sym a))
             k
             (if (i <? k) && (k <? Z.of_nat n) && (sh_type (shdr_at a bin k) =? SHT_STRTAB)
              then buf_base bin + sh_offset (shdr_at a bin k) else 0).
Proof.
  intros Hi Hty Huniq k. induction n as [|n IH]; [lia|].
  rewrite for_loop_succ.
  assert (Hcase : i = Z.of_nat n \/ i < Z.of_nat n) by lia.
  destruct Hcase as [Heq|Hlt].
  - rewrite find_tables_none by (intros j Hj; apply Huniq; lia).
    unfold find_tables_step. rewrite <- Heq, Hty.
    cbn [Z.eqb Pos.eqb SHT_SYMTAB SHT_STRTAB andb strtab symtab symnum strtab_index].
    fold k. f_equal.
    destruct (i <? k) eqn:E1; [|reflexivity].
    destruct (k <? Z.of_nat (S n)) eqn:E2; [|reflexivity].
    apply Z.ltb_lt in E1, E2. lia.
  - rewrite IH by (try lia; intros j Hj; apply Huniq; lia). clear IH.
    unfold find_tables_step.
    pose proof (Huniq (Z.of_nat n) ltac:(lia) ltac:(lia)) as Hn.
    apply Z.eqb_neq in Hn. rewrite Hn. cbn [strtab_index symtab symnum strtab].
    destruct (Z.of_nat n =? k) eqn:Ek.
    + apply Z.eqb_eq in Ek. rewrite <- Ek.
      replace (i <? Z.of_nat n) with true by (symmetry; apply Z.ltb_lt; lia).
      replace (Z.of_nat n <? Z.of_nat n) with false by (symmetry; apply Z.ltb_ge; lia).
      replace (Z.of_nat n <? Z.of_nat (S n)) with true by (symmetry; apply Z.ltb_lt; lia).
      cbn [andb]. rewrite andb_true_r.
      destruct (sh_type (shdr_at a bin (Z.of_nat n)) =? SHT_STRTAB); reflexivity.
    + rewrite andb_false_r. f_equal. apply Z.eqb_neq in Ek.
      destruct (i <? k); [|reflexivity]. cbn [andb].
      replace (k <? Z.of_nat (S n)) with (k <? Z.of_nat n); [reflexivity|].
      destruct (k <? Z.of_nat n) eqn:E; symmetry;
        [apply Z.ltb_lt in E; apply Z.ltb_lt|apply Z.ltb_ge in E; apply Z.ltb_ge]; lia.
Qed.

(** X8.  An object with exactly one [SHT_SYMTAB] section, at index [i]:
    [load_object] takes the symbol table and the symbol count from it, and
    finds the string table only if the section [sh_link] names is a
    [SHT_STRTAB] section with an index above [i]; otherwise [strtab] stays
    [NULL]. *)
Theorem find_tables_one_symtab (i : Z) :
  0 <= i < Z.of_nat (shnum_of a bin) ->
  sh_type (shdr_at a bin i) = SHT_SYMTAB ->
  (forall j, 0 <= j < Z.of_nat (shnum_of a bin) -> j <> i ->
             sh_type (shdr_at a bin j) <> SHT_SYMTAB) ->
  let t := find_tables a bin in
  let k := to_int (sh_link (shdr_at a bin i)) in
  symtab t = buf_base bin + sh_offset (shdr_at a bin i)
  /\ symnum t = to_int (sh_size (shdr_at a bin i) / sizeof_Sym a)
  /\ strtab_index t = k
  /\ (i < k < Z.of_nat (shnum_of a bin) -> sh_type (shdr_at a bin k) = SHT_STRTAB ->
      strtab t = buf_base bin + sh_offset (shdr_at a bin k))
  /\ (k <= i \/ Z.of_nat (shnum_of a bin) <= k
      \/ sh_type (shdr_at a bin k) <> SHT_STRTAB ->
      strtab t = 0).
Proof.
  intros Hi Hty Huniq t k. subst t. unfold find_tables.
  rewrite (find_tables_after i (shnum_of a bin) Hi Hty Huniq). fold k.
  cbn [symtab symnum strtab_index strtab]. repeat split.
  - intros Hk Hs.
    replace (i <? k) with true by (symmetry; apply Z.ltb_lt; lia).
    replace (k <? Z.of_nat (shnum_of a bin)) with true by (symmetry; apply Z.ltb_lt; lia).
    apply Z.eqb_eq in Hs. now rewrite Hs.
  - intros [Hk|[Hk|Hs]].
    + replace (i <? k) with false by (symmetry; apply Z.ltb_ge; lia). reflexivity.
    + replace (k <? Z.of_nat (shnum_of a bin)) with false
        by (symmetry; apply Z.ltb_ge; lia).
      now rewrite andb_false_r.
    + apply Z.eqb_neq in Hs. rewrite Hs. now rewrite andb_false_r.
Qed.

End Tables.

(** ** The error slot *)

(** A loop whose body keeps [I] when it goes on and establishes [F] when
    it leaves. *)
Lemma for_try_outcome {A : Type} (I : A -> state -> Prop) (F : state -> Prop)
    (body : Z -> A -> state -> outcome A * state) :
  (forall i s st, I s st ->
     match body i s st with
     | (Done s1, st1) => I s1 st1
     | (Fail, st1) => F st1
     end) ->
  forall (n : nat) (i : Z) (s : A) (st : state), I s st ->
    match for_try n i body s st with
    | (Done s1, st1) => I s1 st1
    | (Fail, st1) => F st1
    end.
Proof.
  intros Hbody n. induction n as [|n IH]; intros i s st HI; cbn [for_try]; [exact HI|].
  specialize (Hbody i s st HI).
  destruct (body i s st) as [[s1|] st1]; [now apply IH|exact Hbody].
Qed.

Lemma append_nonempty (s t : string) : t <> EmptyString -> (s ++ t)%string <> EmptyString.
Proof. destruct s; cbn; [auto|discriminate]. Qed.

Section ErrorSlot.

Variable a : arch.
Variable dlsym : string -> Z.
Variable host_mmap : Z -> Z.
Variable host_file : string -> file_result.
Variable handle_malloc_fails : bool.

Lemma reloc_apply_outcome (rtype target S addend cs : Z) (st : state) :
  match reloc_apply a false rtype target S addend cs st with
  | (Done cs1, st1) => cs1 = cs /\ obj_error st1 = obj_error st
  | (Fail, st1) => obj_error st1 <> EmptyString
  end.
Proof.
  unfold reloc_apply. destruct a; repeat case_if; cbn; auto; discriminate.
Qed.

Lemma relocate_one_outcome (bin : buffer) (symtab strtab : Z) (addrs : list Z)
    (shdr : Elf_Shdr) (j cs : Z) (st : state) :
  match relocate_one a dlsym bin symtab strtab addrs false shdr j cs st with
  | (Done cs1, st1) => cs1 = cs /\ obj_error st1 = obj_error st
  | (Fail, st1) => obj_error st1 <> EmptyString
  end.
Proof.
  unfold relocate_one.
  destruct (sym_dispatch dlsym bin strtab addrs _ st) as [[S|] st1] eqn:E.
  - apply sym_dispatch_done in E. subst st1. apply reloc_apply_outcome.
  - unfold sym_dispatch in E. revert E.
    repeat case_if; intro E; inversion E; cbn; discriminate.
Qed.

(** In applying mode [relocate] returns 0 and leaves the error slot alone,
    or returns [(size_t)-1] with a message stored. *)
Lemma relocate_applying_outcome (bin : buffer) (symtab strtab : Z) (addrs : list Z)
    (st : state) :
  let r := relocate a dlsym bin symtab strtab addrs false st in
  (fst r = 0 /\ obj_error (snd r) = obj_error st)
  \/ (fst r = SIZE_MAX a /\ obj_error (snd r) <> EmptyString).
Proof.
  unfold relocate, relocate_loop.
  pose proof (for_try_outcome
                (fun cs s => cs = 0 /\ obj_error s = obj_error st)
                (fun s => obj_error s <> EmptyString)
                (relocate_section a dlsym bin symtab strtab addrs false)) as H.
  specialize (H ltac:(
    intros i cs s [-> He]; unfold relocate_section;
    destruct (walked a bin i); [|auto];
    apply (for_try_outcome
             (fun cs1 s1 => cs1 = 0 /\ obj_error s1 = obj_error st)
             (fun s1 => obj_error s1 <> EmptyString)); [|auto];
    intros j cs1 s1 [-> He1];
    pose proof (relocate_one_outcome bin symtab strtab addrs (shdr_at a bin i) j 0 s1) as Ho;
    destruct (relocate_one a dlsym bin symtab strtab addrs false (shdr_at a bin i) j 0 s1)
      as [[cs2|] s2]; [destruct Ho; split; congruence|exact Ho])).
  specialize (H (Z.to_nat (e_shnum a bin (buf_base bin))) 0 0 st (conj eq_refl eq_refl)).
  destruct (for_try _ 0 _ 0 st) as [[cs|] s1]; cbn [fst snd]; [left|right]; auto.
Qed.

Lemma SIZE_MAX_nonzero : SIZE_MAX a <> 0.
Proof. unfold SIZE_MAX. destruct a; cbn; lia. Qed.

Lemma init_outcome (st : state) :
  let st1 := if code st =? 0 then init a host_mmap st else st in
  code st <> MAP_FAILED a ->
  (code st1 = MAP_FAILED a -> obj_error st1 <> EmptyString)
  /\ (code st1 <> MAP_FAILED a -> obj_error st1 = obj_error st).
Proof.
  intros st1 Hc. subst st1. destruct (code st =? 0); [|tauto].
  unfold init. destruct (host_mmap arena_capacity =? MAP_FAILED a) eqn:E; cbn [code obj_error].
  - split; [discriminate|]. apply Z.eqb_eq in E. tauto.
  - split; [|reflexivity]. apply Z.eqb_neq in E. tauto.
Qed.

Lemma objopen_acquire_error (filename : string) (st : state) :
  code st <> MAP_FAILED a ->
  match objopen_acquire a host_mmap host_file handle_malloc_fails filename st with
  | inl (_, _, _, st0) => obj_error st0 = obj_error st
  | inr st1 => obj_error st1 <> EmptyString
  end.
Proof.
  intro Hc. unfold objopen_acquire.
  destruct (init_outcome st Hc) as [Hbad Hgood].
  set (st1 := if code st =? 0 then init a host_mmap st else st) in *.
  destruct (code st1 =? MAP_FAILED a) eqn:E.
  - apply Z.eqb_eq in E. auto.
  - apply Z.eqb_neq in E. specialize (Hgood E). unfold read_file.
    destruct (host_file filename) as [e|e|e|e|base bytes]; cbn; try discriminate.
    destruct handle_malloc_fails; cbn; [discriminate|].
    destruct (magic_ok _); cbn [negb]; [exact Hgood|].
    cbn. apply append_nonempty. discriminate.
Qed.

Lemma place_sections_error (bin : buffer) (st : state) :
  obj_error (snd (place_sections a bin st)) = obj_error st.
Proof.
  unfold place_sections.
  apply (for_loop_invariant (fun s => obj_error (snd s) = obj_error st)); [|reflexivity].
  intros i [addrs s] H. cbn [snd] in H. unfold place_section.
  destruct (_ =? 0); [exact H|]. unfold alloc_code, align_code.
  destruct (_ =? SHT_NOBITS); cbn [snd]; exact H.
Qed.

Lemma emit_error (t : tables) (addrs : list Z) (bin : buffer) (st : state) (n : nat) :
  obj_error (snd (for_loop n 0 (emit_symbol a t addrs) (bin, [], st))) = obj_error st.
Proof.
  apply (for_loop_invariant (fun s => obj_error (snd s) = obj_error st)); [|reflexivity].
  intros i [[b syms] s] H. cbn [snd] in H. unfold emit_symbol.
  destruct (is_func_or_object _); cbn [malloc snd]; exact H.
Qed.

Lemma load_layout_error (obj : obj_handle) (bin : buffer) (st st1 : state) (l : layout) :
  load_layout a obj bin st = (l, st1) -> obj_error st1 = obj_error st.
Proof.
  unfold load_layout.
  pose proof (place_sections_error bin st) as Hp.
  destruct (place_sections a bin st) as [addrs sp]. cbn [snd] in Hp.
  pose proof (emit_error (find_tables a bin) addrs bin (snd (malloc sp))
                (Z.to_nat (symnum (find_tables a bin)))) as He.
  cbn [malloc snd] in He |- *.
  destruct (for_loop _ 0 (emit_symbol a (find_tables a bin) addrs) _) as [[b syms] se].
  cbn [snd] in He. intro H. inversion H. subst. rewrite He. exact Hp.
Qed.

(** What [objopen] does with the result of [relocate]. *)
Lemma objopen_outcome (filename : string) (flags : Z) (st : state) :
  code st <> MAP_FAILED a ->
  match objopen a dlsym host_mmap host_file handle_malloc_fails filename flags st with
  | (Some _, st') => obj_error st' = obj_error st
  | (None, st') => obj_error st' <> EmptyString
  end.
Proof.
  intro Hc. unfold objopen.
  pose proof (objopen_acquire_error filename st Hc) as Hacq.
  destruct (objopen_acquire a host_mmap host_file handle_malloc_fails filename st)
    as [[[[bin blk] obj] st0]|st1]; [|exact Hacq].
  unfold load_object. destruct (load_layout a obj bin st0) as [l s1] eqn:Hlay.
  apply load_layout_error in Hlay.
  pose proof (relocate_applying_outcome (l_bin l) (symtab (l_tables l))
                (strtab (l_tables l)) (l_addrs l) s1) as Hrel.
  cbv zeta in Hrel.
  destruct (relocate a dlsym (l_bin l) _ _ _ false s1) as [r s2]. cbn [fst snd] in Hrel.
  destruct Hrel as [[-> He]|[-> He]].
  - replace (0 =? SIZE_MAX a) with false
      by (symmetry; apply Z.eqb_neq; pose proof SIZE_MAX_nonzero; lia).
    cbn [Z.eqb]. cbn [free obj_error]. congruence.
  - rewrite Z.eqb_refl. cbn [Z.eqb]. rewrite obj_error_objclose. exact He.
Qed.

(** X9.  A successful [objopen] does not touch the error slot: [objerror]
    reads afterwards what it read before, a message of an earlier failure
    included. *)
Theorem success_keeps_error_slot (filename : string) (flags : Z) (st st' : state)
    (h : obj_handle) :
  objopen a dlsym host_mmap host_file handle_malloc_fails filename flags st
  = (Some h, st') ->
  objerror st' = objerror st.
Proof.
  intro H. unfold objerror.
  destruct (Z.eq_dec (code st) (MAP_FAILED a)) as [Hc|Hc].
  - unfold objopen, objopen_acquire in H.
    replace (code st =? 0) with false in H
      by (symmetry; apply Z.eqb_neq; rewrite Hc; unfold MAP_FAILED; destruct a; cbn; lia).
    apply Z.eqb_eq in Hc. rewrite Hc in H. discriminate.
  - pose proof (objopen_outcome filename flags st Hc) as Ho. rewrite H in Ho. exact Ho.
Qed.

(** X10.  Unless [mmap] had failed before the call, an [objopen] that
    returns [NULL] leaves a message: the error slot is not empty. *)
Theorem failure_sets_error_slot (filename : string) (flags : Z) (st st' : state) :
  code st <> MAP_FAILED a ->
  objopen a dlsym host_mmap host_file handle_malloc_fails filename flags st
  = (None, st') ->
  objerror st' <> EmptyString.
Proof.
  intros Hc H. pose proof (objopen_outcome filename flags st Hc) as Ho.
  rewrite H in Ho. exact Ho.
Qed.

(** X11.  When the first [objopen] cannot map the arena it returns [NULL]
    with the error slot "mmap failed", allocates nothing, and records the
    failure in [code]: every later [objopen] returns [NULL] at once,
    without reading the file and without changing the state. *)
Theorem mmap_failure_is_final (filename : string) (flags : Z) (st : state) :
  code st = 0 ->
  host_mmap arena_capacity = MAP_FAILED a ->
  let r := objopen a dlsym host_mmap host_file handle_malloc_fails filename flags st in
  fst r = None
  /\ objerror (snd r) = "mmap failed"%string
  /\ code (snd r) = MAP_FAILED a
  /\ live (snd r) = live st /\ mapped (snd r) = mapped st
  /\ forall (filename' : string) (flags' : Z),
       objopen a dlsym host_mmap host_file handle_malloc_fails filename' flags' (snd r)
       = (None, snd r).
Proof.
  intros Hc Hm r.
  assert (Hr : r = (None, init a host_mmap st)).
  { subst r. unfold objopen, objopen_acquire. rewrite Hc. cbn [Z.eqb].
    unfold init. rewrite Hm, Z.eqb_refl. cbn [code]. rewrite Z.eqb_refl. reflexivity. }
  rewrite Hr. cbn [fst snd]. unfold init. rewrite Hm, Z.eqb_refl.
  cbn [objerror obj_error code live mapped]. unfold objerror. cbn [obj_error].
  repeat split.
  intros filename' flags'. unfold objopen, objopen_acquire. cbn [code].
  replace (MAP_FAILED a =? 0) with false
    by (symmetry; apply Z.eqb_neq; unfold MAP_FAILED; destruct a; cbn; lia).
  cbn [code]. rewrite Z.eqb_refl. reflexivity.
Qed.

End ErrorSlot.

(** ** Heap accounting *)

Lemma in_free (st : state) (x b : nat) :
  In b (live (free st x)) <-> In b (live st) /\ b <> x.
Proof.
  cbn [free live]. split.
  - intro H. apply in_remove in H. exact H.
  - intros [H1 H2]. now apply in_in_remove.
Qed.

Lemma remove_other (x y : nat) (l : list nat) :
  x <> y -> remove Nat.eq_dec x (y :: l) = y :: remove Nat.eq_dec x l.
Proof. intro H. cbn. destruct (Nat.eq_dec x y); [contradiction|reflexivity]. Qed.

Lemma in_free_names (l : list symbol) : forall (st : state) (b : nat),
  In b (live (fold_left (fun s sy => free s (name_block sy)) l st))
  <-> In b (live st) /\ forall s, In s l -> name_block s <> b.
Proof.
  induction l as [|s0 l IH]; intros st b; cbn [fold_left].
  - split; [intro H; split; [exact H|intros s []]|tauto].
  - rewrite IH, in_free. split.
    + intros [[H1 H2] H3]. split; [exact H1|].
      intros s [<-|Hs]; [congruence|now apply H3].
    + intros [H1 H2]. split; [split; [exact H1|]|].
      * intro E. apply (H2 s0); [now left|congruence].
      * intros s Hs. apply H2. now right.
Qed.

Section HeapAccounting.

Variable a : arch.
Variable dlsym : string -> Z.
Variable host_mmap : Z -> Z.
Variable host_file : string -> file_result.
Variable handle_malloc_fails : bool.

Lemma init_heap (st : state) :
  let st1 := if code st =? 0 then init a host_mmap st else st in
  live st1 = live st /\ next_block st1 = next_block st.
Proof.
  cbv zeta. destruct (code st =? 0); [|auto].
  unfold init. destruct (_ =? MAP_FAILED a); cbn; auto.
Qed.

(** The heap when [objopen] calls [load_object]: the buffer and the handle
    are the two newest blocks. *)
Lemma objopen_acquire_heap (filename : string) (st st0 : state)
    (bin : buffer) (blk : nat) (obj : obj_handle) :
  objopen_acquire a host_mmap host_file handle_malloc_fails filename st
  = inl (bin, blk, obj, st0) ->
  blk = next_block st
  /\ live st0 = S blk :: blk :: live st
  /\ next_block st0 = S (S blk)
  /\ obj = mkHandle (S blk) None [] 0 0 0 0.
Proof.
  unfold objopen_acquire. destruct (init_heap st) as [Hl Hn].
  set (st1 := if code st =? 0 then init a host_mmap st else st) in *.
  destruct (code st1 =? MAP_FAILED a); [discriminate|].
  unfold read_file.
  destruct (host_file filename) as [e|e|e|e|base bytes]; try discriminate.
  cbn [malloc]. destruct handle_malloc_fails; [discriminate|].
  destruct (magic_ok _); cbn [negb]; [|discriminate].
  intro H. inversion H. subst. cbn [live next_block]. rewrite Hl, Hn. auto.
Qed.

(** A failure before [load_object] gives back every block it took. *)
Lemma objopen_acquire_frees (filename : string) (st st1 : state) :
  fresh_heap st ->
  objopen_acquire a host_mmap host_file handle_malloc_fails filename st = inr st1 ->
  live st1 = live st /\ (next_block st <= next_block st1)%nat.
Proof.
  intro Hfresh. unfold objopen_acquire. destruct (init_heap st) as [Hl Hn].
  set (s1 := if code st =? 0 then init a host_mmap st else st) in *.
  assert (Hnot : forall k, ~ In (next_block s1 + k)%nat (live s1)).
  { intros k Hin. rewrite Hl, Hn in Hin. apply Hfresh in Hin. lia. }
  pose proof (Hnot 0%nat) as Hnot0. rewrite Nat.add_0_r in Hnot0.
  pose proof (Hnot 1%nat) as Hnot1. rewrite Nat.add_1_r in Hnot1.
  assert (Hone : remove Nat.eq_dec (next_block s1) (next_block s1 :: live s1) = live s1).
  { rewrite remove_cons. now apply notin_remove. }
  destruct (code s1 =? MAP_FAILED a).
  { intro H. inversion H. subst. rewrite Hl, Hn. auto. }
  unfold read_file.
  destruct (host_file filename) as [e|e|e|e|base bytes]; cbn [malloc];
    try (intro H; inversion H; subst; cbn [set_error free live next_block];
         rewrite ?Hone, Hl, Hn; auto).
  destruct handle_malloc_fails.
  { intro H. inversion H. subst. cbn [set_error free live next_block].
    rewrite Hone, Hl, Hn. auto. }
  destruct (magic_ok _); cbn [negb]; [discriminate|].
  intro H. inversion H. subst. cbn [set_error free live next_block].
  rewrite (remove_other (next_block s1) (S (next_block s1))) by lia.
  rewrite Hone, remove_cons, (notin_remove Nat.eq_dec _ _ Hnot1), Hl, Hn. auto.
Qed.

Lemma load_layout_array (obj : obj_handle) (bin : buffer) (st st1 : state)
    (l : layout) :
  load_layout a obj bin st = (l, st1) ->
  symbols_block (l_obj l) = Some (next_block st).
Proof.
  unfold load_layout.
  pose proof (place_sections_heap a bin st) as (_ & Hn & _).
  destruct (place_sections a bin st) as [addrs sp]. cbn [snd] in Hn. cbn [malloc].
  destruct (for_loop _ 0 (emit_symbol a (find_tables a bin) addrs) _) as [[b syms] se].
  intro H. inversion H. subst. cbn. now rewrite Hn.
Qed.

(** The heap after a load, however it ended, followed by [objclose]: what
    was live before [objopen], and the [symbols] array. *)
Lemma load_close_heap (filename : string) (st st0 s1 s2 : state)
    (bin : buffer) (blk : nat) (obj : obj_handle) (l : layout) :
  fresh_heap st ->
  objopen_acquire a host_mmap host_file handle_malloc_fails filename st
  = inl (bin, blk, obj, st0) ->
  load_layout a obj bin st0 = (l, s1) ->
  live s2 = live s1 ->
  symbols_block (l_obj l) = Some (S (S blk))
  /\ ~ In (S (S blk)) (live st)
  /\ forall b, In b (live (snd (objclose (l_obj l) (free s2 blk))))
               <-> b = S (S blk) \/ In b (live st).
Proof.
  intros Hfresh Hacq Hlay Hs2.
  apply objopen_acquire_heap in Hacq. destruct Hacq as (Hblk & Hlive0 & Hnext0 & Hobj).
  pose proof (load_layout_array obj bin st0 s1 l Hlay) as Harr. rewrite Hnext0 in Harr.
  apply (load_layout_blocks a) in Hlay; [|rewrite Hobj; reflexivity].
  destruct Hlay as (Hnum & Hmap & Hlive & Hhb & Hhc & _ & _).
  rewrite Hobj in Hhb, Hhc. cbn [h_block h_code] in Hhb, Hhc.
  rewrite Hnext0 in Hmap, Hlive. rewrite Hlive0 in Hlive.
  split; [exact Harr|]. split.
  { intro Hin. apply Hfresh in Hin. lia. }
  intro b. unfold objclose. rewrite Hhc, Hhb, Hnum, Nat2Z.id, firstn_all.
  cbn [Z.eqb snd]. rewrite in_free, in_free_names, in_free, Hs2, Hlive.
  rewrite in_app_iff, <- in_rev. cbn [In].
  assert (Hnames : In b (map name_block (symbols (l_obj l)))
                   <-> exists s, In s (symbols (l_obj l)) /\ name_block s = b).
  { rewrite in_map_iff. split; intros (s & H1 & H2); exists s; auto. }
  split.
  - intros [[[[Hn|[H|[H|[H|H]]]] Hb] Hs] Hh]; try lia; auto.
    apply Hnames in Hn. destruct Hn as (s & Hin & Heq). elim (Hs s Hin Heq).
  - intros [->|Hin].
    + repeat split; try lia; auto.
      intros s Hs Heq. apply (in_map name_block) in Hs. rewrite Hmap, Heq in Hs.
      apply in_seq in Hs. lia.
    + pose proof (Hfresh b Hin) as Hlt. rewrite <- Hblk in Hlt.
      repeat split; try lia; auto 10.
      intros s Hs Heq. apply (in_map name_block) in Hs. rewrite Hmap, Heq in Hs.
      apply in_seq in Hs. lia.
Qed.

(** X12.  When [objopen] fails before it calls [load_object] (the arena
    cannot be mapped, the file cannot be read, the handle cannot be
    allocated, the file is not ELF), it returns [NULL] and every block it
    allocated is freed again: the live blocks are those of before. *)
Theorem early_failure_frees_all (filename : string) (flags : Z) (st st1 : state) :
  fresh_heap st ->
  objopen_acquire a host_mmap host_file handle_malloc_fails filename st = inr st1 ->
  objopen a dlsym host_mmap host_file handle_malloc_fails filename flags st
  = (None, st1)
  /\ live st1 = live st
  /\ fresh_heap st1.
Proof.
  intros Hfresh Hacq. split; [unfold objopen; now rewrite Hacq|].
  destruct (objopen_acquire_frees filename st st1 Hfresh Hacq) as [Hl Hn].
  split; [exact Hl|]. intros b Hb. rewrite Hl in Hb. apply Hfresh in Hb. lia.
Qed.

(** X13.  [objclose] does not free the [symbols] array.  After [objopen]
    returned a handle with at least one symbol and [objclose] was called on
    it, the live blocks are those of before the [objopen] and the block of
    the array, which is new. *)
Theorem close_keeps_symbols_array (filename : string) (flags : Z) (st st1 : state)
    (h : obj_handle) :
  fresh_heap st ->
  objopen a dlsym host_mmap host_file handle_malloc_fails filename flags st
  = (Some h, st1) ->
  0 < num_symbols h ->
  exists arr : nat,
    symbols_block h = Some arr
    /\ ~ In arr (live st)
    /\ In arr (live (snd (objclose h st1)))
    /\ forall b, In b (live (snd (objclose h st1))) <-> b = arr \/ In b (live st).
Proof.
  intros Hfresh Hopen _.
  apply objopen_some in Hopen.
  destruct Hopen as (bin & blk & obj & st0 & l & s1 & rr & s2 & Hacq & Hlay & Hrel & -> & ->).
  pose proof (relocate_heap a dlsym (l_bin l) (symtab (l_tables l))
                (strtab (l_tables l)) (l_addrs l) false s1) as (Hl2 & _).
  rewrite Hrel in Hl2. cbn [snd] in Hl2.
  destruct (load_close_heap filename st st0 s1 s2 bin blk obj l Hfresh Hacq Hlay Hl2)
    as (Harr & Hnew & Hiff).
  exists (S (S blk)). repeat split; auto; try apply Hiff; auto.
Qed.

(** X14.  The same on the failure path: when [load_object] fails in
    [relocate] after emitting at least one symbol, [objopen] returns [NULL]
    through [objclose], and the block of the [symbols] array stays live
    beside the blocks of before. *)
Theorem failed_load_keeps_symbols_array (filename : string) (flags : Z)
    (st st0 st' : state) (bin : buffer) (blk : nat) (obj : obj_handle) :
  fresh_heap st ->
  objopen_acquire a host_mmap host_file handle_malloc_fails filename st
  = inl (bin, blk, obj, st0) ->
  objopen a dlsym host_mmap host_file handle_malloc_fails filename flags st
  = (None, st') ->
  0 < num_symbols (l_obj (fst (load_layout a obj bin st0))) ->
  exists arr : nat,
    symbols_block (l_obj (fst (load_layout a obj bin st0))) = Some arr
    /\ ~ In arr (live st)
    /\ In arr (live st')
    /\ forall b, In b (live st') <-> b = arr \/ In b (live st).
Proof.
  intros Hfresh Hacq Hopen _. unfold objopen in Hopen. rewrite Hacq in Hopen.
  unfold load_object in Hopen.
  destruct (load_layout a obj bin st0) as [l s1] eqn:Hlay. cbn [fst].
  pose proof (relocate_heap a dlsym (l_bin l) (symtab (l_tables l))
                (strtab (l_tables l)) (l_addrs l) false s1) as (Hl2 & _).
  destruct (relocate a dlsym (l_bin l) _ _ _ false s1) as [r s2]. cbn [snd] in Hl2.
  destruct (load_close_heap filename st st0 s1 s2 bin blk obj l Hfresh Hacq Hlay Hl2)
    as (Harr & Hnew & Hiff).
  destruct (r =? SIZE_MAX a); cbn [Z.eqb] in Hopen; [|discriminate].
  inversion Hopen. subst st'.
  exists (S (S blk)). repeat split; auto; try apply Hiff; auto.
Qed.

End HeapAccounting.

Section Api.

Variable a : arch.
Variable dlsym : string -> Z.
Variable host_mmap : Z -> Z.
Variable host_file : string -> file_result.
Variable handle_malloc_fails : bool.

(** X15.  An object without a [SHT_SYMTAB] section that [objopen] accepts
    gives a handle with no symbol: [objsym] returns [NULL] for every
    name. *)
Theorem no_symtab_no_symbols (filename : string) (flags : Z) (st st0 st' : state)
    (bin : buffer) (blk : nat) (obj h : obj_handle) :
  objopen_acquire a host_mmap host_file handle_malloc_fails filename st
  = inl (bin, blk, obj, st0) ->
  objopen a dlsym host_mmap host_file handle_malloc_fails filename flags st
  = (Some h, st') ->
  (forall i, 0 <= i < Z.of_nat (shnum_of a bin) ->
             sh_type (shdr_at a bin i) <> SHT_SYMTAB) ->
  symbols h = [] /\ num_symbols h = 0 /\ forall sym : string, objsym h sym = 0.
Proof.
  intros Hacq Hopen Hnone.
  apply objopen_some in Hopen.
  destruct Hopen as (bin' & blk' & obj' & st0' & l & s1 & rr & s2 & Hacq' & Hlay & _ & -> & _).
  rewrite Hacq in Hacq'. inversion Hacq'. subst bin' blk' obj' st0'. clear Hacq'.
  apply objopen_acquire_handle in Hacq. destruct Hacq as [Hobj _].
  unfold load_layout in Hlay. unfold find_tables in Hlay.
  rewrite (find_tables_none a bin (shnum_of a bin) Hnone) in Hlay.
  cbn [symnum Z.to_nat for_loop] in Hlay.
  destruct (place_sections a bin st0) as [addrs sp]. cbn [malloc] in Hlay.
  inversion Hlay. subst l s1. cbn [l_obj symbols num_symbols].
  rewrite Hobj. cbn [num_symbols]. repeat split.
Qed.

Lemma objopen_acquire_arena (filename : string) (st : state) :
  code st <> 0 ->
  match objopen_acquire a host_mmap host_file handle_malloc_fails filename st with
  | inl (_, _, _, st0) => code st0 = code st /\ mapped st0 = mapped st
  | inr st1 => code st1 = code st /\ mapped st1 = mapped st
  end.
Proof.
  intro Hc. unfold objopen_acquire. apply Z.eqb_neq in Hc. rewrite Hc.
  destruct (code st =? MAP_FAILED a); [auto|]. unfold read_file.
  destruct (host_file filename) as [e|e|e|e|base bytes]; cbn; auto.
  destruct handle_malloc_fails; cbn; auto.
  destruct (magic_ok _); cbn; auto.
Qed.

Lemma load_layout_arena (obj : obj_handle) (bin : buffer) (st st1 : state) (l : layout) :
  load_layout a obj bin st = (l, st1) -> code st1 = code st /\ mapped st1 = mapped st.
Proof.
  unfold load_layout.
  pose proof (place_sections_heap a bin st) as (_ & _ & Hm & Hc).
  destruct (place_sections a bin st) as [addrs sp]. cbn [snd] in Hm, Hc.
  pose proof (emit_blocks a (find_tables a bin) addrs bin (snd (malloc sp))
                (Z.to_nat (symnum (find_tables a bin)))) as Hb.
  cbv zeta in Hb. cbn [malloc snd] in Hb |- *.
  destruct (for_loop _ 0 (emit_symbol a (find_tables a bin) addrs) _) as [[b syms] se].
  cbn [fst snd mapped code] in Hb. destruct Hb as (_ & _ & _ & Hmp & Hcode).
  intro H. inversion H. subst. split; congruence.
Qed.

Lemma objclose_arena (h : obj_handle) (st : state) :
  h_code h = 0 ->
  code (snd (objclose h st)) = code st /\ mapped (snd (objclose h st)) = mapped st.
Proof.
  intro Hc. unfold objclose. rewrite Hc. cbn [Z.eqb snd free code mapped].
  destruct (frame_free_names (firstn (Z.to_nat (num_symbols h)) (symbols h)) st)
    as (H1 & H2 & _). auto.
Qed.

(** X16.  The arena is mapped once.  An [objopen] in a process whose
    arena exists changes neither [code] nor the list of mappings, whether
    it succeeds or fails; the first [objopen] adds the one mapping of 1 GiB
    and sets [code] to it. *)
Theorem arena_is_mapped_once (filename : string) (flags : Z) (st : state) :
  let st' := snd (objopen a dlsym host_mmap host_file handle_malloc_fails
                          filename flags st) in
  (code st <> 0 -> code st' = code st /\ mapped st' = mapped st)
  /\ (code st = 0 -> host_mmap arena_capacity <> MAP_FAILED a ->
      code st' = host_mmap arena_capacity
      /\ mapped st' = (host_mmap arena_capacity, arena_capacity) :: mapped st).
Proof.
  intro st'.
  assert (Hkeep : forall s0 : state,
            match objopen_acquire a host_mmap host_file handle_malloc_fails filename st with
            | inl (_, _, _, st0) => code st0 = code s0 /\ mapped st0 = mapped s0
            | inr st1 => code st1 = code s0 /\ mapped st1 = mapped s0
            end ->
            code st' = code s0 /\ mapped st' = mapped s0).
  { intros s0 Hacq. subst st'. unfold objopen.
    destruct (objopen_acquire a host_mmap host_file handle_malloc_fails filename st)
      as [[[[bin blk] obj] st0]|st1] eqn:E; [|exact Hacq].
    apply objopen_acquire_handle in E. destruct E as [Hobj _].
    unfold load_object. destruct (load_layout a obj bin st0) as [l s1] eqn:Hlay.
    pose proof (load_layout_handle a obj bin st0 s1 l Hlay) as [_ Hhc].
    rewrite Hobj in Hhc. cbn [h_code] in Hhc.
    apply load_layout_arena in Hlay.
    pose proof (relocate_heap a dlsym (l_bin l) (symtab (l_tables l))
                  (strtab (l_tables l)) (l_addrs l) false s1) as (_ & _ & Hm & Hc).
    destruct (relocate a dlsym (l_bin l) _ _ _ false s1) as [r s2]. cbn [snd] in Hm, Hc.
    destruct (r =? SIZE_MAX a); cbn [Z.eqb snd].
    - destruct (objclose_arena (l_obj l) (free s2 blk) Hhc) as [H1 H2].
      rewrite H1, H2. cbn [free code mapped]. split; intuition congruence.
    - cbn [free code mapped]. split; intuition congruence. }
  split.
  - intro Hc. apply Hkeep. apply objopen_acquire_arena. exact Hc.
  - intros Hc Hm.
    assert (Hinit : code (init a host_mmap st) = host_mmap arena_capacity
                    /\ mapped (init a host_mmap st)
                       = (host_mmap arena_capacity, arena_capacity) :: mapped st).
    { unfold init. apply Z.eqb_neq in Hm. rewrite Hm. cbn. auto. }
    destruct Hinit as [Hi1 Hi2].
    cut (code st' = code (init a host_mmap st)
         /\ mapped st' = mapped (init a host_mmap st)); [rewrite Hi1, Hi2; auto|].
    apply Hkeep. unfold objopen_acquire. rewrite Hc. cbn [Z.eqb].
    destruct (code (init a host_mmap st) =? MAP_FAILED a); [auto|]. unfold read_file.
    destruct (host_file filename) as [e|e|e|e|base bytes]; cbn; auto.
    destruct handle_malloc_fails; cbn; auto.
    destruct (magic_ok _); cbn; auto.
Qed.

(** X17.  A file the host cannot deliver: [objopen] returns [NULL] and the
    error slot reads "failed to open <file>: <reason>", "fseek failed:
    <reason>", "ftell failed: <reason>" or "fread failed: <reason>"; in the
    first three cases nothing else of the state changes, in the last the
    buffer allocated for the contents is freed again. *)
Theorem unreadable_file_fails (filename : string) (flags : Z) (st : state) (e : string) :
  let st1 := if code st =? 0 then init a host_mmap st else st in
  let r := objopen a dlsym host_mmap host_file handle_malloc_fails filename flags st in
  code st1 <> MAP_FAILED a ->
  (host_file filename = FopenFails e ->
   r = (None, set_error st1 ("failed to open " ++ filename ++ ": " ++ e)))
  /\ (host_file filename = FseekFails e ->
      r = (None, set_error st1 ("fseek failed: " ++ e)))
  /\ (host_file filename = FtellFails e ->
      r = (None, set_error st1 ("ftell failed: " ++ e)))
  /\ (host_file filename = FreadFails e ->
      fst r = None /\ objerror (snd r) = ("fread failed: " ++ e)%string
      /\ ~ In (next_block st) (live (snd r))).
Proof.
  intros st1 r Hc. subst r. unfold objopen, objopen_acquire. fold st1.
  apply Z.eqb_neq in Hc. rewrite Hc. unfold read_file.
  do 3 (split; [intro H; rewrite H; reflexivity|]).
  intro H. rewrite H. cbn [malloc fst snd]. split; [reflexivity|].
  split; [reflexivity|].
  destruct (init_heap a host_mmap st) as [_ Hn]. fold st1 in Hn. rewrite <- Hn.
  apply not_in_free.
Qed.

End Api.

(** ** The arena after placement *)

Section Contents.

Variable a : arch.
Variable bin : buffer.

Lemma place_contents_prefix (st : state) (n : nat) :
  0 <= code_used st ->
  code_used st + arena_demand a bin <= arena_capacity ->
  (n <= shnum_of a bin)%nat ->
  let r := for_loop n 0 (place_section a bin) (repeat 0 (shnum_of a bin), st) in
  (forall x, x < code st + code_used st \/ code st + code_used (snd r) <= x ->
             mem (snd r) x = mem st x)
  /\ forall k, 0 <= k < Z.of_nat n -> Z.land (sh_flags (shdr_at a bin k)) SHF_ALLOC <> 0 ->
       code st + code_used st <= addrs_at (fst r) k
       /\ addrs_at (fst r) k + sh_size (shdr_at a bin k) <= code st + code_used (snd r)
       /\ section_holds a bin (mem st) (mem (snd r)) k (addrs_at (fst r) k)
       /\ forall k', 0 <= k' < k -> Z.land (sh_flags (shdr_at a bin k')) SHF_ALLOC <> 0 ->
            addrs_at (fst r) k' + sh_size (shdr_at a bin k') <= addrs_at (fst r) k.
Proof.
  intros H0 Hfit. induction n as [|n IH]; intro Hn.
  - cbn. split; [reflexivity|]. intros k Hk. lia.
  - specialize (IH ltac:(lia)). cbv zeta in IH.
    pose proof (place_prefix a bin st n H0 Hfit ltac:(lia)) as Hpre.
    pose proof (place_prefix a bin st (S n) H0 Hfit Hn) as Hpost.
    cbv zeta in Hpre, Hpost. rewrite for_loop_succ in Hpost |- *.
    destruct (for_loop n 0 (place_section a bin) (repeat 0 (shnum_of a bin), st))
      as [addrs s] eqn:E.
    cbn [fst snd] in IH, Hpre. destruct IH as [Hframe Hsec].
    destruct Hpre as (Hlen & Hcode & Hcu & _ & Hbound).
    destruct (Z.eq_dec (Z.land (sh_flags (shdr_at a bin (Z.of_nat n))) SHF_ALLOC) 0)
      as [Ena|Hal].
    + assert (Hid : place_section a bin (Z.of_nat n) (addrs, s) = (addrs, s)).
      { unfold place_section. apply Z.eqb_eq in Ena. now rewrite Ena. }
      rewrite Hid. cbn [fst snd]. split; [exact Hframe|].
      intros k Hk Hka.
      assert (k = Z.of_nat n \/ k < Z.of_nat n) as [->|Hlt] by lia;
        [contradiction|].
      apply Hsec; [lia|exact Hka].
    + pose proof (place_section_contents a bin (Z.of_nat n) addrs s Hal
                    ltac:(rewrite Nat2Z.id; lia)) as Hstep.
      cbv zeta in Hstep.
      destruct (place_section a bin (Z.of_nat n) (addrs, s)) as [addrs' s'] eqn:E'.
      cbn [fst snd] in Hstep, Hpost |- *.
      destruct Hstep as (Hp & Hnobits & Hbits).
      destruct Hpost as (_ & _ & _ & _ & Hbound').
      destruct (Hbound' (Z.of_nat n) ltac:(lia) Hal) as (u & Hu1 & Hu2 & Hu3 & _).
      rewrite Hp, Hcode in Hu1. assert (Hu : u = code_used s) by lia. subst u.
      
      pose proof (sh_size_nonneg a bin
                    (buf_base bin + e_shoff a bin (buf_base bin)
                     + sizeof_Shdr a * Z.of_nat n)) as Hsz.
      fold (shdr_at a bin (Z.of_nat n)) in Hsz.
      assert (Hother : forall k, 0 <= k < Z.of_nat n ->
                addrs_at addrs' k = addrs_at addrs k).
      { intros k Hk. unfold place_section in E'.
        apply Z.eqb_neq in Hal. rewrite Hal in E'. unfold alloc_code in E'.
        inversion E'. unfold addrs_at. rewrite Nat2Z.id.
        apply nth_upd_nth_other. lia. }
      assert (Hmem : forall x, x < code st + code_used s
                               \/ code st + code_used s + sh_size (shdr_at a bin (Z.of_nat n)) <= x ->
                mem s' x = mem s x).
      { intros x Hx.
        destruct (Z.eq_dec (sh_type (shdr_at a bin (Z.of_nat n))) SHT_NOBITS) as [Ety|Ety].
        - now apply Hnobits.
        - apply (proj2 (Hbits Ety)). rewrite Hcode. exact Hx. }
      split.
      * intros x Hx. rewrite Hmem by lia. apply Hframe. lia.
      * intros k Hk Hka.
        assert (k = Z.of_nat n \/ k < Z.of_nat n) as [->|Hlt] by lia.
        -- rewrite Hp, Hcode. split; [lia|]. split; [lia|].
           split.
           ++ split.
              ** intros Ety x Hx. rewrite <- Hcode. apply (proj1 (Hbits Ety)).
                 rewrite Hcode. exact Hx.
              ** intros Ety x Hx. rewrite (Hnobits Ety). apply Hframe.
                 lia.
           ++ intros k' Hk' Hka'. rewrite Hother by lia.
              destruct (Hbound k' ltac:(lia) Hka') as (u' & Hv1 & _ & Hv3 & _).
              lia.
        -- rewrite Hother by lia.
           destruct (Hsec k ltac:(lia) Hka) as (Hs1 & Hs2 & [Hs3 Hs4] & Hs5).
           split; [exact Hs1|]. split; [lia|]. split.
           ++ split.
              ** intros Ety x Hx. rewrite Hmem by lia. now apply Hs3.
              ** intros Ety x Hx. rewrite Hmem by lia. now apply Hs4.
           ++ intros k' Hk' Hka'. rewrite Hother by lia. now apply Hs5.
Qed.

(** X18.  After the placement loop, when the allocatable sections fit in
    what is left of the arena: every allocatable section owns a range
    between the old and the new bump pointer; the ranges follow each other
    in section order without overlap; a section that is not [SHT_NOBITS]
    holds the bytes of the file, a [SHT_NOBITS] section what the arena held
    before; and no byte outside the part of the arena just taken has
    changed. *)
Theorem placed_sections_keep_contents (st : state) :
  0 <= code_used st ->
  code_used st + arena_demand a bin <= arena_capacity ->
  let r := place_sections a bin st in
  (forall x, x < code st + code_used st \/ code st + code_used (snd r) <= x ->
             mem (snd r) x = mem st x)
  /\ forall k, 0 <= k < Z.of_nat (shnum_of a bin) ->
       Z.land (sh_flags (shdr_at a bin k)) SHF_ALLOC <> 0 ->
       let p := addrs_at (fst r) k in
       let shdr := shdr_at a bin k in
       code st + code_used st <= p
       /\ p + sh_size shdr <= code st + code_used (snd r)
       /\ (sh_type shdr <> SHT_NOBITS ->
           forall x, p <= x < p + sh_size shdr ->
             mem (snd r) x = rd8 bin (buf_base bin + sh_offset shdr + (x - p)))
       /\ (sh_type shdr = SHT_NOBITS ->
           forall x, p <= x < p + sh_size shdr -> mem (snd r) x = mem st x)
       /\ forall k', 0 <= k' < k ->
            Z.land (sh_flags (shdr_at a bin k')) SHF_ALLOC <> 0 ->
            addrs_at (fst r) k' + sh_size (shdr_at a bin k') <= p.
Proof.
  intros H0 Hfit r.
  destruct (place_contents_prefix st (shnum_of a bin) H0 Hfit (le_n _)) as [Hframe Hsec].
  fold (place_sections a bin st) in Hframe, Hsec. fold r in Hframe, Hsec.
  split; [exact Hframe|]. intros k Hk Hal p shdr.
  destruct (Hsec k Hk Hal) as (H1 & H2 & [H3 H4] & H5). auto.
Qed.

End Contents.

(** ** The names and values of the emitted symbols *)

Lemma skipn_upd_nth (l : list Z) : forall (i k : nat) (v : Z),
  (i < k)%nat -> skipn k (upd_nth l i v) = skipn k l.
Proof.
  induction l as [|h t IH]; intros i k v Hik; [reflexivity|].
  destruct k as [|k]; [lia|]. destruct i as [|i]; cbn; [reflexivity|].
  apply IH. lia.
Qed.

(** A string that starts after a written field is not changed by the
    write. *)
Lemma cstr_wr8_below (b : buffer) (p q v : Z) :
  q < p -> cstr (wr8 b q v) p = cstr b p.
Proof.
  intro Hq. unfold wr8.
  destruct ((buf_base b <=? q) && (q <? buf_base b + Z.of_nat (List.length (buf_bytes b))))
    eqn:E; [|reflexivity].
  apply andb_prop in E. destruct E as [E1 _]. apply Z.leb_le in E1.
  unfold cstr. cbn [buf_base buf_bytes].
  destruct (buf_base b <=? p); [|reflexivity].
  rewrite skipn_upd_nth by lia. reflexivity.
Qed.

Lemma cstr_wr_below (n : nat) : forall (b : buffer) (p q v : Z),
  q + Z.of_nat n <= p -> cstr (wr n b q v) p = cstr b p.
Proof.
  induction n as [|n IH]; intros b p q v H; cbn [wr]; [reflexivity|].
  rewrite IH by lia. apply cstr_wr8_below. lia.
Qed.

Lemma scan_absent (l : list symbol) (sym : string) :
  (forall s, In s l -> name s <> sym) -> scan l sym = 0.
Proof.
  induction l as [|s l IH]; intro H; [reflexivity|]. cbn [scan].
  destruct (String.eqb (name s) sym) eqn:E.
  - apply String.eqb_eq in E. elim (H s (or_introl eq_refl) E).
  - apply IH. intros s' Hs'. apply H. now right.
Qed.

Lemma scan_app_absent (l1 l2 : list symbol) (sym : string) :
  (forall s, In s l1 -> name s <> sym) -> scan (l1 ++ l2) sym = scan l2 sym.
Proof.
  induction l1 as [|s l IH]; intro H; [reflexivity|]. cbn [scan app].
  destruct (String.eqb (name s) sym) eqn:E.
  - apply String.eqb_eq in E. elim (H s (or_introl eq_refl) E).
  - apply IH. intros s' Hs'. apply H. now right.
Qed.

Lemma scan_app_present (l1 l2 : list symbol) (sym : string) :
  (exists s, In s l1 /\ name s = sym) -> scan (l1 ++ l2) sym = scan l1 sym.
Proof.
  induction l1 as [|s l IH]; intros (s0 & Hin & Hname); [destruct Hin|].
  cbn [scan app]. destruct (String.eqb (name s) sym) eqn:E; [reflexivity|].
  apply IH. exists s0. split; [|exact Hname].
  destruct Hin as [->|Hin]; [|exact Hin].
  apply String.eqb_neq in E. contradiction.
Qed.

Lemma sizeof_Sym_field (a : arch) :
  0 <= st_value_off a /\ st_value_off a + Z.of_nat (ptr_bytes a) <= sizeof_Sym a.
Proof. destruct a; cbn; lia. Qed.

Section Records.

Variable a : arch.
Variable t : tables.
Variable addrs : list Z.
Variable bin : buffer.

(** The name and the address the file gives symbol [k]. *)
Let fn (k : Z) : string := cstr bin (strtab t + st_name (sym_at a bin (symtab t) k)).
Let fa (k : Z) : Z :=
  addrs_at addrs (st_shndx (sym_at a bin (symtab t) k))
  + st_value (sym_at a bin (symtab t) k).
Let fo (k : Z) : bool := is_func_or_object (sym_at a bin (symtab t) k).

(** After [n] of [N] iterations of the emission loop, when the string
    table lies behind the [N] symbol entries: strings are as in the file,
    each record is that of a function or data entry, and each such entry is
    found under its name unless an earlier one carries the same name. *)
Lemma emit_records (st : state) (N n : nat) :
  symtab t + sizeof_Sym a * Z.of_nat N <= strtab t ->
  (n <= N)%nat ->
  let r := for_loop n 0 (emit_symbol a t addrs) (bin, [], st) in
  (forall p, symtab t + sizeof_Sym a * Z.of_nat N <= p ->
             cstr (fst (fst r)) p = cstr bin p)
  /\ (forall s, In s (snd (fst r)) ->
        exists k, 0 <= k < Z.of_nat n /\ fo k = true /\ name s = fn k /\ addr s = fa k)
  /\ (forall k, 0 <= k < Z.of_nat n -> fo k = true ->
        (forall k', 0 <= k' < k -> fo k' = true -> fn k' <> fn k) ->
        scan (snd (fst r)) (fn k) = fa k /\ exists s, In s (snd (fst r)) /\ name s = fn k).
Proof.
  intros Hstr. induction n as [|n IH]; intro Hn.
  - cbn. split; [reflexivity|]. split; [intros s []|]. intros k Hk. lia.
  - rewrite for_loop_succ. specialize (IH ltac:(lia)). cbv zeta in IH.
    destruct (emit_prefix a t addrs bin (fun _ => True) st n (fun _ _ _ => I))
      as [Hsame _].
    destruct (for_loop n 0 (emit_symbol a t addrs) (bin, [], st)) as [[b syms] s0].
    cbn [fst snd] in IH, Hsame. destruct IH as (Hcstr & Hrec & Hscan).
    unfold emit_symbol. rewrite (Hsame (Z.of_nat n)) by lia.
    fold (fo (Z.of_nat n)).
    destruct (fo (Z.of_nat n)) eqn:Efo.
    + cbn [malloc fst snd].
      pose proof (sizeof_Sym_field a) as [Hoff Hend].
      pose proof (rd_range 4 bin (symtab t + sizeof_Sym a * Z.of_nat n)) as Hname.
      assert (Hnm : 0 <= st_name (sym_at a bin (symtab t) (Z.of_nat n))).
      { unfold sym_at, read_sym. destruct a; cbn [st_name]; apply rd_range. }
      assert (Hsz : 0 < sizeof_Sym a) by (destruct a; cbn; lia).
      assert (Hcstr' : forall p, symtab t + sizeof_Sym a * Z.of_nat N <= p ->
                cstr (wr (ptr_bytes a) b
                         (symtab t + sizeof_Sym a * Z.of_nat n + st_value_off a)
                         (fa (Z.of_nat n))) p = cstr bin p).
      { intros p Hp. rewrite cstr_wr_below; [now apply Hcstr|]. nia. }
      split; [exact Hcstr'|].
      fold (fa (Z.of_nat n)). rewrite Hcstr' by lia. fold (fn (Z.of_nat n)).
      split.
      * intros s Hs. apply in_app_or in Hs. destruct Hs as [Hs|[<-|[]]].
        -- destruct (Hrec s Hs) as (k & Hk & H1 & H2 & H3). exists k.
           repeat split; auto; lia.
        -- exists (Z.of_nat n). cbn [name addr]. repeat split; auto; lia.
      * intros k Hk Hfo Hfirst.
        assert (k = Z.of_nat n \/ k < Z.of_nat n) as [->|Hlt] by lia.
        -- split.
           ++ rewrite scan_app_absent.
              ** cbn [scan name addr]. now rewrite String.eqb_refl.
              ** intros s Hs. destruct (Hrec s Hs) as (k' & Hk' & H1 & H2 & _).
                 rewrite H2. apply Hfirst; [lia|exact H1].
           ++ eexists. split; [apply in_or_app; right; left; reflexivity|reflexivity].
        -- destruct (Hscan k ltac:(lia) Hfo Hfirst) as [Hfound (s & Hs & Hname')].
           split.
           ++ rewrite scan_app_present; [exact Hfound|]. exists s. auto.
           ++ exists s. split; [apply in_or_app; now left|exact Hname'].
    + cbn [fst snd]. split; [exact Hcstr|]. split.
      * intros s Hs. destruct (Hrec s Hs) as (k & Hk & H1 & H2 & H3). exists k.
        repeat split; auto; lia.
      * intros k Hk Hfo Hfirst.
        assert (k = Z.of_nat n \/ k < Z.of_nat n) as [->|Hlt] by lia;
          [congruence|].
        apply Hscan; auto; lia.
Qed.

End Records.

Lemma length_wr8 (b : buffer) (p v : Z) :
  List.length (buf_bytes (wr8 b p v)) = List.length (buf_bytes b).
Proof.
  unfold wr8. destruct (_ && _); [|reflexivity]. cbn. apply length_upd_nth.
Qed.

Lemma length_wr (n : nat) : forall (b : buffer) (p v : Z),
  List.length (buf_bytes (wr n b p v)) = List.length (buf_bytes b).
Proof.
  induction n as [|n IH]; intros b p v; cbn [wr]; [reflexivity|].
  now rewrite IH, length_wr8.
Qed.

Lemma rd8_wr8_same (b : buffer) (p v : Z) :
  buf_base b <= p < buf_base b + Z.of_nat (List.length (buf_bytes b)) ->
  rd8 (wr8 b p v) p = v mod 256.
Proof.
  intro Hp. unfold wr8.
  replace ((buf_base b <=? p) && (p <? buf_base b + Z.of_nat (List.length (buf_bytes b))))
    with true by (symmetry; apply andb_true_intro; split;
                  [apply Z.leb_le|apply Z.ltb_lt]; lia).
  unfold rd8. cbn [buf_base buf_bytes]. rewrite length_upd_nth.
  replace ((buf_base b <=? p) && (p <? buf_base b + Z.of_nat (List.length (buf_bytes b))))
    with true by (symmetry; apply andb_true_intro; split;
                  [apply Z.leb_le|apply Z.ltb_lt]; lia).
  rewrite nth_upd_nth_same by lia. apply Z.mod_mod. lia.
Qed.

(** A field written inside the buffer reads back, truncated to its
    width. *)
Lemma rd_wr_same (n : nat) : forall (b : buffer) (p v : Z),
  buf_base b <= p ->
  p + Z.of_nat n <= buf_base b + Z.of_nat (List.length (buf_bytes b)) ->
  rd n (wr n b p v) p = v mod 256 ^ Z.of_nat n.
Proof.
  induction n as [|n IH]; intros b p v H1 H2.
  - cbn. now rewrite Z.mod_1_r.
  - cbn [rd wr]. rewrite rd8_wr_other by lia. rewrite rd8_wr8_same by lia.
    rewrite IH by (rewrite ?buf_base_wr8, ?length_wr8; lia).
    rewrite Nat2Z.inj_succ, Z.pow_succ_r by lia.
    rewrite (Z.rem_mul_r v 256 (256 ^ Z.of_nat n)) by lia. reflexivity.
Qed.

Lemma pow_ptr_bytes (a : arch) : 256 ^ Z.of_nat (ptr_bytes a) = 2 ^ ptr_bits a.
Proof. destruct a; reflexivity. Qed.

Section WriteBack.

Variable a : arch.
Variable t : tables.
Variable addrs : list Z.
Variable bin : buffer.

Lemma sym_at_wr_same (b : buffer) (k v : Z) :
  buf_base b <= symtab t + sizeof_Sym a * k + st_value_off a ->
  symtab t + sizeof_Sym a * k + st_value_off a + Z.of_nat (ptr_bytes a)
  <= buf_base b + Z.of_nat (List.length (buf_bytes b)) ->
  sym_at a (wr (ptr_bytes a) b (symtab t + sizeof_Sym a * k + st_value_off a) v)
         (symtab t) k
  = mkSym (st_name (sym_at a b (symtab t) k)) (st_info (sym_at a b (symtab t) k))
          (st_shndx (sym_at a b (symtab t) k)) (to_size a v).
Proof.
  intros H1 H2. unfold sym_at, read_sym, to_size, wrap. rewrite <- pow_ptr_bytes.
  destruct a; cbn [ptr_bytes sizeof_Sym st_value_off st_name st_info st_shndx] in *;
    rewrite !rd_wr_disjoint by lia.
  - replace (symtab t + 24 * k + 8) with (symtab t + 24 * k + 8) in * by lia.
    rewrite rd_wr_same by lia. reflexivity.
  - rewrite rd_wr_same by lia. reflexivity.
Qed.

(** A write whose field is not wholly inside the buffer still leaves the
    other fields of the entry as they were. *)
Lemma sym_at_wr_fields (b : buffer) (k v : Z) :
  let sym' := sym_at a (wr (ptr_bytes a) b
                           (symtab t + sizeof_Sym a * k + st_value_off a) v)
                     (symtab t) k in
  st_name sym' = st_name (sym_at a b (symtab t) k)
  /\ st_info sym' = st_info (sym_at a b (symtab t) k)
  /\ st_shndx sym' = st_shndx (sym_at a b (symtab t) k).
Proof.
  unfold sym_at, read_sym.
  destruct a; cbn [ptr_bytes sizeof_Sym st_value_off st_name st_info st_shndx];
    rewrite !rd_wr_disjoint by lia; auto.
Qed.

Lemma emit_values (st : state) (n : nat) :
  let r := for_loop n 0 (emit_symbol a t addrs) (bin, [], st) in
  buf_base (fst (fst r)) = buf_base bin
  /\ List.length (buf_bytes (fst (fst r))) = List.length (buf_bytes bin)
  /\ forall k, 0 <= k < Z.of_nat n ->
       let sym := sym_at a bin (symtab t) k in
       let sym' := sym_at a (fst (fst r)) (symtab t) k in
       st_name sym' = st_name sym /\ st_info sym' = st_info sym
       /\ st_shndx sym' = st_shndx sym
       /\ (is_func_or_object sym = false -> st_value sym' = st_value sym)
       /\ (is_func_or_object sym = true ->
           buf_base bin <= symtab t + sizeof_Sym a * k + st_value_off a ->
           symtab t + sizeof_Sym a * k + st_value_off a + Z.of_nat (ptr_bytes a)
           <= buf_base bin + Z.of_nat (List.length (buf_bytes bin)) ->
           st_value sym' = to_size a (addrs_at addrs (st_shndx sym) + st_value sym)).
Proof.
  induction n as [|n IH].
  - cbn. split; [reflexivity|]. split; [reflexivity|]. intros k Hk. lia.
  - rewrite for_loop_succ. cbv zeta in IH.
    destruct (emit_prefix a t addrs bin (fun _ => True) st n (fun _ _ _ => I))
      as [Hsame _].
    destruct (for_loop n 0 (emit_symbol a t addrs) (bin, [], st)) as [[b syms] s0].
    cbn [fst snd] in IH, Hsame. destruct IH as (Hbase & Hlen & Hval).
    unfold emit_symbol. rewrite (Hsame (Z.of_nat n)) by lia.
    destruct (is_func_or_object (sym_at a bin (symtab t) (Z.of_nat n))) eqn:Efo.
    + cbn [malloc fst snd]. rewrite buf_base_wr, length_wr.
      split; [exact Hbase|]. split; [exact Hlen|]. intros k Hk.
      assert (k = Z.of_nat n \/ k < Z.of_nat n) as [->|Hlt] by lia.
      * destruct (sym_at_wr_fields b (Z.of_nat n)
                    (addrs_at addrs (st_shndx (sym_at a bin (symtab t) (Z.of_nat n)))
                     + st_value (sym_at a bin (symtab t) (Z.of_nat n))))
          as (F1 & F2 & F3).
        cbv zeta. rewrite F1, F2, F3, (Hsame (Z.of_nat n)) by lia.
        repeat split; [congruence|].
        intros _ H1 H2. rewrite sym_at_wr_same by (rewrite ?Hbase, ?Hlen; lia).
        reflexivity.
      * cbv zeta. rewrite sym_at_wr_other by lia. apply Hval. lia.
    + cbn [fst snd]. split; [exact Hbase|]. split; [exact Hlen|]. intros k Hk.
      assert (k = Z.of_nat n \/ k < Z.of_nat n) as [->|Hlt] by lia.
      * cbv zeta. rewrite (Hsame (Z.of_nat n)) by lia.
        repeat split; congruence.
      * apply Hval. lia.
Qed.

End WriteBack.

Section Lookup.

Variable a : arch.
Variable dlsym : string -> Z.
Variable host_mmap : Z -> Z.
Variable host_file : string -> file_result.
Variable handle_malloc_fails : bool.

(** The parts of the layout, as the loops of [load_object] compute them. *)
Lemma load_layout_parts (obj : obj_handle) (bin : buffer) (st st1 : state) (l : layout) :
  load_layout a obj bin st = (l, st1) ->
  let t := find_tables a bin in
  let addrs := fst (place_sections a bin st) in
  let r := for_loop (Z.to_nat (symnum t)) 0 (emit_symbol a t addrs)
                    (bin, [], snd (malloc (snd (place_sections a bin st)))) in
  l_tables l = t /\ l_addrs l = addrs
  /\ l_bin l = fst (fst r) /\ symbols (l_obj l) = snd (fst r).
Proof.
  unfold load_layout. destruct (place_sections a bin st) as [addrs sp].
  cbn [malloc fst snd].
  destruct (for_loop _ 0 (emit_symbol a (find_tables a bin) addrs) _) as [[b syms] se].
  intro H. inversion H. subst. cbn. auto.
Qed.

(** The index [objsym] scans is the list the emission loop built. *)
Lemma objsym_scans_emitted (filename : string) (flags : Z) (st st0 st' : state)
    (bin : buffer) (blk : nat) (obj h : obj_handle) (sym : string) :
  objopen_acquire a host_mmap host_file handle_malloc_fails filename st
  = inl (bin, blk, obj, st0) ->
  objopen a dlsym host_mmap host_file handle_malloc_fails filename flags st
  = (Some h, st') ->
  objsym h sym
  = scan (snd (fst (for_loop (Z.to_nat (symnum (find_tables a bin))) 0
                      (emit_symbol a (find_tables a bin)
                                   (fst (place_sections a bin st0)))
                      (bin, [], snd (malloc (snd (place_sections a bin st0)))))))
         sym.
Proof.
  intros Hacq Hopen. apply objopen_some in Hopen.
  destruct Hopen as (bin' & blk' & obj' & st0' & l & s1 & rr & s2 & Hacq' & Hlay & _ & -> & _).
  rewrite Hacq in Hacq'. inversion Hacq'. subst bin' blk' obj' st0'. clear Hacq'.
  apply objopen_acquire_handle in Hacq. destruct Hacq as [Hobj _].
  pose proof (load_layout_parts obj bin st0 s1 l Hlay) as (_ & _ & _ & Hsyms).
  apply (load_layout_blocks a) in Hlay; [|rewrite Hobj; reflexivity].
  destruct Hlay as (Hnum & _).
  unfold objsym. rewrite Hnum, Nat2Z.id, firstn_all, Hsyms. reflexivity.
Qed.

(** X19.  Lookup after load.  When the string table lies behind the symbol
    table in the file, [objsym] on the handle [objopen] returned finds
    every function or data symbol [k] under its name, at the placement of
    its section plus its value, provided no function or data symbol before
    [k] carries the same name. *)
Theorem lookup_finds_loaded_symbol
    (filename : string) (flags : Z) (st st0 st' : state)
    (bin : buffer) (blk : nat) (obj h : obj_handle) (k : Z) :
  objopen_acquire a host_mmap host_file handle_malloc_fails filename st
  = inl (bin, blk, obj, st0) ->
  objopen a dlsym host_mmap host_file handle_malloc_fails filename flags st
  = (Some h, st') ->
  let t := find_tables a bin in
  let addrs := fst (place_sections a bin st0) in
  let name_of := fun i => cstr bin (strtab t + st_name (sym_at a bin (symtab t) i)) in
  symtab t + sizeof_Sym a * symnum t <= strtab t ->
  0 <= k < symnum t ->
  is_func_or_object (sym_at a bin (symtab t) k) = true ->
  (forall k', 0 <= k' < k ->
     is_func_or_object (sym_at a bin (symtab t) k') = true -> name_of k' <> name_of k) ->
  objsym h (name_of k)
  = addrs_at addrs (st_shndx (sym_at a bin (symtab t) k))
    + st_value (sym_at a bin (symtab t) k).
Proof.
  intros Hacq Hopen t addrs name_of Hstr Hk Hfo Hfirst.
  rewrite (objsym_scans_emitted filename flags st st0 st' bin blk obj h _ Hacq Hopen).
  fold t. fold addrs.
  destruct (emit_records a t addrs bin (snd (malloc (snd (place_sections a bin st0))))
              (Z.to_nat (symnum t)) (Z.to_nat (symnum t)))
    as (_ & _ & Hscan); [rewrite Z2Nat.id by lia; exact Hstr|lia|].
  apply Hscan; [lia|exact Hfo|exact Hfirst].
Qed.

(** X20.  Under the same condition, [objsym] returns [NULL] for a name
    that no function or data symbol of the object carries. *)
Theorem lookup_of_absent_name
    (filename : string) (flags : Z) (st st0 st' : state)
    (bin : buffer) (blk : nat) (obj h : obj_handle) (sym : string) :
  objopen_acquire a host_mmap host_file handle_malloc_fails filename st
  = inl (bin, blk, obj, st0) ->
  objopen a dlsym host_mmap host_file handle_malloc_fails filename flags st
  = (Some h, st') ->
  let t := find_tables a bin in
  symtab t + sizeof_Sym a * symnum t <= strtab t ->
  (forall k, 0 <= k < symnum t ->
     is_func_or_object (sym_at a bin (symtab t) k) = true ->
     cstr bin (strtab t + st_name (sym_at a bin (symtab t) k)) <> sym) ->
  objsym h sym = 0.
Proof.
  intros Hacq Hopen t Hstr Habsent.
  rewrite (objsym_scans_emitted filename flags st st0 st' bin blk obj h _ Hacq Hopen).
  fold t. apply scan_absent.
  destruct (Z_le_gt_dec (symnum t) 0) as [Hle|Hgt].
  - replace (Z.to_nat (symnum t)) with 0%nat by lia. intros s [].
  - destruct (emit_records a t (fst (place_sections a bin st0)) bin
                (snd (malloc (snd (place_sections a bin st0))))
                (Z.to_nat (symnum t)) (Z.to_nat (symnum t)))
      as (_ & Hrec & _); [rewrite Z2Nat.id by lia; exact Hstr|lia|].
    intros s Hs. destruct (Hrec s Hs) as (k & Hk & Hfo & Hname & _).
    rewrite Hname. apply Habsent; [lia|exact Hfo].
Qed.

(** X21.  The emission loop writes the runtime address back into the
    symbol table: after [load_object]'s third pass the name, type and
    section index of every entry are those of the file; the value of an
    entry that is neither function nor data is unchanged; the value of a
    function or data entry whose field lies inside the buffer is the
    address given to [objsym], modulo the pointer size, and this is the
    address [relocate] uses for a relocation against that symbol. *)
Theorem symbol_value_written_back
    (obj : obj_handle) (bin : buffer) (st st1 : state) (l : layout) (k : Z) :
  load_layout a obj bin st = (l, st1) ->
  let t := find_tables a bin in
  let sym := sym_at a bin (symtab t) k in
  let sym' := sym_at a (l_bin l) (symtab t) k in
  0 <= k < symnum t ->
  st_name sym' = st_name sym /\ st_info sym' = st_info sym
  /\ st_shndx sym' = st_shndx sym
  /\ (is_func_or_object sym = false -> st_value sym' = st_value sym)
  /\ (is_func_or_object sym = true ->
      buf_base bin <= symtab t + sizeof_Sym a * k + st_value_off a ->
      symtab t + sizeof_Sym a * k + st_value_off a + Z.of_nat (ptr_bytes a)
      <= buf_base bin + Z.of_nat (List.length (buf_bytes bin)) ->
      st_value sym' = to_size a (addrs_at (l_addrs l) (st_shndx sym) + st_value sym)
      /\ forall st2 : state,
           sym_dispatch dlsym (l_bin l) (strtab t) (l_addrs l) sym' st2
           = (Done (to_size a (addrs_at (l_addrs l) (st_shndx sym) + st_value sym)),
              st2)).
Proof.
  intros Hlay t sym sym' Hk.
  pose proof (load_layout_parts obj bin st st1 l Hlay) as (_ & Haddrs & Hbin & _).
  cbv zeta in Haddrs, Hbin. fold t in Hbin.
  destruct (emit_values a t (fst (place_sections a bin st)) bin
              (snd (malloc (snd (place_sections a bin st)))) (Z.to_nat (symnum t)))
    as (_ & _ & Hval).
  specialize (Hval k ltac:(lia)). cbv zeta in Hval. rewrite <- Hbin, <- Haddrs in Hval.
  fold sym in Hval. fold sym' in Hval.
  destruct Hval as (H1 & H2 & H3 & H4 & H5).
  split; [exact H1|]. split; [exact H2|]. split; [exact H3|]. split; [exact H4|].
  intros Hfo Hlo Hhi. specialize (H5 Hfo Hlo Hhi). split; [exact H5|].
  intros st2. unfold sym_dispatch. rewrite H2, H5.
  unfold is_func_or_object in Hfo. fold sym in Hfo.
  destruct (ELF_ST_TYPE (st_info sym) =? STT_SECTION) eqn:E.
  - apply Z.eqb_eq in E. rewrite E in Hfo. discriminate.
  - rewrite orb_comm in Hfo. rewrite Hfo. reflexivity.
Qed.

End Lookup.

(** ** The further properties on sample objects *)

Lemma fixture_acquired_inl (filename : string) (st : state) :
  Fixture.acquires filename st = true ->
  Fixture.acquire filename st
  = inl (Fixture.bin_of filename st, Fixture.blk_of filename st,
         Fixture.obj_of filename st, Fixture.st_of filename st).
Proof.
  unfold Fixture.acquires, Fixture.bin_of, Fixture.blk_of, Fixture.obj_of,
    Fixture.st_of, Fixture.acquired.
  destruct (Fixture.acquire filename st) as [[[[b k] o] s]|s];
    [reflexivity|discriminate].
Qed.

Lemma fixture_opened_some (filename : string) (st : state) :
  Fixture.opens filename st = true ->
  Fixture.open filename st
  = (Some (Fixture.handle_of filename st), snd (Fixture.open filename st)).
Proof.
  intro H. apply pair_fst. unfold Fixture.opens in H. unfold Fixture.handle_of.
  destruct (fst (Fixture.open filename st)); [reflexivity|discriminate].
Qed.

(** 30 rounded to 16 in both directions, and 32, which is aligned. *)
Lemma align_pow2_witness :
  align_down X86_64 30 16 = 16 /\ align_up X86_64 30 16 = 32
  /\ align_up X86_64 32 16 = 32.
Proof.
  destruct (align_pow2 X86_64 30 4) as (Hd & _ & _ & _ & _ & Hi);
    [lia|lia|vm_compute; reflexivity|].
  split; [exact Hd|]. split; [vm_compute; reflexivity|exact Hi].
Defined.

(** The largest [size_t] rounds up to 0. *)
Lemma align_up_wraps_witness :
  align_up X86_64 (SIZE_MAX X86_64) 16 = 0.
Proof.
  apply (align_up_wraps X86_64 (SIZE_MAX X86_64) 4); vm_compute;
    try split; congruence.
Defined.

(** [abs64.o]: the 64-bit word at offset 5 of [.text] receives the address
    of [strlen] plus the addend. *)
Lemma absolute_reloc_in_place_witness :
  exists m' : memory,
    relocate_one X86_64 Sample.resolver Fixture.abs64_bin Sample.hello_symtab
      Sample.hello_strtab Sample.hello_addrs false
      (shdr_at X86_64 Fixture.abs64_bin 2) 0 0 Sample.hello_placed
    = (Done 0, set_mem Sample.hello_placed m')
    /\ load 8 m' (Sample.arena + 5) = Sample.strlen_addr - 4.
Proof.
  destruct (absolute_reloc_in_place X86_64 Sample.resolver Fixture.abs64_bin
              Sample.hello_symtab Sample.hello_strtab Sample.hello_addrs
              (shdr_at X86_64 Fixture.abs64_bin 2) 0 0 Sample.strlen_addr
              Sample.hello_placed)
    as [(m' & Hone & Hword & _) _];
    [vm_compute; reflexivity|vm_compute; reflexivity|].
  exists m'. split; [exact Hone|].
  set (tgt := addrs_at Sample.hello_addrs (sh_info (shdr_at X86_64 Fixture.abs64_bin 2))
              + r_offset (rel_at X86_64 Fixture.abs64_bin
                            (shdr_at X86_64 Fixture.abs64_bin 2) 0)) in *.
  assert (Ht : tgt = Sample.arena + 5) by (vm_compute; reflexivity).
  rewrite Ht in Hword. cbn [ptr_bytes] in Hword. rewrite Hword.
  vm_compute. reflexivity.
Defined.

(** [pc32.o]: the 32-bit word at offset 5 of [.text] receives the distance
    from there to [strlen], less 4. *)
Lemma pc_relative_reloc_in_place_witness :
  exists m' : memory,
    relocate_one X86_64 Sample.resolver Fixture.pc32_bin Sample.hello_symtab
      Sample.hello_strtab Sample.hello_addrs false
      (shdr_at X86_64 Fixture.pc32_bin 2) 0 0 Sample.hello_placed
    = (Done 0, set_mem Sample.hello_placed m')
    /\ load 4 m' (Sample.arena + 5)
       = wrap 32 (Sample.strlen_addr - (Sample.arena + 5) - 4).
Proof.
  destruct (pc_relative_reloc_in_place X86_64 Sample.resolver Fixture.pc32_bin
              Sample.hello_symtab Sample.hello_strtab Sample.hello_addrs
              (shdr_at X86_64 Fixture.pc32_bin 2) 0 0 Sample.strlen_addr
              Sample.hello_placed)
    as [(m' & Hone & Hword & _) _];
    [vm_compute; reflexivity|vm_compute; reflexivity|].
  exists m'. split; [exact Hone|].
  set (tgt := addrs_at Sample.hello_addrs (sh_info (shdr_at X86_64 Fixture.pc32_bin 2))
              + r_offset (rel_at X86_64 Fixture.pc32_bin
                            (shdr_at X86_64 Fixture.pc32_bin 2) 0)) in *.
  assert (Ht : tgt = Sample.arena + 5) by (vm_compute; reflexivity).
  rewrite Ht in Hword. rewrite Hword. vm_compute. reflexivity.
Defined.

(** [got.o]: the slot is the 8 bytes at the bump pointer, [arena + 16]. *)
Lemma gotpcrelx_slot_witness :
  (exists st' : state,
      relocate_one X86_64 Sample.resolver Fixture.got_bin Sample.hello_symtab
        Sample.hello_strtab Sample.hello_addrs false
        (shdr_at X86_64 Fixture.got_bin 2) 0 0 Sample.hello_placed = (Done 0, st')
      /\ code_used st' = 24
      /\ bytes_at (mem st') (Sample.arena + 16) 8 = [0; 64; 222; 247; 255; 127; 0; 0])
  /\ relocate_one X86_64 Sample.resolver Fixture.got_bin Sample.hello_symtab
       Sample.hello_strtab Sample.hello_addrs true
       (shdr_at X86_64 Fixture.got_bin 2) 0 0 Sample.hello_placed
     = (Done 8, Sample.hello_placed).
Proof.
  destruct (gotpcrelx_slot Sample.resolver Fixture.got_bin Sample.hello_symtab
              Sample.hello_strtab Sample.hello_addrs
              (shdr_at X86_64 Fixture.got_bin 2) 0 0 Sample.strlen_addr
              Sample.hello_placed)
    as [(st' & Hone & _ & Hused & _ & _ & _ & Hfar) Hsize];
    [vm_compute; reflexivity|vm_compute; reflexivity|].
  split; [|exact Hsize].
  exists st'. split; [exact Hone|]. split; [exact Hused|].
  destruct Hfar as [Hb _]; [vm_compute; left; discriminate|]. exact Hb.
Defined.

(** [tls.o]: its relocation names a thread-local symbol. *)
Lemma unsupported_symbol_fails_witness :
  fst (Fixture.open "tls.o" Sample.boot) = None
  /\ objerror (snd (Fixture.open "tls.o" Sample.boot))
     = "unsupported relocation sym 6"%string.
Proof.
  assert (Hacq : Fixture.acquires "tls.o" Sample.boot = true)
    by (vm_compute; reflexivity).
  pose proof (unsupported_symbol_fails X86_64 Sample.resolver Sample.host_mmap
                Fixture.files false "tls.o" 0 Sample.boot
                (Fixture.st_of "tls.o" Sample.boot)
                (snd (Fixture.laid_out "tls.o" Sample.boot))
                (Fixture.bin_of "tls.o" Sample.boot)
                (Fixture.blk_of "tls.o" Sample.boot)
                (Fixture.obj_of "tls.o" Sample.boot)
                (fst (Fixture.laid_out "tls.o" Sample.boot))
                2 0 (fixture_acquired_inl "tls.o" Sample.boot Hacq)
                (surjective_pairing _)) as H.
  destruct H as [H1 H2].
  - unfold reaches. split; [vm_compute; split; [discriminate|reflexivity]|].
    split; [vm_compute; reflexivity|].
    split; [vm_compute; split; [discriminate|reflexivity]|].
    exists 0. vm_compute. reflexivity.
  - vm_compute. discriminate.
  - vm_compute. discriminate.
  - vm_compute. discriminate.
  - vm_compute. discriminate.
  - split; [exact H1|]. unfold Fixture.open. rewrite H2. vm_compute. reflexivity.
Defined.

(** [debug.o]: the one relocation record has an unknown type and a symbol
    that does not resolve, but its section targets a section that is not
    allocatable. *)
Lemma relocate_skips_unwalked_witness :
  section_types X86_64 (Fixture.bin_of "debug.o" Sample.boot) 2 = [99]
  /\ relocate X86_64 Sample.resolver (Fixture.bin_of "debug.o" Sample.boot) 0 0 []
       false Sample.boot = (0, Sample.boot)
  /\ Fixture.opens "debug.o" Sample.boot = true.
Proof.
  split; [vm_compute; reflexivity|]. split; [|vm_compute; reflexivity].
  apply relocate_skips_unwalked. intros i Hi.
  assert (Hn : Z.of_nat (shnum_of X86_64 (Fixture.bin_of "debug.o" Sample.boot)) = 5)
    by (vm_compute; reflexivity).
  rewrite Hn in Hi.
  assert (Hc : i = 0 \/ i = 1 \/ i = 2 \/ i = 3 \/ i = 4) by lia.
  destruct Hc as [->|[->|[->|[->| ->]]]]; left; vm_compute; reflexivity.
Defined.

Lemma fixture_acquire_inr (filename : string) (st : state) :
  Fixture.acquires filename st = false ->
  Fixture.acquire filename st = inr (Fixture.refused filename st).
Proof.
  unfold Fixture.acquires, Fixture.refused.
  destruct (Fixture.acquire filename st) as [x|s]; [discriminate|reflexivity].
Qed.

Lemma fresh_heap_boot : fresh_heap Sample.boot.
Proof. intros b []. Qed.

(** [hello.o] has its symbol table in section 3 and its string table in
    section 4; [swapped.o] has them the other way round and its string
    table is not found. *)
Lemma find_tables_one_symtab_witness :
  strtab (find_tables X86_64 Sample.hello_bin) = Sample.hello_strtab
  /\ symtab (find_tables X86_64 (mkBuffer 20480 Fixture.swapped_o)) = 20480 + 407
  /\ strtab_index (find_tables X86_64 (mkBuffer 20480 Fixture.swapped_o)) = 3
  /\ strtab (find_tables X86_64 (mkBuffer 20480 Fixture.swapped_o)) = 0.
Proof.
  assert (Huniq : forall (b : buffer) (i : Z),
            Z.of_nat (shnum_of X86_64 b) = 5 ->
            (forall j, j = 0 \/ j = 1 \/ j = 2 \/ j = 3 \/ j = 4 -> j <> i ->
                       sh_type (shdr_at X86_64 b j) <> SHT_SYMTAB) ->
            forall j, 0 <= j < Z.of_nat (shnum_of X86_64 b) -> j <> i ->
                      sh_type (shdr_at X86_64 b j) <> SHT_SYMTAB).
  { intros b i Hn H j Hj. apply H. lia. }
  destruct (find_tables_one_symtab X86_64 Sample.hello_bin 3) as (_ & _ & _ & Hs & _).
  { vm_compute. split; [discriminate|reflexivity]. }
  { vm_compute. reflexivity. }
  { apply Huniq; [vm_compute; reflexivity|].
    intros j [->|[->|[->|[->| ->]]]] Hj; try (elim Hj; reflexivity);
      vm_compute; discriminate. }
  destruct (find_tables_one_symtab X86_64 (mkBuffer 20480 Fixture.swapped_o) 4)
    as (Hsym & _ & Hidx & _ & Hnone).
  { vm_compute. split; [discriminate|reflexivity]. }
  { vm_compute. reflexivity. }
  { apply Huniq; [vm_compute; reflexivity|].
    intros j [->|[->|[->|[->| ->]]]] Hj; try (elim Hj; reflexivity);
      vm_compute; discriminate. }
  split.
  { rewrite Hs; [vm_compute; reflexivity| |vm_compute; reflexivity].
    vm_compute. split; reflexivity. }
  split; [rewrite Hsym; vm_compute; reflexivity|].
  split; [rewrite Hidx; vm_compute; reflexivity|].
  apply Hnone. left. vm_compute. discriminate.
Defined.

(** After [notes.txt] was refused, [hello.o] opens and the error slot
    still reads the message about [notes.txt]. *)
Lemma success_keeps_error_slot_witness :
  let st := snd (Fixture.open "notes.txt" Sample.boot) in
  Fixture.opens "hello.o" st = true
  /\ objerror (snd (Fixture.open "hello.o" st)) = "notes.txt is not ELF"%string.
Proof.
  intro st.
  assert (Hopen : Fixture.opens "hello.o" st = true) by (vm_compute; reflexivity).
  split; [exact Hopen|].
  rewrite (success_keeps_error_slot X86_64 Sample.resolver Sample.host_mmap
             Fixture.files false "hello.o" 0 st (snd (Fixture.open "hello.o" st))
             (Fixture.handle_of "hello.o" st) (fixture_opened_some "hello.o" st Hopen)).
  vm_compute. reflexivity.
Defined.

(** [missing.o] is refused and leaves a message. *)
Lemma failure_sets_error_slot_witness :
  fst (Fixture.open "missing.o" Sample.boot) = None
  /\ objerror (snd (Fixture.open "missing.o" Sample.boot)) <> EmptyString.
Proof.
  assert (Hnone : fst (Fixture.open "missing.o" Sample.boot) = None)
    by (vm_compute; reflexivity).
  split; [exact Hnone|].
  apply (failure_sets_error_slot X86_64 Sample.resolver Sample.host_mmap
           Fixture.files false "missing.o" 0 Sample.boot).
  - vm_compute. discriminate.
  - apply pair_fst. exact Hnone.
Defined.

(** A host that cannot map the arena. *)
Lemma mmap_failure_is_final_witness :
  let r := objopen X86_64 Sample.resolver Fixture.no_mmap Fixture.files false
                   "hello.o" 0 Sample.boot in
  fst r = None
  /\ objerror (snd r) = "mmap failed"%string
  /\ objopen X86_64 Sample.resolver Fixture.no_mmap Fixture.files false
             "hello.o" 0 (snd r) = (None, snd r).
Proof.
  intro r.
  destruct (mmap_failure_is_final X86_64 Sample.resolver Fixture.no_mmap
              Fixture.files false "hello.o" 0 Sample.boot eq_refl eq_refl)
    as (H1 & H2 & _ & _ & _ & H3).
  split; [exact H1|]. split; [exact H2|]. apply H3.
Defined.

(** [disk.o] cannot be read: the buffer is freed again. *)
Lemma early_failure_frees_all_witness :
  fst (Fixture.open "disk.o" Sample.boot) = None
  /\ objerror (snd (Fixture.open "disk.o" Sample.boot))
     = "fread failed: Input/output error"%string
  /\ live (snd (Fixture.open "disk.o" Sample.boot)) = [].
Proof.
  assert (Hacq : Fixture.acquires "disk.o" Sample.boot = false)
    by (vm_compute; reflexivity).
  destruct (early_failure_frees_all X86_64 Sample.resolver Sample.host_mmap
              Fixture.files false "disk.o" 0 Sample.boot
              (Fixture.refused "disk.o" Sample.boot) fresh_heap_boot
              (fixture_acquire_inr "disk.o" Sample.boot Hacq))
    as (Hopen & Hlive & _).
  unfold Fixture.open. rewrite Hopen. cbn [fst snd].
  split; [reflexivity|]. split; [vm_compute; reflexivity|exact Hlive].
Defined.

(** [hello.o] opened and closed: block 2, the [symbols] array, stays. *)
Lemma close_keeps_symbols_array_witness :
  let h := Fixture.handle_of "hello.o" Sample.boot in
  let st1 := snd (Fixture.open "hello.o" Sample.boot) in
  symbols_block h = Some 2%nat
  /\ exists arr : nat,
       symbols_block h = Some arr
       /\ In arr (live (snd (objclose h st1)))
       /\ forall b, In b (live (snd (objclose h st1))) <-> b = arr \/ False.
Proof.
  intros h st1.
  split; [vm_compute; reflexivity|].
  assert (Hopen : Fixture.opens "hello.o" Sample.boot = true)
    by (vm_compute; reflexivity).
  destruct (close_keeps_symbols_array X86_64 Sample.resolver Sample.host_mmap
              Fixture.files false "hello.o" 0 Sample.boot st1 h fresh_heap_boot
              (fixture_opened_some "hello.o" Sample.boot Hopen))
    as (arr & H1 & _ & H2 & H3); [vm_compute; reflexivity|].
  exists arr. split; [exact H1|]. split; [exact H2|exact H3].
Defined.

(** [missing.o] is refused after its one symbol was emitted: block 2
    stays. *)
Lemma failed_load_keeps_symbols_array_witness :
  fst (Fixture.open "missing.o" Sample.boot) = None
  /\ exists arr : nat,
       In arr (live (snd (Fixture.open "missing.o" Sample.boot)))
       /\ forall b, In b (live (snd (Fixture.open "missing.o" Sample.boot)))
                    <-> b = arr \/ False.
Proof.
  assert (Hnone : fst (Fixture.open "missing.o" Sample.boot) = None)
    by (vm_compute; reflexivity).
  split; [exact Hnone|].
  assert (Hacq : Fixture.acquires "missing.o" Sample.boot = true)
    by (vm_compute; reflexivity).
  destruct (failed_load_keeps_symbols_array X86_64 Sample.resolver Sample.host_mmap
              Fixture.files false "missing.o" 0 Sample.boot
              (Fixture.st_of "missing.o" Sample.boot)
              (snd (Fixture.open "missing.o" Sample.boot))
              (Fixture.bin_of "missing.o" Sample.boot)
              (Fixture.blk_of "missing.o" Sample.boot)
              (Fixture.obj_of "missing.o" Sample.boot) fresh_heap_boot
              (fixture_acquired_inl "missing.o" Sample.boot Hacq)
              (pair_fst _ _ Hnone))
    as (arr & _ & _ & H2 & H3); [vm_compute; reflexivity|].
  exists arr. split; [exact H2|exact H3].
Defined.

(** [stripped.o] has no symbol table. *)
Lemma no_symtab_no_symbols_witness :
  Fixture.opens "stripped.o" Sample.boot = true
  /\ symbols (Fixture.handle_of "stripped.o" Sample.boot) = []
  /\ forall sym : string, objsym (Fixture.handle_of "stripped.o" Sample.boot) sym = 0.
Proof.
  assert (Hacq : Fixture.acquires "stripped.o" Sample.boot = true)
    by (vm_compute; reflexivity).
  assert (Hopen : Fixture.opens "stripped.o" Sample.boot = true)
    by (vm_compute; reflexivity).
  split; [exact Hopen|].
  destruct (no_symtab_no_symbols X86_64 Sample.resolver Sample.host_mmap
              Fixture.files false "stripped.o" 0 Sample.boot
              (Fixture.st_of "stripped.o" Sample.boot)
              (snd (Fixture.open "stripped.o" Sample.boot))
              (Fixture.bin_of "stripped.o" Sample.boot)
              (Fixture.blk_of "stripped.o" Sample.boot)
              (Fixture.obj_of "stripped.o" Sample.boot)
              (Fixture.handle_of "stripped.o" Sample.boot)
              (fixture_acquired_inl "stripped.o" Sample.boot Hacq)
              (fixture_opened_some "stripped.o" Sample.boot Hopen))
    as (H1 & _ & H3).
  - intros i Hi.
    assert (Hn : Z.of_nat (shnum_of X86_64 (Fixture.bin_of "stripped.o" Sample.boot)) = 3)
      by (vm_compute; reflexivity).
    rewrite Hn in Hi. assert (Hc : i = 0 \/ i = 1 \/ i = 2) by lia.
    destruct Hc as [->|[->| ->]]; vm_compute; discriminate.
  - split; [exact H1|exact H3].
Defined.

(** Two opens in a row: the first maps the arena, the second keeps it. *)
Lemma arena_is_mapped_once_witness :
  let st1 := snd (Fixture.open "hello.o" Sample.boot) in
  let st2 := snd (Fixture.open "twice.o" st1) in
  mapped st1 = [(Sample.arena, arena_capacity)]
  /\ code st2 = code st1 /\ mapped st2 = mapped st1.
Proof.
  intros st1 st2.
  destruct (arena_is_mapped_once X86_64 Sample.resolver Sample.host_mmap
              Fixture.files false "hello.o" 0 Sample.boot) as [_ Hfirst].
  destruct (arena_is_mapped_once X86_64 Sample.resolver Sample.host_mmap
              Fixture.files false "twice.o" 0 st1) as [Hnext _].
  split.
  - apply Hfirst; [reflexivity|vm_compute; discriminate].
  - apply Hnext. vm_compute. discriminate.
Defined.

(** A file that does not exist. *)
Lemma unreadable_file_fails_witness :
  fst (Fixture.open "nope.o" Sample.boot) = None
  /\ objerror (snd (Fixture.open "nope.o" Sample.boot))
     = "failed to open nope.o: No such file or directory"%string.
Proof.
  destruct (unreadable_file_fails X86_64 Sample.resolver Sample.host_mmap
              Fixture.files false "nope.o" 0 Sample.boot
              "No such file or directory") as (H & _);
    [vm_compute; discriminate|].
  unfold Fixture.open. rewrite H by reflexivity. split; reflexivity.
Defined.

(** [hello.o] in a fresh process: the fifth byte of [.text], the opcode of
    the call, is at [arena + 4]. *)
Lemma placed_sections_keep_contents_witness :
  let bin := Fixture.bin_of "hello.o" Sample.boot in
  let r := place_sections X86_64 bin (Fixture.st_of "hello.o" Sample.boot) in
  addrs_at (fst r) 1 = Sample.arena
  /\ mem (snd r) (Sample.arena + 4) = 232.
Proof.
  intros bin r.
  assert (Hp : addrs_at (fst r) 1 = Sample.arena) by (vm_compute; reflexivity).
  split; [exact Hp|].
  destruct (placed_sections_keep_contents X86_64 bin
              (Fixture.st_of "hello.o" Sample.boot)) as [_ Hsec];
    [vm_compute; discriminate|vm_compute; discriminate|].
  destruct (Hsec 1) as (_ & _ & Hbytes & _ & _);
    [vm_compute; split; [discriminate|reflexivity]|vm_compute; discriminate|].
  fold r in Hbytes. rewrite Hp in Hbytes.
  rewrite Hbytes; [vm_compute; reflexivity|vm_compute; discriminate|].
  vm_compute. split; [discriminate|reflexivity].
Defined.

(** [twice.o]: [g] is found at offset 8 of [.text]; [f], which two
    entries carry, at the offset of the first; [h] is not found. *)
Lemma lookup_finds_loaded_symbol_witness :
  objsym (Fixture.handle_of "twice.o" Sample.boot) "g" = Sample.arena + 8
  /\ objsym (Fixture.handle_of "twice.o" Sample.boot) "f" = Sample.arena.
Proof.
  assert (Hacq : Fixture.acquires "twice.o" Sample.boot = true)
    by (vm_compute; reflexivity).
  assert (Hopen : Fixture.opens "twice.o" Sample.boot = true)
    by (vm_compute; reflexivity).
  pose proof (fun k => lookup_finds_loaded_symbol X86_64 Sample.resolver
                Sample.host_mmap Fixture.files false "twice.o" 0 Sample.boot
                (Fixture.st_of "twice.o" Sample.boot)
                (snd (Fixture.open "twice.o" Sample.boot))
                (Fixture.bin_of "twice.o" Sample.boot)
                (Fixture.blk_of "twice.o" Sample.boot)
                (Fixture.obj_of "twice.o" Sample.boot)
                (Fixture.handle_of "twice.o" Sample.boot) k
                (fixture_acquired_inl "twice.o" Sample.boot Hacq)
                (fixture_opened_some "twice.o" Sample.boot Hopen)) as H.
  cbv beta zeta in H.
  assert (Hstr : symtab (find_tables X86_64 (Fixture.bin_of "twice.o" Sample.boot))
                 + sizeof_Sym X86_64
                   * symnum (find_tables X86_64 (Fixture.bin_of "twice.o" Sample.boot))
                 <= strtab (find_tables X86_64 (Fixture.bin_of "twice.o" Sample.boot)))
    by (vm_compute; discriminate).
  split.
  - specialize (H 2 Hstr).
    replace "g"%string
      with (cstr (Fixture.bin_of "twice.o" Sample.boot)
              (strtab (find_tables X86_64 (Fixture.bin_of "twice.o" Sample.boot))
               + st_name (sym_at X86_64 (Fixture.bin_of "twice.o" Sample.boot)
                            (symtab (find_tables X86_64
                                       (Fixture.bin_of "twice.o" Sample.boot))) 2)))
      by (vm_compute; reflexivity).
    rewrite H; [vm_compute; reflexivity| | |].
    + vm_compute. split; [discriminate|reflexivity].
    + vm_compute. reflexivity.
    + intros k' Hk' Hfo.
      assert (Hc : k' = 0 \/ k' = 1) by lia.
      destruct Hc as [->| ->]; [vm_compute in Hfo; discriminate Hfo|].
      vm_compute. discriminate.
  - specialize (H 1 Hstr).
    replace "f"%string
      with (cstr (Fixture.bin_of "twice.o" Sample.boot)
              (strtab (find_tables X86_64 (Fixture.bin_of "twice.o" Sample.boot))
               + st_name (sym_at X86_64 (Fixture.bin_of "twice.o" Sample.boot)
                            (symtab (find_tables X86_64
                                       (Fixture.bin_of "twice.o" Sample.boot))) 1)))
      by (vm_compute; reflexivity).
    rewrite H; [vm_compute; reflexivity| | |].
    + vm_compute. split; [discriminate|reflexivity].
    + vm_compute. reflexivity.
    + intros k' Hk' Hfo.
      assert (Hc : k' = 0) by lia. subst k'. vm_compute in Hfo. discriminate Hfo.
Defined.

Lemma lookup_of_absent_name_witness :
  objsym (Fixture.handle_of "twice.o" Sample.boot) "h" = 0.
Proof.
  assert (Hacq : Fixture.acquires "twice.o" Sample.boot = true)
    by (vm_compute; reflexivity).
  assert (Hopen : Fixture.opens "twice.o" Sample.boot = true)
    by (vm_compute; reflexivity).
  apply (lookup_of_absent_name X86_64 Sample.resolver
           Sample.host_mmap Fixture.files false "twice.o" 0 Sample.boot
           (Fixture.st_of "twice.o" Sample.boot)
           (snd (Fixture.open "twice.o" Sample.boot))
           (Fixture.bin_of "twice.o" Sample.boot)
           (Fixture.blk_of "twice.o" Sample.boot)
           (Fixture.obj_of "twice.o" Sample.boot)
           (Fixture.handle_of "twice.o" Sample.boot) "h"
           (fixture_acquired_inl "twice.o" Sample.boot Hacq)
           (fixture_opened_some "twice.o" Sample.boot Hopen)).
  - vm_compute. discriminate.
  - intros k Hk Hfo.
    assert (Hn : symnum (find_tables X86_64 (Fixture.bin_of "twice.o" Sample.boot)) = 4)
      by (vm_compute; reflexivity).
    rewrite Hn in Hk. assert (Hc : k = 0 \/ k = 1 \/ k = 2 \/ k = 3) by lia.
    destruct Hc as [->|[->|[->| ->]]]; vm_compute; discriminate.
Defined.

(** [hello.o]: after the load the entry of [hello] in the buffer holds
    the address [objsym] returns, and a relocation against it resolves to
    that address. *)
Lemma symbol_value_written_back_witness :
  let l := fst (Fixture.laid_out "hello.o" Sample.boot) in
  st_value (sym_at X86_64 (Fixture.bin_of "hello.o" Sample.boot)
                   (symtab (l_tables l)) 1) = 0
  /\ st_value (sym_at X86_64 (l_bin l) (symtab (l_tables l)) 1) = Sample.arena
  /\ fst (sym_dispatch Sample.resolver (l_bin l) (strtab (l_tables l)) (l_addrs l)
            (sym_at X86_64 (l_bin l) (symtab (l_tables l)) 1) Sample.boot)
     = Done Sample.arena.
Proof.
  intro l.
  split; [vm_compute; reflexivity|].
  destruct (symbol_value_written_back X86_64 Sample.resolver
              (Fixture.obj_of "hello.o" Sample.boot)
              (Fixture.bin_of "hello.o" Sample.boot)
              (Fixture.st_of "hello.o" Sample.boot)
              (snd (Fixture.laid_out "hello.o" Sample.boot)) l 1
              (surjective_pairing _))
    as (_ & _ & _ & _ & Hwb);
    [vm_compute; split; [discriminate|reflexivity]|].
  destruct Hwb as [Hval Hdis];
    [vm_compute; reflexivity|vm_compute; discriminate|vm_compute; discriminate|].
  assert (Ht : l_tables l = find_tables X86_64 (Fixture.bin_of "hello.o" Sample.boot)).
  { apply (load_layout_parts X86_64 (Fixture.obj_of "hello.o" Sample.boot)
             (Fixture.bin_of "hello.o" Sample.boot)
             (Fixture.st_of "hello.o" Sample.boot)
             (snd (Fixture.laid_out "hello.o" Sample.boot)) l (surjective_pairing _)). }
  rewrite Ht. split.
  - rewrite Hval. vm_compute. reflexivity.
  - rewrite Hdis. vm_compute. reflexivity.
Defined.

(** [two.o]: both relocations are against symbols without type and
    section that the host does not resolve.  [relocate] leaves at the
    first, so the second record is never processed and the error slot
    names [foo] only.  [debug.o]: the relocation against the unresolved
    [totally_unknown_sym] sits in a section whose target is not
    allocatable; it is not processed either and the object is accepted. *)
Lemma second_unresolved_is_not_reported :
  let l := fst (Fixture.laid_out "two.o" Sample.boot) in
  let st1 := snd (Fixture.laid_out "two.o" Sample.boot) in
  let sym := fun j => sym_of X86_64 (l_bin l) (symtab (l_tables l))
                             (rel_at X86_64 (l_bin l) (shdr_at X86_64 (l_bin l) 2) j) in
  let nm := fun j => cstr (l_bin l) (strtab (l_tables l) + st_name (sym j)) in
  (walked X86_64 (l_bin l) 2 = true
   /\ relnum_of X86_64 (shdr_at X86_64 (l_bin l) 2) = 2
   /\ ELF_ST_TYPE (st_info (sym 0)) = STT_NOTYPE /\ st_shndx (sym 0) = SHN_UNDEF
   /\ ELF_ST_TYPE (st_info (sym 1)) = STT_NOTYPE /\ st_shndx (sym 1) = SHN_UNDEF
   /\ nm 0 = "foo"%string /\ nm 1 = "bar"%string
   /\ Sample.resolver "foo" = 0 /\ Sample.resolver "bar" = 0
   /\ fst (before_record X86_64 Sample.resolver l st1 2 1) = Fail
   /\ fst (Fixture.open "two.o" Sample.boot) = None
   /\ objerror (snd (Fixture.open "two.o" Sample.boot)) = "failed to resolve foo"%string
   /\ index 0 "failed to resolve bar" (objerror (snd (Fixture.open "two.o" Sample.boot)))
      = None)
  /\ (let b := Fixture.bin_of "debug.o" Sample.boot in
      let s := sym_of X86_64 b (symtab (find_tables X86_64 b))
                      (rel_at X86_64 b (shdr_at X86_64 b 2) 0) in
      walked X86_64 b 2 = false
      /\ ELF_ST_TYPE (st_info s) = STT_NOTYPE /\ st_shndx s = SHN_UNDEF
      /\ Sample.resolver (cstr b (strtab (find_tables X86_64 b) + st_name s)) = 0
      /\ Fixture.opens "debug.o" Sample.boot = true
      /\ objerror (snd (Fixture.open "debug.o" Sample.boot)) = EmptyString).
Proof.
  intros. split.
  - repeat apply conj; vm_compute; reflexivity.
  - repeat apply conj; vm_compute; reflexivity.
Qed.
